(** * xfetch: broker (socket-server.js) and requester client (xfetch.js)

    A shallow embedding of the connection and request life cycle of the
    broker and of the requester client, followed by the properties of the
    specification that were checked against it.

    Conventions of the embedding.
    - Every handler is a function from the state before the event to the
      state after it, together with the frames handed to [send] (broker) or
      recorded in the state (client).  The single event timeline of Node.js
      makes each handler atomic.
    - [Date.now()] is the argument [now] of a handler.
    - [setTimeout]/[setInterval] put a closure, as data, into the table of
      armed timers of the state; firing a timer is an event of its own.
    - a WebSocket object is a mutable object shared by every structure that
      holds it: it lives in a store and is named by a reference. *)

From Stdlib Require Import ZArith NArith Lia Ascii String.
From stdpp Require Import base option list gmap strings pretty.

(** ** The fragment of JavaScript values the code manipulates *)

Module Js.

#[local] Unset Elimination Schemes.
Inductive value : Type :=
| VUndefined
| VNull
| VBool (b : bool)
| VNum (n : Z)
| VStr (s : string)
| VArr (xs : list value)
| VObj (props : list (string * value)).
#[local] Set Elimination Schemes.

(** A plain object: its own enumerable properties, in insertion order. *)
Definition Object : Type := list (string * value).

(** ToBoolean. *)
Definition truthy (v : value) : bool :=
  match v with
  | VUndefined | VNull => false
  | VBool b => b
  | VNum n => negb (n =? 0)%Z
  | VStr s => negb (bool_decide (s = ""))
  | VArr _ | VObj _ => true
  end.

(** [v === true]. *)
Definition is_true (v : value) : bool :=
  match v with VBool true => true | _ => false end.

Fixpoint getOwn (o : Object) (k : string) : option value :=
  match o with
  | [] => None
  | (k', v) :: r => if decide (k' = k) then Some v else getOwn r k
  end.

(** [o[k]]: a missing property reads as [undefined]. *)
Definition get (o : Object) (k : string) : value :=
  default VUndefined (getOwn o k).

(** [o[k] = v]: an existing property keeps its place, a new one is added
    last. *)
Fixpoint set (o : Object) (k : string) (v : value) : Object :=
  match o with
  | [] => [(k, v)]
  | (k', v') :: r =>
      if decide (k' = k) then (k', v) :: r else (k', v') :: set r k v
  end.

(** [{...xs}] for an array [xs]: the own enumerable properties of an array
    are its indices; [length] is not enumerable and is not copied. *)
Definition spread_array (xs : list value) : Object :=
  imap (fun i x => (pretty i, x)) xs.

(** The characters of the keys made by [spread_array]. *)
Definition is_digit (c : Ascii.ascii) : bool :=
  (48 <=? Ascii.nat_of_ascii c) && (Ascii.nat_of_ascii c <=? 57).

Definition digit_head (s : string) : Prop :=
  match s with
  | EmptyString => True
  | String c _ => is_digit c = true
  end.

(** ToLength of the [length] property.  [undefined] gives NaN, hence 0.
    (Numeric strings are not parsed: no object of this program carries
    one.) *)
Definition toLength (v : value) : nat :=
  match v with
  | VNum n => Z.to_nat n
  | VBool true => 1
  | _ => 0
  end.

(** [Array.from(o)] for an object that is not iterable: [o] is read as an
    array-like, [length] first, then the indices below it. *)
Definition Array_from (o : Object) : list value :=
  (fun k : nat => get o (pretty k)) <$> seq 0 (toLength (get o "length")).

End Js.

(** ** A [Map] whose iteration order matters

    A JavaScript [Map] iterates in insertion order; [set] on a present key
    keeps the key where it is. *)

Module OMap.

Section OMap.
Context {V : Type}.

Fixpoint get (m : list (nat * V)) (k : nat) : option V :=
  match m with
  | [] => None
  | (k', v) :: r => if decide (k' = k) then Some v else get r k
  end.

Definition has (m : list (nat * V)) (k : nat) : bool :=
  match get m k with Some _ => true | None => false end.

Fixpoint set (m : list (nat * V)) (k : nat) (v : V) : list (nat * V) :=
  match m with
  | [] => [(k, v)]
  | (k', v') :: r =>
      if decide (k' = k) then (k', v) :: r else (k', v') :: set r k v
  end.

Fixpoint delete (m : list (nat * V)) (k : nat) : list (nat * V) :=
  match m with
  | [] => []
  | (k', v') :: r =>
      if decide (k' = k) then r else (k', v') :: delete r k
  end.

(** [if (m.has(k)) { d = m.get(k); ...mutate d...; m.set(k, d) }] *)
Fixpoint alter (f : V -> V) (m : list (nat * V)) (k : nat) : list (nat * V) :=
  match m with
  | [] => []
  | (k', v') :: r =>
      if decide (k' = k) then (k', f v') :: r else (k', v') :: alter f r k
  end.

End OMap.

End OMap.

(** ** The broker: socket-server.js *)

Module Broker.

Abbreviation ClientId := nat.
Abbreviation ReqId := string.
Abbreviation TimerId := nat.
(** Milliseconds. *)
Abbreviation Time := N.

Inductive ReadyState := CONNECTING | OPEN | CLOSING | CLOSED.

(** [ws.clientType] is ['unknown'] ([None]) until the peer identifies. *)
Inductive Role := xfetch | extension.

Inductive Health := healthy | degraded | critical.

#[global] Instance ReadyState_eq_dec : EqDecision ReadyState.
Proof. solve_decision. Defined.
#[global] Instance Role_eq_dec : EqDecision Role.
Proof. solve_decision. Defined.
#[global] Instance Health_eq_dec : EqDecision Health.
Proof. solve_decision. Defined.

(** [HEARTBEAT_CONFIG] *)
Definition HEARTBEAT_interval : Time := 3000%N.
Definition HEARTBEAT_timeout : Time := 5000%N.
Definition HEARTBEAT_maxMissed : nat := 3.

(** The mutable part of a WebSocket object of the server. *)
Record Socket := {
  readyState : ReadyState;
  clientType : option Role
}.

(** A parsed inbound frame that carries an [id]: a request of a requester
    ([url], [options], [id]) or the outcome sent by an executor ([id],
    [response], [error]). *)
Record Message := {
  m_id : ReqId;
  m_url : Js.value;
  m_options : Js.value;
  m_response : Js.value;
  m_error : Js.value
}.

(** What the broker passes to [send], after [JSON.stringify]. *)
Inductive Frame :=
| FIdentify
| FIdentified
| FExtension (available : bool) (timestamp : option Time)
| FPing (timestamp : Time)
| FPong (timestamp : Time)
| FMessage (m : Message)
| FError (id : ReqId) (error : string).

(** A frame together with the socket it was sent on. *)
Abbreviation Out := (nat * Frame)%type.

(** The value of [clients[type].get(clientId)]; [ipAddress] and the
    floating-point [avgResponseTime] are left out. *)
Record ClientData := {
  client : ClientId;
  cd_id : ClientId;
  connectedAt : Time;
  lastActivity : Time;
  lastPingSent : option Time;
  lastPongReceived : option Time;
  awaitingPong : bool;
  missedHeartbeats : nat;
  healthStatus : Health;
  pongTimeoutId : option TimerId;
  cd_requestsProcessed : nat;
  cd_requestsSucceeded : nat;
  cd_requestsFailed : nat
}.

Record PendingRequest := {
  pr_client : ClientId;
  pr_timestamp : Time;
  pr_id : ReqId;
  pr_url : Js.value;
  pr_options : Js.value;
  pr_clientId : ClientId
}.

Record QueueItem := {
  q_client : ClientId;
  q_timestamp : Time;
  q_id : ReqId;
  q_url : Js.value;
  q_clientId : ClientId;
  q_originalMessage : Message;
  q_timeoutId : TimerId
}.

(** The closures given to [setTimeout]. *)
Inductive TimerBody :=
| RetryValidate (message : Message) (ws clientId : ClientId) (count : nat)
| PongTimeout (clientType : Role) (clientId : ClientId).

Record Stats := {
  requestsProcessed : nat;
  requestsSucceeded : nat;
  requestsFailed : nat;
  totalConnections : nat;
  activeConnections : Z;
  disconnections : nat;
  reconnections : nat;
  hb_sent : nat;
  hb_received : nat;
  hb_missed : nat
}.

Record State := {
  sockets : gmap ClientId Socket;
  clients_extension : list (ClientId * ClientData);
  clients_xfetch : list (ClientId * ClientData);
  pendingRequests : gmap ReqId PendingRequest;
  pendingRequestsQueue : gmap ReqId QueueItem;
  timers : gmap TimerId (Time * TimerBody);
  nextTimer : TimerId;
  stats : Stats
}.

(** *** Field updates *)

Definition set_sockets (f : gmap ClientId Socket -> gmap ClientId Socket)
    (s : State) : State :=
  {| sockets := f (sockets s); clients_extension := clients_extension s;
     clients_xfetch := clients_xfetch s; pendingRequests := pendingRequests s;
     pendingRequestsQueue := pendingRequestsQueue s; timers := timers s;
     nextTimer := nextTimer s; stats := stats s |}.

Definition set_extension
    (f : list (ClientId * ClientData) -> list (ClientId * ClientData))
    (s : State) : State :=
  {| sockets := sockets s; clients_extension := f (clients_extension s);
     clients_xfetch := clients_xfetch s; pendingRequests := pendingRequests s;
     pendingRequestsQueue := pendingRequestsQueue s; timers := timers s;
     nextTimer := nextTimer s; stats := stats s |}.

Definition set_xfetch
    (f : list (ClientId * ClientData) -> list (ClientId * ClientData))
    (s : State) : State :=
  {| sockets := sockets s; clients_extension := clients_extension s;
     clients_xfetch := f (clients_xfetch s); pendingRequests := pendingRequests s;
     pendingRequestsQueue := pendingRequestsQueue s; timers := timers s;
     nextTimer := nextTimer s; stats := stats s |}.

Definition set_pending
    (f : gmap ReqId PendingRequest -> gmap ReqId PendingRequest)
    (s : State) : State :=
  {| sockets := sockets s; clients_extension := clients_extension s;
     clients_xfetch := clients_xfetch s; pendingRequests := f (pendingRequests s);
     pendingRequestsQueue := pendingRequestsQueue s; timers := timers s;
     nextTimer := nextTimer s; stats := stats s |}.

Definition set_queue
    (f : gmap ReqId QueueItem -> gmap ReqId QueueItem)
    (s : State) : State :=
  {| sockets := sockets s; clients_extension := clients_extension s;
     clients_xfetch := clients_xfetch s; pendingRequests := pendingRequests s;
     pendingRequestsQueue := f (pendingRequestsQueue s); timers := timers s;
     nextTimer := nextTimer s; stats := stats s |}.

Definition set_stats (f : Stats -> Stats) (s : State) : State :=
  {| sockets := sockets s; clients_extension := clients_extension s;
     clients_xfetch := clients_xfetch s; pendingRequests := pendingRequests s;
     pendingRequestsQueue := pendingRequestsQueue s; timers := timers s;
     nextTimer := nextTimer s; stats := f (stats s) |}.

(** [clients[role]] *)
Definition clients (role : Role) (s : State) : list (ClientId * ClientData) :=
  match role with
  | extension => clients_extension s
  | xfetch => clients_xfetch s
  end.

Definition set_clients (role : Role)
    (f : list (ClientId * ClientData) -> list (ClientId * ClientData))
    (s : State) : State :=
  match role with
  | extension => set_extension f s
  | xfetch => set_xfetch f s
  end.

(** [stats.requestsFailed++; stats.requestsProcessed++] *)
Definition count_failed (st : Stats) : Stats :=
  {| requestsProcessed := S (requestsProcessed st);
     requestsSucceeded := requestsSucceeded st;
     requestsFailed := S (requestsFailed st);
     totalConnections := totalConnections st;
     activeConnections := activeConnections st;
     disconnections := disconnections st;
     reconnections := reconnections st;
     hb_sent := hb_sent st; hb_received := hb_received st;
     hb_missed := hb_missed st |}.

(** [stats.requestsProcessed++] and, by the truth value of
    [message.response], [requestsSucceeded++] or [requestsFailed++]. *)
Definition count_outcome (ok : bool) (st : Stats) : Stats :=
  {| requestsProcessed := S (requestsProcessed st);
     requestsSucceeded :=
       if ok then S (requestsSucceeded st) else requestsSucceeded st;
     requestsFailed :=
       if ok then requestsFailed st else S (requestsFailed st);
     totalConnections := totalConnections st;
     activeConnections := activeConnections st;
     disconnections := disconnections st;
     reconnections := reconnections st;
     hb_sent := hb_sent st; hb_received := hb_received st;
     hb_missed := hb_missed st |}.

Definition set_heartbeats (sent received missed : nat -> nat) (st : Stats)
    : Stats :=
  {| requestsProcessed := requestsProcessed st;
     requestsSucceeded := requestsSucceeded st;
     requestsFailed := requestsFailed st;
     totalConnections := totalConnections st;
     activeConnections := activeConnections st;
     disconnections := disconnections st;
     reconnections := reconnections st;
     hb_sent := sent (hb_sent st); hb_received := received (hb_received st);
     hb_missed := missed (hb_missed st) |}.

Definition count_reconnection (st : Stats) : Stats :=
  {| requestsProcessed := requestsProcessed st;
     requestsSucceeded := requestsSucceeded st;
     requestsFailed := requestsFailed st;
     totalConnections := totalConnections st;
     activeConnections := activeConnections st;
     disconnections := disconnections st;
     reconnections := S (reconnections st);
     hb_sent := hb_sent st; hb_received := hb_received st;
     hb_missed := hb_missed st |}.

(** The bookkeeping of [checkClientHealth] for one terminated client that
    had [purged] requests in flight. *)
Definition count_termination (purged : nat) (st : Stats) : Stats :=
  {| requestsProcessed := requestsProcessed st;
     requestsSucceeded := requestsSucceeded st;
     requestsFailed := purged + requestsFailed st;
     totalConnections := totalConnections st;
     activeConnections := activeConnections st - 1;
     disconnections := S (disconnections st);
     reconnections := reconnections st;
     hb_sent := hb_sent st; hb_received := hb_received st;
     hb_missed := hb_missed st |}.

(** *** Timers and sockets *)

(** [setTimeout(body, delay)]: the handle is a fresh number. *)
Definition setTimeout (body : TimerBody) (delay : Time) (s : State)
    : TimerId * State :=
  (nextTimer s,
   {| sockets := sockets s; clients_extension := clients_extension s;
      clients_xfetch := clients_xfetch s; pendingRequests := pendingRequests s;
      pendingRequestsQueue := pendingRequestsQueue s;
      timers := <[nextTimer s := (delay, body)]> (timers s);
      nextTimer := S (nextTimer s); stats := stats s |}).

Definition clearTimeout (tid : TimerId) (s : State) : State :=
  {| sockets := sockets s; clients_extension := clients_extension s;
     clients_xfetch := clients_xfetch s; pendingRequests := pendingRequests s;
     pendingRequestsQueue := pendingRequestsQueue s;
     timers := delete tid (timers s);
     nextTimer := nextTimer s; stats := stats s |}.

(** [ws.readyState]; a reference always denotes a socket in the program, the
    default is never read on its states. *)
Definition readyStateOf (s : State) (ws : ClientId) : ReadyState :=
  match sockets s !! ws with
  | Some k => readyState k
  | None => CLOSED
  end.

Definition isOpen (s : State) (ws : ClientId) : bool :=
  bool_decide (readyStateOf s ws = OPEN).

(** [ws.send(JSON.stringify(frame))].  With the [ws] package, [send] on a
    socket in state OPEN queues the text frame and returns; on a server-side
    socket that is no longer open the frame is lost.  The [catch] branches
    that surround the guarded sends of the server are therefore not
    reached. *)
Definition send (s : State) (ws : ClientId) (f : Frame) : list Out :=
  if isOpen s ws then [(ws, f)] else [].

(** *** Executor selection *)

Definition healthScore (h : Health) : Z :=
  match h with
  | healthy => 2
  | degraded => 1
  | critical => 0
  end.

(** The [for ... of clients.extension.entries()] loop of [sendToExtension],
    with its two variables [bestClient] and [bestHealth]; the [break] is the
    branch without a recursive call. *)
Fixpoint scanExtensions (open : ClientId -> bool)
    (entries : list (ClientId * ClientData))
    (bestClient : option ClientId) (bestHealth : Z) : option ClientId :=
  match entries with
  | [] => bestClient
  | (_, clientData) :: rest =>
      if open (client clientData) then
        let score := healthScore (healthStatus clientData) in
        if (bestHealth <? score)%Z then
          if (score =? 2)%Z then Some (client clientData)
          else scanExtensions open rest (Some (client clientData)) score
        else scanExtensions open rest bestClient bestHealth
      else scanExtensions open rest bestClient bestHealth
  end.

Definition bestExtension (s : State) : option ClientId :=
  scanExtensions (isOpen s) (clients_extension s) None (-1)%Z.

(** [sendToExtension(message)]: the result and the frame sent. *)
Definition sendToExtension (message : Message) (s : State)
    : bool * list Out :=
  if length (clients_extension s) =? 0 then (false, [])
  else
    match bestExtension s with
    | Some bestClient =>
        if isOpen s bestClient then (true, [(bestClient, FMessage message)])
        else (false, [])
    | None => (false, [])
    end.

(** [sendToXfetch(client, message)] *)
Definition sendToXfetch (s : State) (client : ClientId) (f : Frame)
    : bool * list Out :=
  if negb (isOpen s client) then (false, []) else (true, [(client, f)]).

(** [notifyXfetchClients(available)] *)
Definition notifyXfetchClients (now : Time) (available : bool) (s : State)
    : list Out :=
  flat_map (fun e : ClientId * ClientData =>
              if isOpen s (client e.2)
              then [(client e.2, FExtension available (Some now))]
              else [])
           (clients_xfetch s).

(** *** Request routing *)

Definition no_extension_error : string :=
  "No extension clients available after maximum retries".
Definition send_failed_error : string :=
  "Failed to send request to extension clients".
Definition unexpected_error : string :=
  "Unexpected server condition".

(** [clientData.requestsProcessed++; clientData.requestsFailed++] and, in
    [handleExtensionResponse], the same with the outcome of the response. *)
Definition cd_count (ok : bool) (d : ClientData) : ClientData :=
  {| client := client d; cd_id := cd_id d; connectedAt := connectedAt d;
     lastActivity := lastActivity d; lastPingSent := lastPingSent d;
     lastPongReceived := lastPongReceived d; awaitingPong := awaitingPong d;
     missedHeartbeats := missedHeartbeats d; healthStatus := healthStatus d;
     pongTimeoutId := pongTimeoutId d;
     cd_requestsProcessed := S (cd_requestsProcessed d);
     cd_requestsSucceeded :=
       if ok then S (cd_requestsSucceeded d) else cd_requestsSucceeded d;
     cd_requestsFailed :=
       if ok then cd_requestsFailed d else S (cd_requestsFailed d) |}.

(** [clientData.lastActivity = Date.now()] *)
Definition cd_touch (now : Time) (d : ClientData) : ClientData :=
  {| client := client d; cd_id := cd_id d; connectedAt := connectedAt d;
     lastActivity := now; lastPingSent := lastPingSent d;
     lastPongReceived := lastPongReceived d; awaitingPong := awaitingPong d;
     missedHeartbeats := missedHeartbeats d; healthStatus := healthStatus d;
     pongTimeoutId := pongTimeoutId d;
     cd_requestsProcessed := cd_requestsProcessed d;
     cd_requestsSucceeded := cd_requestsSucceeded d;
     cd_requestsFailed := cd_requestsFailed d |}.

(** [validateExtensionClients(message, ws, clientId, count)] *)
Definition validateExtensionClients (now : Time) (message : Message)
    (ws clientId : ClientId) (count : nat) (s : State) : State * list Out :=
  let size := length (clients_extension s) in
  if (size =? 0) && (count <? 3) then
    let s1 :=
      match pendingRequestsQueue s !! m_id message with
      | Some existingQueueItem => clearTimeout (q_timeoutId existingQueueItem) s
      | None => s
      end in
    let '(timeoutId, s2) :=
      setTimeout (RetryValidate message ws clientId count) 2000%N s1 in
    (set_queue
       (insert (m_id message)
          {| q_client := ws; q_timestamp := now; q_id := m_id message;
             q_url := m_url message; q_clientId := clientId;
             q_originalMessage := message; q_timeoutId := timeoutId |}) s2,
     [])
  else if (size =? 0) && (3 <=? count) then
    let s1 := set_queue (delete (m_id message)) s in
    let out := send s1 ws (FError (m_id message) no_extension_error) in
    let s2 := set_pending (delete (m_id message)) s1 in
    (set_stats count_failed s2, out)
  else if 0 <? size then
    let '(sent, out) := sendToExtension message s in
    if negb sent then
      let s1 := set_queue (delete (m_id message)) s in
      let out' := send s1 ws (FError (m_id message) send_failed_error) in
      let s2 := set_pending (delete (m_id message)) s1 in
      let s3 := set_stats count_failed s2 in
      (set_xfetch (fun m => OMap.alter (cd_count false) m clientId) s3,
       out ++ out')
    else (s, out)
  else
    let s1 := set_queue (delete (m_id message)) s in
    let out := send s1 ws (FError (m_id message) unexpected_error) in
    let s2 := set_pending (delete (m_id message)) s1 in
    (set_stats count_failed s2, out).

(** [handleXfetchRequest(ws, message, clientId)] *)
Definition handleXfetchRequest (now : Time) (ws : ClientId)
    (message : Message) (clientId : ClientId) (s : State)
    : State * list Out :=
  let s1 := set_xfetch (fun m => OMap.alter (cd_touch now) m clientId) s in
  let s2 :=
    set_pending
      (insert (m_id message)
         {| pr_client := ws; pr_timestamp := now; pr_id := m_id message;
            pr_url := m_url message; pr_options := m_options message;
            pr_clientId := clientId |}) s1 in
  validateExtensionClients now message ws clientId 0 s2.

(** [handleExtensionResponse(ws, message, clientId)] *)
Definition handleExtensionResponse (now : Time) (ws : ClientId)
    (message : Message) (clientId : ClientId) (s : State)
    : State * list Out :=
  let s1 := set_extension (fun m => OMap.alter (cd_touch now) m clientId) s in
  match pendingRequests s1 !! m_id message with
  | Some pendingRequest =>
      let xfetchClient := pr_client pendingRequest in
      let requestClientId := pr_clientId pendingRequest in
      let out :=
        if isOpen s1 xfetchClient
        then (sendToXfetch s1 xfetchClient (FMessage message)).2
        else [] in
      let ok := Js.truthy (m_response message) in
      let s2 := set_stats (count_outcome ok) s1 in
      let s3 :=
        set_extension (fun m => OMap.alter (cd_count ok) m clientId) s2 in
      let s4 :=
        set_xfetch (fun m => OMap.alter (cd_count ok) m requestClientId) s3 in
      (set_pending (delete (m_id message)) s4, out)
  | None => (s1, [])
  end.

(** The timer armed by [validateExtensionClients], when it fires. *)
Definition retryFired (now : Time) (message : Message)
    (ws clientId : ClientId) (count : nat) (s : State) : State * list Out :=
  validateExtensionClients now message ws clientId (count + 1)
    (set_queue (delete (m_id message)) s).

(** *** Heartbeats *)

(** The writes of [sendHeartbeats] to the entry of one client. *)
Definition cd_ping (now : Time) (timeoutId : TimerId) (d : ClientData)
    : ClientData :=
  {| client := client d; cd_id := cd_id d; connectedAt := connectedAt d;
     lastActivity := lastActivity d; lastPingSent := Some now;
     lastPongReceived := lastPongReceived d; awaitingPong := true;
     missedHeartbeats := missedHeartbeats d; healthStatus := healthStatus d;
     pongTimeoutId := Some timeoutId;
     cd_requestsProcessed := cd_requestsProcessed d;
     cd_requestsSucceeded := cd_requestsSucceeded d;
     cd_requestsFailed := cd_requestsFailed d |}.

(** The body of the pong timeout, under its guard. *)
Definition cd_pongTimeout (d : ClientData) : ClientData :=
  let missed := S (missedHeartbeats d) in
  {| client := client d; cd_id := cd_id d; connectedAt := connectedAt d;
     lastActivity := lastActivity d; lastPingSent := lastPingSent d;
     lastPongReceived := lastPongReceived d; awaitingPong := false;
     missedHeartbeats := missed;
     healthStatus :=
       if HEARTBEAT_maxMissed <=? missed then critical else degraded;
     pongTimeoutId := pongTimeoutId d;
     cd_requestsProcessed := cd_requestsProcessed d;
     cd_requestsSucceeded := cd_requestsSucceeded d;
     cd_requestsFailed := cd_requestsFailed d |}.

(** The writes of [handlePongResponse] to the entry. *)
Definition cd_pong (now : Time) (d : ClientData) : ClientData :=
  {| client := client d; cd_id := cd_id d; connectedAt := connectedAt d;
     lastActivity := now; lastPingSent := lastPingSent d;
     lastPongReceived := Some now; awaitingPong := false;
     missedHeartbeats := 0;
     healthStatus :=
       if (0 <? missedHeartbeats d)
          && (missedHeartbeats d <? HEARTBEAT_maxMissed)
       then healthy else healthStatus d;
     pongTimeoutId := None;
     cd_requestsProcessed := cd_requestsProcessed d;
     cd_requestsSucceeded := cd_requestsSucceeded d;
     cd_requestsFailed := cd_requestsFailed d |}.

(** What can happen to the entry of one connection: a ping is sent to it
    and its pong timeout [timeoutId] armed; a pong arrives from it; one of
    its pong timeouts fires, the socket being open or not. *)
Inductive Beat :=
| BeatPing (now : Time) (timeoutId : TimerId)
| BeatPong (now : Time)
| BeatTimeout (open : bool).

Definition beat (b : Beat) (d : ClientData) : ClientData :=
  match b with
  | BeatPing now timeoutId => cd_ping now timeoutId d
  | BeatPong now => cd_pong now d
  | BeatTimeout open => if awaitingPong d && open then cd_pongTimeout d else d
  end.

Definition beats (bs : list Beat) (d : ClientData) : ClientData :=
  foldl (fun d b => beat b d) d bs.

Definition is_ping (b : Beat) : bool :=
  match b with BeatPing _ _ => true | _ => false end.

(** One iteration of the loop of [sendHeartbeats(clientType)]. *)
Definition pingClient (role : Role) (now : Time) (acc : State * list Out)
    (clientId : ClientId) : State * list Out :=
  match OMap.get (clients role acc.1) clientId with
  | Some clientData =>
      if isOpen acc.1 (client clientData) then
        let '(timeoutId, s1) :=
          setTimeout (PongTimeout role clientId) HEARTBEAT_timeout acc.1 in
        (set_stats (set_heartbeats S id id)
           (set_clients role
              (fun m => OMap.alter (cd_ping now timeoutId) m clientId) s1),
         acc.2 ++ [(client clientData, FPing now)])
      else acc
  | None => acc
  end.

(** [sendHeartbeats(clientType)] *)
Definition sendHeartbeats (role : Role) (now : Time) (s : State)
    : State * list Out :=
  foldl (pingClient role now) (s, []) ((clients role s).*1).

(** The closure armed by [sendHeartbeats], when it fires.  The closure holds
    the entry object itself; it is found here under its key, which is the
    same object unless the peer identified again between the ping and this
    moment.  In that one case the source counts the miss on the object that
    the registry no longer holds, and the model on the entry that replaced
    it. *)
Definition pongTimeoutFired (role : Role) (clientId : ClientId) (s : State)
    : State :=
  match OMap.get (clients role s) clientId with
  | Some clientData =>
      if awaitingPong clientData && isOpen s (client clientData) then
        set_stats (set_heartbeats id id S)
          (set_clients role
             (fun m => OMap.alter cd_pongTimeout m clientId) s)
      else s
  | None => s
  end.

(** [handlePongResponse(ws, clientId)] *)
Definition handlePongResponse (now : Time) (ws clientId : ClientId)
    (s : State) : State :=
  match sockets s !! ws ≫= clientType with
  | Some role =>
      match OMap.get (clients role s) clientId with
      | Some clientData =>
          let s1 :=
            match pongTimeoutId clientData with
            | Some t => clearTimeout t s
            | None => s
            end in
          set_stats (set_heartbeats id S id)
            (set_clients role
               (fun m => OMap.alter (cd_pong now) m clientId) s1)
      | None => s
      end
  | None => s
  end.

(** [client.terminate()] *)
Definition terminate (ws : ClientId) (s : State) : State :=
  set_sockets
    (alter (fun k => {| readyState := CLOSING; clientType := clientType k |})
       ws) s.

(** One iteration of the loop of [checkClientHealth(clientType)]. *)
Definition checkClient (role : Role) (s : State) (clientId : ClientId)
    : State :=
  match OMap.get (clients role s) clientId with
  | Some clientData =>
      if HEARTBEAT_maxMissed <=? missedHeartbeats clientData then
        let s1 :=
          match pongTimeoutId clientData with
          | Some t => clearTimeout t s
          | None => s
          end in
        let s2 :=
          if isOpen s1 (client clientData)
          then terminate (client clientData) s1 else s1 in
        let s3 := set_clients role (fun m => OMap.delete m clientId) s2 in
        let purged :=
          filter (fun kv : ReqId * PendingRequest =>
                    pr_client kv.2 = client clientData) (pendingRequests s3) in
        set_stats (count_termination (size purged))
          (set_pending
             (filter (fun kv : ReqId * PendingRequest =>
                        pr_client kv.2 <> client clientData)) s3)
      else s
  | None => s
  end.

(** [checkClientHealth(clientType)] *)
Definition checkClientHealth (role : Role) (s : State) : State :=
  foldl (checkClient role) s ((clients role s).*1).

(** The body of the heartbeat [setInterval]. *)
Definition heartbeatTick (now : Time) (s : State) : State * list Out :=
  let '(s1, o1) := sendHeartbeats extension now s in
  let '(s2, o2) := sendHeartbeats xfetch now s1 in
  (checkClientHealth xfetch (checkClientHealth extension s2), o1 ++ o2).

(** *** Connections *)

(** [wss.on('connection', ...)]: the new socket is [clientId]. *)
Definition onConnection (clientId : ClientId) (s : State)
    : State * list Out :=
  let s1 :=
    set_sockets
      (insert clientId {| readyState := OPEN; clientType := None |}) s in
  let s2 :=
    set_stats
      (fun st =>
         {| requestsProcessed := requestsProcessed st;
            requestsSucceeded := requestsSucceeded st;
            requestsFailed := requestsFailed st;
            totalConnections := S (totalConnections st);
            activeConnections := activeConnections st + 1;
            disconnections := disconnections st;
            reconnections := reconnections st;
            hb_sent := hb_sent st; hb_received := hb_received st;
            hb_missed := hb_missed st |}) s1 in
  (s2, send s2 clientId FIdentify).

Definition newClientData (now : Time) (ws clientId : ClientId) : ClientData :=
  {| client := ws; cd_id := clientId; connectedAt := now;
     lastActivity := now; lastPingSent := None; lastPongReceived := None;
     awaitingPong := false; missedHeartbeats := 0; healthStatus := healthy;
     pongTimeoutId := None; cd_requestsProcessed := 0;
     cd_requestsSucceeded := 0; cd_requestsFailed := 0 |}.

(** [handleClientIdentification(ws, message, clientId, clientIp)], where
    [role] is [message.clientType]. *)
Definition handleClientIdentification (now : Time) (ws : ClientId)
    (role : Role) (clientId : ClientId) (s : State) : State * list Out :=
  let isReconnection :=
    match sockets s !! ws ≫= clientType with
    | Some _ => true
    | None => false
    end in
  let s1 :=
    set_sockets
      (alter (fun k => {| readyState := readyState k;
                          clientType := Some role |}) ws) s in
  let s2 :=
    set_clients role
      (fun m => OMap.set m clientId (newClientData now ws clientId)) s1 in
  let s3 := if isReconnection then set_stats count_reconnection s2 else s2 in
  let available := length (clients_extension s3) =? 1 in
  (s3,
   send s3 ws FIdentified
   ++ match role with
      | xfetch => send s3 ws (FExtension available None)
      | extension =>
          if available then notifyXfetchClients now true s3 else []
      end).

(** [ws.on('close', ...)]: the socket is closed when the handler runs.
    For a peer that never identified, [clients['unknown']] is [undefined]
    and the handler raises at its second statement.  Nothing catches that
    exception, and the process ends with it; here the handler stops and the
    timeline goes on, so that the runs of the program are among the runs of
    the model. *)
Definition onClose (now : Time) (ws clientId : ClientId) (s : State)
    : State * list Out :=
  let s0 :=
    set_sockets
      (alter (fun k => {| readyState := CLOSED; clientType := clientType k |})
         ws) s in
  match sockets s0 !! ws ≫= clientType with
  | Some role =>
      let s1 := set_clients role (fun m => OMap.delete m clientId) s0 in
      let s2 :=
        set_pending
          (filter (fun kv : ReqId * PendingRequest => pr_client kv.2 <> ws))
          s1 in
      let out :=
        match role with
        | extension =>
            if length (clients_extension s2) =? 0
            then notifyXfetchClients now false s2 else []
        | xfetch => []
        end in
      (set_stats
         (fun st =>
            {| requestsProcessed := requestsProcessed st;
               requestsSucceeded := requestsSucceeded st;
               requestsFailed := requestsFailed st;
               totalConnections := totalConnections st;
               activeConnections := activeConnections st;
               disconnections := S (disconnections st);
               reconnections := reconnections st;
               hb_sent := hb_sent st; hb_received := hb_received st;
               hb_missed := hb_missed st |}) s2,
       out)
  | None => (s0, [])
  end.

(** A timer fires: it leaves the table and its closure runs. *)
Definition fireTimer (now : Time) (tid : TimerId) (s : State)
    : State * list Out :=
  match timers s !! tid with
  | Some (_, body) =>
      let s1 := clearTimeout tid s in
      match body with
      | RetryValidate message ws clientId count =>
          retryFired now message ws clientId count s1
      | PongTimeout role clientId => (pongTimeoutFired role clientId s1, [])
      end
  | None => (s, [])
  end.

(** A run of executor responses, each with the connection it arrives on and
    the time of its arrival. *)
Fixpoint handleExtensionResponses
    (rs : list (Time * ClientId * Message * ClientId)) (s : State)
    : State * list Out :=
  match rs with
  | [] => (s, [])
  | (now, ws, message, clientId) :: rest =>
      let '(s1, o1) := handleExtensionResponse now ws message clientId s in
      let '(s2, o2) := handleExtensionResponses rest s1 in
      (s2, o1 ++ o2)
  end.

(** The frames of a list that answer request [id]. *)
Definition answers (id : ReqId) (o : Out) : bool :=
  match o.2 with
  | FMessage m => bool_decide (m_id m = id)
  | FError id' _ => bool_decide (id' = id)
  | _ => false
  end.

(** *** The event timeline *)

(** A parsed inbound frame, by the test of [ws.on('message', ...)] that it
    passes first: [type] is ['pong']; [type] is ['ping']; [clientType] is
    ['xfetch'] or ['extension']; any other frame with an [id]. *)
Inductive Inbound :=
| IPong
| IPing
| IIdentify (role : Role)
| IOther (message : Message).

(** [ws.on('message', ...)] for the socket [ws] of connection [clientId]. *)
Definition onMessage (now : Time) (ws clientId : ClientId) (frame : Inbound)
    (s : State) : State * list Out :=
  match frame with
  | IPong => (handlePongResponse now ws clientId s, [])
  | IPing => (s, send s ws (FPong now))
  | IIdentify role => handleClientIdentification now ws role clientId s
  | IOther message =>
      match sockets s !! ws ≫= clientType with
      | Some xfetch =>
          if Js.truthy (m_url message) && Js.truthy (m_options message)
          then handleXfetchRequest now ws message clientId s
          else (s, [])
      | Some extension => handleExtensionResponse now ws message clientId s
      | None => (s, [])
      end
  end.

(** What happens to the broker: a peer connects; a frame arrives on the
    socket [ws] of connection [clientId]; that socket closes; the heartbeat
    interval ticks; a timer fires. *)
Inductive Event :=
| Connection (clientId : ClientId)
| Received (ws clientId : ClientId) (frame : Inbound)
| Close (ws clientId : ClientId)
| HeartbeatTick
| TimerFired (tid : TimerId).

Definition step (now : Time) (e : Event) (s : State) : State * list Out :=
  match e with
  | Connection clientId => onConnection clientId s
  | Received ws clientId frame => onMessage now ws clientId frame s
  | Close ws clientId => onClose now ws clientId s
  | HeartbeatTick => heartbeatTick now s
  | TimerFired tid => fireTimer now tid s
  end.

Fixpoint run (es : list (Time * Event)) (s : State) : State * list Out :=
  match es with
  | [] => (s, [])
  | (now, e) :: rest =>
      let '(s1, o1) := step now e s in
      let '(s2, o2) := run rest s1 in
      (s2, o1 ++ o2)
  end.

(** The retry timer of the queued request [id] fires. *)
Definition fireQueued (now : Time) (id : ReqId) (s : State)
    : State * list Out :=
  match pendingRequestsQueue s !! id with
  | Some item => fireTimer now (q_timeoutId item) s
  | None => (s, [])
  end.

(** It fires again and again, at the times [ticks]. *)
Fixpoint fireQueuedAt (ticks : list Time) (id : ReqId) (s : State)
    : State * list Out :=
  match ticks with
  | [] => (s, [])
  | now :: rest =>
      let '(s1, o1) := fireQueued now id s in
      let '(s2, o2) := fireQueuedAt rest id s1 in
      (s2, o1 ++ o2)
  end.

(** The health of a client of the registry. *)
Definition healthOf (role : Role) (clientId : ClientId) (s : State)
    : option Health :=
  healthStatus <$> OMap.get (clients role s) clientId.

(** *** Predicates of the properties proved below *)

(** [c] is the open client of [entries] with the highest score, the first
    of them in the order of the map. *)
Definition is_best (open : ClientId -> bool)
    (entries : list (ClientId * ClientData)) (c : ClientId) : Prop :=
  exists i k d,
    entries !! i = Some (k, d) /\ client d = c /\ open c = true /\
    forall j k' d',
      entries !! j = Some (k', d') -> open (client d') = true ->
      (healthScore (healthStatus d') <= healthScore (healthStatus d))%Z /\
      (j < i -> (healthScore (healthStatus d') < healthScore (healthStatus d))%Z).

(** A retry of request [id] is armed. *)
Definition retry_armed (id : ReqId) (s : State) : Prop :=
  exists tid delay message ws clientId count,
    timers s !! tid = Some (delay, RetryValidate message ws clientId count)
    /\ m_id message = id.

(** The event is a frame with this [id] that arrives from a requester. *)
Definition submits (id : ReqId) (e : Event) (s : State) : Prop :=
  match e with
  | Received ws _ (IOther message) =>
      m_id message = id /\ sockets s !! ws ≫= clientType = Some xfetch
  | _ => False
  end.

(** No event of the run submits [id]. *)
Fixpoint never_submitted (id : ReqId) (es : list (Time * Event)) (s : State)
    : Prop :=
  match es with
  | [] => True
  | (now, e) :: rest =>
      ~ submits id e s /\ never_submitted id rest (step now e s).1
  end.

(** No frame of [out] carries [id]. *)
Definition benign (id : ReqId) (out : list Out) : Prop :=
  Forall (fun o => answers id o = false) out.

(** Every retry of [id] armed in [s'] was armed in [s] already. *)
Definition no_new_retry (id : ReqId) (s s' : State) : Prop :=
  forall tid delay message ws clientId count,
    timers s' !! tid = Some (delay, RetryValidate message ws clientId count) ->
    m_id message = id ->
    timers s !! tid = Some (delay, RetryValidate message ws clientId count).

(** A step that has nothing to do with request [id]. *)
Definition inert (id : ReqId) (s s' : State) (out : list Out) : Prop :=
  no_new_retry id s s' /\
  (pendingRequests s !! id = None -> pendingRequests s' !! id = None) /\
  benign id out.

(** The event is a frame with this [id] that arrives from an executor. *)
Definition responds (id : ReqId) (e : Event) (s : State) : Prop :=
  match e with
  | Received ws _ (IOther message) =>
      m_id message = id /\ sockets s !! ws ≫= clientType = Some extension
  | _ => False
  end.

(** No entry of the registry of executors holds the socket [ws]. *)
Definition not_executor (ws : ClientId) (s : State) : Prop :=
  Forall (fun e : ClientId * ClientData => client e.2 <> ws)
    (clients_extension s).

(** The frames that carry [id] to the socket [ws]. *)
Definition answers_to (id : ReqId) (ws : ClientId) (o : Out) : bool :=
  bool_decide (o.1 = ws) && answers id o.

(** At most one event of the run submits [id]. *)
Fixpoint submitted_once (id : ReqId) (es : list (Time * Event)) (s : State)
    : Prop :=
  match es with
  | [] => True
  | (now, e) :: rest =>
      (~ submits id e s /\ submitted_once id rest (step now e s).1) \/
      (submits id e s /\ never_submitted id rest (step now e s).1)
  end.

(** Throughout the run, no executor answers [id] while a retry of [id] is
    armed, and the socket [ws] is not registered as an executor. *)
Fixpoint orderly (id : ReqId) (ws : ClientId) (es : list (Time * Event))
    (s : State) : Prop :=
  match es with
  | [] => True
  | (now, e) :: rest =>
      (responds id e s -> ~ retry_armed id s) /\ not_executor ws s /\
      orderly id ws rest (step now e s).1
  end.

(** At most one retry of [id] is armed. *)
Definition one_retry (id : ReqId) (s : State) : Prop :=
  forall tid tid' d d' m m' w w' c c' n n',
    timers s !! tid = Some (d, RetryValidate m w c n) -> m_id m = id ->
    timers s !! tid' = Some (d', RetryValidate m' w' c' n') -> m_id m' = id ->
    tid = tid'.

(** Request [message] waits in the queue for its retry number [count]: no
    executor is registered, and the timer of its queue entry is armed, at
    two seconds, with the closure that re-attempts the selection. *)
Definition awaits_retry (message : Message) (ws clientId : ClientId)
    (count : nat) (s : State) : Prop :=
  clients_extension s = [] /\
  exists item,
    pendingRequestsQueue s !! m_id message = Some item /\
    timers s !! q_timeoutId item
    = Some (2000%N, RetryValidate message ws clientId count).

(** The loop does not depend on what follows the first open healthy
    client. *)
Definition short_circuits (open : ClientId -> bool)
    (entries : list (ClientId * ClientData)) : Prop :=
  forall pre k d rest,
    entries = pre ++ (k, d) :: rest ->
    open (client d) = true -> healthStatus d = healthy ->
    scanExtensions open entries None (-1)%Z
    = scanExtensions open (pre ++ [(k, d)]) None (-1)%Z.

Definition all_closed (open : ClientId -> bool)
    (entries : list (ClientId * ClientData)) : Prop :=
  forall j k d, entries !! j = Some (k, d) -> open (client d) = false.

(** What the two variables of the loop hold after the entries [pre]. *)
Definition scan_inv (open : ClientId -> bool)
    (pre : list (ClientId * ClientData))
    (bestClient : option ClientId) (bestHealth : Z) : Prop :=
  match bestClient with
  | None => bestHealth = (-1)%Z /\ all_closed open pre
  | Some c =>
      (bestHealth < 2)%Z /\
      exists i k d,
        pre !! i = Some (k, d) /\ client d = c /\ open c = true /\
        healthScore (healthStatus d) = bestHealth /\
        forall j k' d',
          pre !! j = Some (k', d') -> open (client d') = true ->
          (healthScore (healthStatus d') <= bestHealth)%Z /\
          (j < i -> (healthScore (healthStatus d') < bestHealth)%Z)
  end.

End Broker.

(** ** The requester client: xfetch.js *)

Module Xfetch.

Abbreviation ReqId := nat.
Abbreviation TimerId := nat.
Abbreviation PromiseId := nat.
Abbreviation Ref := nat.
(** Milliseconds. *)
Abbreviation Time := N.

Inductive ReadyState := CONNECTING | OPEN | CLOSING | CLOSED.

#[global] Instance WsReadyState_eq_dec : EqDecision ReadyState.
Proof. solve_decision. Defined.

(** [this.config] *)
Record Config := {
  timeout : Time;
  maxRetries : nat;
  heartbeatInterval : Time;
  queueCheckInterval : Time
}.

(** The [options] argument of the constructor, for options that are
    missing ([None]) or natural numbers.  Any other truthy value, a string
    or a negative number, is kept as it is by [||]; such options are not
    covered here. *)
Record Options := {
  o_timeout : option Time;
  o_maxRetries : option nat;
  o_heartbeatInterval : option Time;
  o_queueCheckInterval : option Time
}.

(** [x || d] on numbers: [undefined] and [0] give [d]. *)
Definition orN (x : option N) (d : N) : N :=
  match x with
  | Some v => if (v =? 0)%N then d else v
  | None => d
  end.

Definition ornat (x : option nat) (d : nat) : nat :=
  match x with
  | Some (S v) => S v
  | _ => d
  end.

Definition mkConfig (options : Options) : Config :=
  {| timeout := orN (o_timeout options) 5000;
     maxRetries := ornat (o_maxRetries options) 3;
     heartbeatInterval := orN (o_heartbeatInterval options) 15000;
     queueCheckInterval := orN (o_queueCheckInterval options) 1000 |}.

(** The socket of the client.  Whether [send] raises on a socket that is
    not open depends on the version of the [ws] package ([send_error] is the
    message of the error it raises, if it does); [close] raises or not
    likewise. *)
Record WebSocket := {
  readyState : ReadyState;
  send_error : option string;
  close_raises : bool
}.

(** The two continuations of the promise made by one call of [fetch] are
    named by the number of the promise. *)
Record Pending := {
  p_promise : PromiseId;
  p_timeoutId : option TimerId
}.

Record QueueEntry := {
  q_url : string;
  q_options : Ref;
  q_promise : PromiseId;
  q_retryCount : nat
}.

(** What is passed to [ws.send], before [JSON.stringify]; the [options] of
    a request are the properties of the object at that moment. *)
Inductive Frame :=
| FRequest (url : string) (options : Js.Object) (id : ReqId)
| FIdentify
| FPing
| FPong.

(** The closures given to [setTimeout] and [setInterval]. *)
Inductive TimerBody :=
| AttemptTimeout (url : string) (options : Ref) (promise : PromiseId)
    (retryCount : nat) (requestId : ReqId)
| SendRetry (url : string) (options : Ref) (promise : PromiseId)
    (retryCount : nat)
| GiveUp (url : string) (promise : PromiseId)
| Reconnect
| IdentifyInterval
| IdentifyResend
| Heartbeat
| QueueCheck.

Record Timer := {
  t_delay : Time;
  t_repeats : bool;
  t_body : TimerBody
}.

(** A call of [resolve] or of [reject]. *)
Inductive Settlement :=
| Resolved (response : Js.value)
| Rejected (message : string).

(** How a method returns: normally, or by an exception. *)
Inductive Completion :=
| Normal
| Throw (message : string).

(** The fields of an [Xfetch] object, followed by the run-time state they
    refer to: the objects passed as [options] ([heap]), the armed timers,
    the supplies of timer handles, of identifiers ([uuidv4()] returns the
    [nextUuid]-th identifier of a sequence without repetition) and of
    promises, the frames handed to [ws.send], and the calls of the
    continuations of the promises, oldest first. *)
Record State := {
  config : Config;
  cookies : gmap string Js.Object;
  ws : WebSocket;
  isConnected : bool;
  extensionAvailable : bool;
  isIdentified : bool;
  pendingRequests : list (ReqId * Pending);
  requestQueue : list QueueEntry;
  _giveUpTimers : list TimerId;
  reconnectAttempts : nat;
  maxReconnectAttempts : nat;
  reconnectDelay : Time;
  isIdentifiedTimer : option TimerId;
  heap : gmap Ref Js.Object;
  timers : gmap TimerId Timer;
  nextTimer : TimerId;
  nextUuid : nat;
  nextPromise : nat;
  sent : list Frame;
  settled : list (PromiseId * Settlement)
}.

(** *** Field updates *)

Definition set_cookies (f : (gmap string Js.Object) -> (gmap string Js.Object)) (s : State) : State :=
  {| config := config s; cookies := f (cookies s); ws := ws s; isConnected :=
     isConnected s; extensionAvailable := extensionAvailable s; isIdentified
     := isIdentified s; pendingRequests := pendingRequests s; requestQueue :=
     requestQueue s; _giveUpTimers := _giveUpTimers s; reconnectAttempts :=
     reconnectAttempts s; maxReconnectAttempts := maxReconnectAttempts s;
     reconnectDelay := reconnectDelay s; isIdentifiedTimer :=
     isIdentifiedTimer s; heap := heap s; timers := timers s; nextTimer :=
     nextTimer s; nextUuid := nextUuid s; nextPromise := nextPromise s; sent
     := sent s; settled := settled s |}.

Definition set_ws (f : WebSocket -> WebSocket) (s : State) : State :=
  {| config := config s; cookies := cookies s; ws := f (ws s); isConnected :=
     isConnected s; extensionAvailable := extensionAvailable s; isIdentified
     := isIdentified s; pendingRequests := pendingRequests s; requestQueue :=
     requestQueue s; _giveUpTimers := _giveUpTimers s; reconnectAttempts :=
     reconnectAttempts s; maxReconnectAttempts := maxReconnectAttempts s;
     reconnectDelay := reconnectDelay s; isIdentifiedTimer :=
     isIdentifiedTimer s; heap := heap s; timers := timers s; nextTimer :=
     nextTimer s; nextUuid := nextUuid s; nextPromise := nextPromise s; sent
     := sent s; settled := settled s |}.

Definition set_isConnected (f : bool -> bool) (s : State) : State :=
  {| config := config s; cookies := cookies s; ws := ws s; isConnected := f
     (isConnected s); extensionAvailable := extensionAvailable s;
     isIdentified := isIdentified s; pendingRequests := pendingRequests s;
     requestQueue := requestQueue s; _giveUpTimers := _giveUpTimers s;
     reconnectAttempts := reconnectAttempts s; maxReconnectAttempts :=
     maxReconnectAttempts s; reconnectDelay := reconnectDelay s;
     isIdentifiedTimer := isIdentifiedTimer s; heap := heap s; timers :=
     timers s; nextTimer := nextTimer s; nextUuid := nextUuid s; nextPromise
     := nextPromise s; sent := sent s; settled := settled s |}.

Definition set_extensionAvailable (f : bool -> bool) (s : State) : State :=
  {| config := config s; cookies := cookies s; ws := ws s; isConnected :=
     isConnected s; extensionAvailable := f (extensionAvailable s);
     isIdentified := isIdentified s; pendingRequests := pendingRequests s;
     requestQueue := requestQueue s; _giveUpTimers := _giveUpTimers s;
     reconnectAttempts := reconnectAttempts s; maxReconnectAttempts :=
     maxReconnectAttempts s; reconnectDelay := reconnectDelay s;
     isIdentifiedTimer := isIdentifiedTimer s; heap := heap s; timers :=
     timers s; nextTimer := nextTimer s; nextUuid := nextUuid s; nextPromise
     := nextPromise s; sent := sent s; settled := settled s |}.

Definition set_isIdentified (f : bool -> bool) (s : State) : State :=
  {| config := config s; cookies := cookies s; ws := ws s; isConnected :=
     isConnected s; extensionAvailable := extensionAvailable s;
     isIdentified := f (isIdentified s); pendingRequests := pendingRequests s;
     requestQueue := requestQueue s; _giveUpTimers := _giveUpTimers s;
     reconnectAttempts := reconnectAttempts s; maxReconnectAttempts :=
     maxReconnectAttempts s; reconnectDelay := reconnectDelay s;
     isIdentifiedTimer := isIdentifiedTimer s; heap := heap s; timers :=
     timers s; nextTimer := nextTimer s; nextUuid := nextUuid s; nextPromise
     := nextPromise s; sent := sent s; settled := settled s |}.

Definition set_pendingRequests (f : (list (ReqId * Pending)) -> (list (ReqId * Pending))) (s : State) : State :=
  {| config := config s; cookies := cookies s; ws := ws s; isConnected :=
     isConnected s; extensionAvailable := extensionAvailable s; isIdentified
     := isIdentified s; pendingRequests := f (pendingRequests s);
     requestQueue := requestQueue s; _giveUpTimers := _giveUpTimers s;
     reconnectAttempts := reconnectAttempts s; maxReconnectAttempts :=
     maxReconnectAttempts s; reconnectDelay := reconnectDelay s;
     isIdentifiedTimer := isIdentifiedTimer s; heap := heap s; timers :=
     timers s; nextTimer := nextTimer s; nextUuid := nextUuid s; nextPromise
     := nextPromise s; sent := sent s; settled := settled s |}.

Definition set_requestQueue (f : (list QueueEntry) -> (list QueueEntry)) (s : State) : State :=
  {| config := config s; cookies := cookies s; ws := ws s; isConnected :=
     isConnected s; extensionAvailable := extensionAvailable s; isIdentified
     := isIdentified s; pendingRequests := pendingRequests s; requestQueue :=
     f (requestQueue s); _giveUpTimers := _giveUpTimers s; reconnectAttempts :=
     reconnectAttempts s; maxReconnectAttempts := maxReconnectAttempts s;
     reconnectDelay := reconnectDelay s; isIdentifiedTimer :=
     isIdentifiedTimer s; heap := heap s; timers := timers s; nextTimer :=
     nextTimer s; nextUuid := nextUuid s; nextPromise := nextPromise s; sent
     := sent s; settled := settled s |}.

Definition set_giveUpTimers (f : (list TimerId) -> (list TimerId)) (s : State) : State :=
  {| config := config s; cookies := cookies s; ws := ws s; isConnected :=
     isConnected s; extensionAvailable := extensionAvailable s; isIdentified
     := isIdentified s; pendingRequests := pendingRequests s; requestQueue :=
     requestQueue s; _giveUpTimers := f (_giveUpTimers s); reconnectAttempts :=
     reconnectAttempts s; maxReconnectAttempts := maxReconnectAttempts s;
     reconnectDelay := reconnectDelay s; isIdentifiedTimer :=
     isIdentifiedTimer s; heap := heap s; timers := timers s; nextTimer :=
     nextTimer s; nextUuid := nextUuid s; nextPromise := nextPromise s; sent
     := sent s; settled := settled s |}.

Definition set_reconnectAttempts (f : nat -> nat) (s : State) : State :=
  {| config := config s; cookies := cookies s; ws := ws s; isConnected :=
     isConnected s; extensionAvailable := extensionAvailable s; isIdentified
     := isIdentified s; pendingRequests := pendingRequests s; requestQueue :=
     requestQueue s; _giveUpTimers := _giveUpTimers s; reconnectAttempts := f
     (reconnectAttempts s); maxReconnectAttempts := maxReconnectAttempts s;
     reconnectDelay := reconnectDelay s; isIdentifiedTimer :=
     isIdentifiedTimer s; heap := heap s; timers := timers s; nextTimer :=
     nextTimer s; nextUuid := nextUuid s; nextPromise := nextPromise s; sent
     := sent s; settled := settled s |}.

Definition set_isIdentifiedTimer (f : (option TimerId) -> (option TimerId)) (s : State) : State :=
  {| config := config s; cookies := cookies s; ws := ws s; isConnected :=
     isConnected s; extensionAvailable := extensionAvailable s; isIdentified
     := isIdentified s; pendingRequests := pendingRequests s; requestQueue :=
     requestQueue s; _giveUpTimers := _giveUpTimers s; reconnectAttempts :=
     reconnectAttempts s; maxReconnectAttempts := maxReconnectAttempts s;
     reconnectDelay := reconnectDelay s; isIdentifiedTimer := f
     (isIdentifiedTimer s); heap := heap s; timers := timers s; nextTimer :=
     nextTimer s; nextUuid := nextUuid s; nextPromise := nextPromise s; sent
     := sent s; settled := settled s |}.

Definition set_heap (f : (gmap Ref Js.Object) -> (gmap Ref Js.Object)) (s : State) : State :=
  {| config := config s; cookies := cookies s; ws := ws s; isConnected :=
     isConnected s; extensionAvailable := extensionAvailable s; isIdentified
     := isIdentified s; pendingRequests := pendingRequests s; requestQueue :=
     requestQueue s; _giveUpTimers := _giveUpTimers s; reconnectAttempts :=
     reconnectAttempts s; maxReconnectAttempts := maxReconnectAttempts s;
     reconnectDelay := reconnectDelay s; isIdentifiedTimer :=
     isIdentifiedTimer s; heap := f (heap s); timers := timers s; nextTimer
     := nextTimer s; nextUuid := nextUuid s; nextPromise := nextPromise s;
     sent := sent s; settled := settled s |}.

Definition set_timers (f : (gmap TimerId Timer) -> (gmap TimerId Timer)) (s : State) : State :=
  {| config := config s; cookies := cookies s; ws := ws s; isConnected :=
     isConnected s; extensionAvailable := extensionAvailable s; isIdentified
     := isIdentified s; pendingRequests := pendingRequests s; requestQueue :=
     requestQueue s; _giveUpTimers := _giveUpTimers s; reconnectAttempts :=
     reconnectAttempts s; maxReconnectAttempts := maxReconnectAttempts s;
     reconnectDelay := reconnectDelay s; isIdentifiedTimer :=
     isIdentifiedTimer s; heap := heap s; timers := f (timers s); nextTimer
     := nextTimer s; nextUuid := nextUuid s; nextPromise := nextPromise s;
     sent := sent s; settled := settled s |}.

Definition set_nextTimer (f : TimerId -> TimerId) (s : State) : State :=
  {| config := config s; cookies := cookies s; ws := ws s; isConnected :=
     isConnected s; extensionAvailable := extensionAvailable s; isIdentified
     := isIdentified s; pendingRequests := pendingRequests s; requestQueue :=
     requestQueue s; _giveUpTimers := _giveUpTimers s; reconnectAttempts :=
     reconnectAttempts s; maxReconnectAttempts := maxReconnectAttempts s;
     reconnectDelay := reconnectDelay s; isIdentifiedTimer :=
     isIdentifiedTimer s; heap := heap s; timers := timers s; nextTimer := f
     (nextTimer s); nextUuid := nextUuid s; nextPromise := nextPromise s;
     sent := sent s; settled := settled s |}.

Definition set_nextUuid (f : nat -> nat) (s : State) : State :=
  {| config := config s; cookies := cookies s; ws := ws s; isConnected :=
     isConnected s; extensionAvailable := extensionAvailable s; isIdentified
     := isIdentified s; pendingRequests := pendingRequests s; requestQueue :=
     requestQueue s; _giveUpTimers := _giveUpTimers s; reconnectAttempts :=
     reconnectAttempts s; maxReconnectAttempts := maxReconnectAttempts s;
     reconnectDelay := reconnectDelay s; isIdentifiedTimer :=
     isIdentifiedTimer s; heap := heap s; timers := timers s; nextTimer :=
     nextTimer s; nextUuid := f (nextUuid s); nextPromise := nextPromise s;
     sent := sent s; settled := settled s |}.

Definition set_nextPromise (f : nat -> nat) (s : State) : State :=
  {| config := config s; cookies := cookies s; ws := ws s; isConnected :=
     isConnected s; extensionAvailable := extensionAvailable s; isIdentified
     := isIdentified s; pendingRequests := pendingRequests s; requestQueue :=
     requestQueue s; _giveUpTimers := _giveUpTimers s; reconnectAttempts :=
     reconnectAttempts s; maxReconnectAttempts := maxReconnectAttempts s;
     reconnectDelay := reconnectDelay s; isIdentifiedTimer :=
     isIdentifiedTimer s; heap := heap s; timers := timers s; nextTimer :=
     nextTimer s; nextUuid := nextUuid s; nextPromise := f (nextPromise s);
     sent := sent s; settled := settled s |}.

Definition set_sent (f : (list Frame) -> (list Frame)) (s : State) : State :=
  {| config := config s; cookies := cookies s; ws := ws s; isConnected :=
     isConnected s; extensionAvailable := extensionAvailable s; isIdentified
     := isIdentified s; pendingRequests := pendingRequests s; requestQueue :=
     requestQueue s; _giveUpTimers := _giveUpTimers s; reconnectAttempts :=
     reconnectAttempts s; maxReconnectAttempts := maxReconnectAttempts s;
     reconnectDelay := reconnectDelay s; isIdentifiedTimer :=
     isIdentifiedTimer s; heap := heap s; timers := timers s; nextTimer :=
     nextTimer s; nextUuid := nextUuid s; nextPromise := nextPromise s; sent
     := f (sent s); settled := settled s |}.

Definition set_settled (f : (list (PromiseId * Settlement)) -> (list (PromiseId * Settlement))) (s : State) : State :=
  {| config := config s; cookies := cookies s; ws := ws s; isConnected :=
     isConnected s; extensionAvailable := extensionAvailable s; isIdentified
     := isIdentified s; pendingRequests := pendingRequests s; requestQueue :=
     requestQueue s; _giveUpTimers := _giveUpTimers s; reconnectAttempts :=
     reconnectAttempts s; maxReconnectAttempts := maxReconnectAttempts s;
     reconnectDelay := reconnectDelay s; isIdentifiedTimer :=
     isIdentifiedTimer s; heap := heap s; timers := timers s; nextTimer :=
     nextTimer s; nextUuid := nextUuid s; nextPromise := nextPromise s; sent
     := sent s; settled := f (settled s) |}.

(** *** Timers, promises, the socket *)

Definition setTimeout (body : TimerBody) (delay : Time) (s : State)
    : TimerId * State :=
  (nextTimer s,
   set_nextTimer S
     (set_timers
        (insert (nextTimer s)
           {| t_delay := delay; t_repeats := false; t_body := body |}) s)).

Definition setInterval (body : TimerBody) (delay : Time) (s : State)
    : TimerId * State :=
  (nextTimer s,
   set_nextTimer S
     (set_timers
        (insert (nextTimer s)
           {| t_delay := delay; t_repeats := true; t_body := body |}) s)).

(** [clearTimeout] and [clearInterval] *)
Definition clearTimeout (tid : TimerId) (s : State) : State :=
  set_timers (delete tid) s.

Definition resolve (promise : PromiseId) (response : Js.value) (s : State)
    : State :=
  set_settled (fun l => l ++ [(promise, Resolved response)]) s.

Definition reject (promise : PromiseId) (message : string) (s : State)
    : State :=
  set_settled (fun l => l ++ [(promise, Rejected message)]) s.

(** [this.ws.send(JSON.stringify(frame))]: the frame is handed over, or
    [send] raises. *)
Definition ws_send (f : Frame) (s : State) : State * option string :=
  match send_error (ws s) with
  | Some err => (s, Some err)
  | None => (set_sent (fun l => l ++ [f]) s, None)
  end.

(** The object behind a reference. *)
Definition object_of (s : State) (r : Ref) : Js.Object :=
  default [] (heap s !! r).

Section Methods.

(** [new URL(url).hostname]; [None] where the constructor of [URL] raises. *)
Variable hostname : string -> option string.

Definition invalid_url : string := "Invalid URL".

(** *** The cookie store *)

(** [getCookies(url)]; [None] is the exception of [new URL]. *)
Definition getCookies (url : string) (s : State) : option (list Js.value) :=
  match hostname url with
  | Some domain =>
      Some (match cookies s !! domain with
            | Some stored => Js.Array_from stored
            | None => []
            end)
  | None => None
  end.

(** [setCookies(url, cookies)] for an array [cookies]; [None] is the
    exception of [new URL]. *)
Definition setCookies (url : string) (cookies : list Js.value) (s : State)
    : option State :=
  match hostname url with
  | Some domain =>
      Some (set_cookies (insert domain (Js.spread_array cookies)) s)
  | None => None
  end.

(** *** The send path *)

Definition send_failed_message (maxRetries : nat) (err : string) : string :=
  "Failed to send request after " +:+ pretty maxRetries +:+ " retries: "
  +:+ err.

Definition max_retries_message (maxRetries : nat) : string :=
  "Request failed after " +:+ pretty maxRetries +:+ " retries".

(** The statement
    [options.cookiejar === true ? options.cookies = this.getCookies(url)
     : options.cookies ? options.cookies : null]:
    an assignment to the object that [options] refers to in the first case,
    nothing in the two others.  [None] is the exception of [getCookies]. *)
Definition injectCookies (url : string) (options : Ref) (s : State)
    : option State :=
  let o := object_of s options in
  if Js.is_true (Js.get o "cookiejar") then
    match getCookies url s with
    | Some cs =>
        Some (set_heap (insert options (Js.set o "cookies" (Js.VArr cs))) s)
    | None => None
    end
  else Some s.

(** [_sendRequest(url, options, resolve, reject, retryCount)] *)
Definition _sendRequest (url : string) (options : Ref) (promise : PromiseId)
    (retryCount : nat) (s : State) : State * Completion :=
  let requestId := nextUuid s in
  let s1 := set_nextUuid S s in
  let s2 :=
    set_pendingRequests
      (fun m => OMap.set m requestId
                  {| p_promise := promise; p_timeoutId := None |}) s1 in
  let '(timeoutId, s3) :=
    setTimeout (AttemptTimeout url options promise retryCount requestId)
      (timeout (config s2)) s2 in
  let s4 :=
    set_pendingRequests
      (fun m => OMap.alter
                  (fun p => {| p_promise := p_promise p;
                               p_timeoutId := Some timeoutId |})
                  m requestId) s3 in
  match injectCookies url options s4 with
  | None => (s4, Throw invalid_url)
  | Some s5 =>
      let message := FRequest url (object_of s5 options) requestId in
      match ws_send message s5 with
      | (s6, None) => (s6, Normal)
      | (s6, Some err) =>
          let s7 := clearTimeout timeoutId s6 in
          if retryCount <? maxRetries (config s7) then
            ((setTimeout (SendRetry url options promise retryCount) 1000%N
                s7).2,
             Normal)
          else
            (reject promise
               (send_failed_message (maxRetries (config s7)) err) s7,
             Normal)
      end
  end.

(** The per-attempt timeout armed by [_sendRequest], when it fires. *)
Definition attemptTimeoutFired (url : string) (options : Ref)
    (promise : PromiseId) (retryCount : nat) (requestId : ReqId) (s : State)
    : State * Completion :=
  let s1 :=
    if OMap.has (pendingRequests s) requestId
    then set_pendingRequests (fun m => OMap.delete m requestId) s
    else s in
  if retryCount <? maxRetries (config s1) then
    _sendRequest url options promise (retryCount + 1) s1
  else
    (reject promise (max_retries_message (maxRetries (config s1))) s1, Normal).

(** *** Identification *)

(** [sendClientIdentification()]; it has no parameter, arguments passed to
    it are ignored. *)
Definition sendClientIdentification (s : State) : State :=
  match ws_send FIdentify s with
  | (s1, None) => s1
  | (s1, Some _) =>
      let s2 :=
        match isIdentifiedTimer s1 with
        | Some t => clearTimeout t s1
        | None => s1
        end in
      let '(t, s3) := setInterval IdentifyResend 1000%N s2 in
      set_isIdentifiedTimer (fun _ => Some t) s3
  end.

Definition identification_failed : string := "Failed to identify with server".

(** The function [(resolve, reject, counter = 0) => ...] that [fetch] gives
    to [setInterval].  An argument that is not passed is [None]: the
    parameters [resolve] and [reject] hide the continuations of the promise
    of [fetch], and [counter] takes its default. *)
Definition identifyCallback (resolve reject : option PromiseId)
    (counter : option nat) (s : State) : State * Completion :=
  let counter := default 0 counter in
  if 3 <=? counter then
    match reject with
    | Some promise => (Xfetch.reject promise identification_failed s, Normal)
    | None => (s, Throw "reject is not a function")
    end
  else (sendClientIdentification s, Normal).

(** A tick of that interval: [setInterval(f, delay)] calls [f()]. *)
Definition identifyIntervalFired (s : State) : State * Completion :=
  identifyCallback None None None s.

(** *** Connection *)

(** [reconnect()].  The line comment [//ignore}] takes the closing brace of
    the [catch] block with it: the new socket is made inside [catch], that
    is only when [close] raises. *)
Definition reconnect (s : State) : State :=
  if close_raises (ws s) then
    set_ws (fun _ =>
              {| readyState := CONNECTING;
                 send_error := Some "WebSocket is not open";
                 close_raises := false |}) s
  else
    set_ws (fun w =>
              {| readyState :=
                   match readyState w with CLOSED => CLOSED | _ => CLOSING end;
                 send_error := send_error w;
                 close_raises := close_raises w |}) s.

(** [queue.forEach(... => this._sendRequest(...))]: an exception ends the
    loop. *)
Fixpoint sendAll (queue : list QueueEntry) (s : State) : State * Completion :=
  match queue with
  | [] => (s, Normal)
  | e :: rest =>
      match _sendRequest (q_url e) (q_options e) (q_promise e)
              (q_retryCount e) s with
      | (s1, Normal) => sendAll rest s1
      | (s1, Throw err) => (s1, Throw err)
      end
  end.

Definition clearAll (ts : list TimerId) (s : State) : State :=
  foldl (fun a t => clearTimeout t a) s ts.

(** [processQueue()] *)
Definition processQueue (s : State) : State * Completion :=
  if length (requestQueue s) =? 0 then (s, Normal)
  else
    let canProcess :=
      (0 <? length (requestQueue s)) && isConnected s
      && bool_decide (readyState (ws s) = OPEN) && extensionAvailable s in
    if canProcess then
      let queue := requestQueue s in
      let s1 := set_requestQueue (fun _ => []) s in
      let s2 :=
        if 0 <? length (_giveUpTimers s1)
        then set_giveUpTimers (fun _ => []) (clearAll (_giveUpTimers s1) s1)
        else s1 in
      sendAll queue s2
    else (s, Normal).

(** [ws.onopen] *)
Definition onopen (s : State) : State * Completion :=
  let s1 := set_isConnected (fun _ => true) s in
  let s2 := set_reconnectAttempts (fun _ => 0) s1 in
  let s3 := set_giveUpTimers (fun _ => []) (clearAll (_giveUpTimers s2) s2) in
  processQueue (sendClientIdentification s3).

Definition connection_closed : string := "WebSocket connection closed".

(** [this.reconnectDelay * Math.min(this.reconnectAttempts, 5)] *)
Definition reconnectBackoff (reconnectDelay : Time) (reconnectAttempts : nat)
    : Time :=
  (reconnectDelay * N.min (N.of_nat reconnectAttempts) 5)%N.

(** One iteration of the loop of [ws.onclose] over the pending calls. *)
Definition rejectPending (s : State) (e : ReqId * Pending) : State :=
  let s1 :=
    match p_timeoutId e.2 with
    | Some t => clearTimeout t s
    | None => s
    end in
  set_pendingRequests (fun m => OMap.delete m e.1)
    (reject (p_promise e.2) connection_closed s1).

(** [ws.onclose] *)
Definition onclose (s : State) : State :=
  let s1 := set_extensionAvailable (fun _ => false)
              (set_isConnected (fun _ => false) s) in
  let s2 := foldl rejectPending s1 (pendingRequests s1) in
  if reconnectAttempts s2 <? maxReconnectAttempts s2 then
    let s3 := set_reconnectAttempts S s2 in
    let delay := reconnectBackoff (reconnectDelay s3) (reconnectAttempts s3) in
    (setTimeout Reconnect delay s3).2
  else s2.

(** *** [fetch] *)

(** [requestQueue.findIndex(req => req.url === url && req.resolve ===
    resolve && req.reject === reject)] *)
Fixpoint findIndex (url : string) (promise : PromiseId)
    (queue : list QueueEntry) : option nat :=
  match queue with
  | [] => None
  | req :: rest =>
      if bool_decide (q_url req = url) && bool_decide (q_promise req = promise)
      then Some 0
      else S <$> findIndex url promise rest
  end.

Definition give_up_message (s : State) : string :=
  if isConnected s && negb (extensionAvailable s) then
    "No extension client available after " +:+ pretty (timeout (config s))
    +:+ "ms"
  else if negb (isConnected s) then
    "Failed to establish WebSocket connection within "
    +:+ pretty (timeout (config s)) +:+ "ms"
  else "Request timeout after " +:+ pretty (timeout (config s)) +:+ "ms".

(** The give-up timer armed by [fetch], when it fires. *)
Definition giveUpFired (url : string) (promise : PromiseId) (s : State)
    : State :=
  match findIndex url promise (requestQueue s) with
  | Some index =>
      let s1 := set_requestQueue (fun q => delete index q) s in
      reject promise (give_up_message s1) s1
  | None => s
  end.

(** The condition under which [fetch] sends at once. *)
Definition canSend (s : State) : bool :=
  isConnected s && bool_decide (readyState (ws s) = OPEN)
  && extensionAvailable s && isIdentified s.

(** [fetch(url, options)]: the promise it returns, and the state after the
    body of the promise has run.  An exception raised in that body rejects
    the promise.  The default [{}] of [options] is an object made by the
    caller here. *)
Definition fetch (url : string) (options : Ref) (s : State)
    : PromiseId * State :=
  let promise := nextPromise s in
  let s0 := set_nextPromise S s in
  (promise,
   if canSend s0 then
     match _sendRequest url options promise 0 s0 with
     | (s1, Normal) => s1
     | (s1, Throw err) => reject promise err s1
     end
   else
     let s1 :=
       set_requestQueue
         (fun q => q ++ [{| q_url := url; q_options := options;
                            q_promise := promise; q_retryCount := 0 |}]) s0 in
     let s2 :=
       if negb (isConnected s1)
          && negb (bool_decide (readyState (ws s1) = CONNECTING))
       then reconnect s1 else s1 in
     let s3 :=
       if negb (isIdentified s2) then
         let '(t, s') := setInterval IdentifyInterval (timeout (config s2)) s2 in
         set_isIdentifiedTimer (fun _ => Some t) s'
       else s2 in
     let '(giveUpTimer, s4) :=
       setTimeout (GiveUp url promise) (timeout (config s3)) s3 in
     set_giveUpTimers (fun l => l ++ [giveUpTimer]) s4).

(** [sendHeartbeat()] *)
Definition sendHeartbeat (s : State) : State :=
  if isConnected s && bool_decide (readyState (ws s) = OPEN)
  then (ws_send FPing s).1 else s.

(** A timer fires: a timeout leaves the table, an interval stays; the
    closure runs. *)
Definition fireTimer (tid : TimerId) (s : State) : State * Completion :=
  match timers s !! tid with
  | Some t =>
      let s1 := if t_repeats t then s else clearTimeout tid s in
      match t_body t with
      | AttemptTimeout url options promise retryCount requestId =>
          attemptTimeoutFired url options promise retryCount requestId s1
      | SendRetry url options promise retryCount =>
          _sendRequest url options promise (retryCount + 1) s1
      | GiveUp url promise => (giveUpFired url promise s1, Normal)
      | Reconnect => (reconnect s1, Normal)
      | IdentifyInterval => identifyIntervalFired s1
      | IdentifyResend => (sendClientIdentification s1, Normal)
      | Heartbeat => (sendHeartbeat s1, Normal)
      | QueueCheck => processQueue s1
      end
  | None => (s, Normal)
  end.

(** Fire, one after the other, the timers of a list. *)
Fixpoint fireTimers (tids : list TimerId) (s : State) : State * Completion :=
  match tids with
  | [] => (s, Normal)
  | tid :: rest =>
      match fireTimer tid s with
      | (s1, Normal) => fireTimers rest s1
      | (s1, Throw err) => (s1, Throw err)
      end
  end.

(** The timer armed last fires, [n] times in a row: no response arrives in
    between. *)
Fixpoint timeOut (n : nat) (s : State) : State * Completion :=
  match n with
  | 0 => (s, Normal)
  | S k =>
      match fireTimer (nextTimer s - 1) s with
      | (s1, Normal) => timeOut k s1
      | (s1, Throw err) => (s1, Throw err)
      end
  end.

(** Attempt number [retryCount] of a call is under way: its timeout is the
    timer armed last, and its identifier the one allocated last. *)
Definition attempt_armed (url : string) (options : Ref) (promise : PromiseId)
    (retryCount : nat) (s : State) : Prop :=
  0 < nextTimer s /\ 0 < nextUuid s /\
  timers s !! (nextTimer s - 1)
  = Some {| t_delay := timeout (config s); t_repeats := false;
            t_body := AttemptTimeout url options promise retryCount
                        (nextUuid s - 1) |}.

(** The send path does not raise in [s]: the socket accepts the frame, and
    the URL has a hostname if the cookies are to be read. *)
Definition sends_normally (url : string) (options : Ref) (s : State) : Prop :=
  send_error (ws s) = None /\
  (Js.is_true (Js.get (object_of s options) "cookiejar") = true ->
   is_Some (hostname url)).

End Methods.

(** [new Xfetch(wsUrl, options)], before the socket opens: the two
    intervals of the constructor are armed. *)
Definition new_Xfetch (options : Options) : State :=
  let config := mkConfig options in
  {| config := config; cookies := ∅;
     ws := {| readyState := CONNECTING;
              send_error := Some "WebSocket is not open";
              close_raises := false |};
     isConnected := false; extensionAvailable := false;
     isIdentified := false; pendingRequests := []; requestQueue := [];
     _giveUpTimers := []; reconnectAttempts := 0;
     maxReconnectAttempts := maxRetries config;
     reconnectDelay := timeout config; isIdentifiedTimer := None;
     heap := ∅;
     timers :=
       <[1 := {| t_delay := queueCheckInterval config; t_repeats := true;
                 t_body := QueueCheck |}]>
         (<[0 := {| t_delay := heartbeatInterval config; t_repeats := true;
                    t_body := Heartbeat |}]> ∅);
     nextTimer := 2; nextUuid := 0; nextPromise := 0; sent := [];
     settled := [] |}.

(** The first settlement of a promise is its outcome: later calls of its
    continuations have no effect. *)
Definition outcome (promise : PromiseId) (s : State) : option Settlement :=
  snd <$> head (filter (fun e : PromiseId * Settlement => e.1 = promise)
                  (settled s)).

(** The identifiers of the requests of a list of frames. *)
Definition request_ids (fs : list Frame) : list ReqId :=
  omap (fun f => match f with FRequest _ _ id => Some id | _ => None end) fs.

End Xfetch.

(** ** Concrete broker states used below *)

Module BrokerScenario.
Import Broker.

Definition noStats : Stats :=
  {| requestsProcessed := 0; requestsSucceeded := 0; requestsFailed := 0;
     totalConnections := 0; activeConnections := 0; disconnections := 0;
     reconnections := 0; hb_sent := 0; hb_received := 0; hb_missed := 0 |}.

(** The broker after start-up. *)
Definition initial : State :=
  {| sockets := ∅; clients_extension := []; clients_xfetch := [];
     pendingRequests := ∅; pendingRequestsQueue := ∅; timers := ∅;
     nextTimer := 0; stats := noStats |}.

(** The request of the scenario of the specification. *)
Definition r1 : Message :=
  {| m_id := "r1"; m_url := Js.VStr "https://a.test";
     m_options := Js.VObj []; m_response := Js.VUndefined;
     m_error := Js.VUndefined |}.

(** An executor's answer to it. *)
Definition r1_response : Message :=
  {| m_id := "r1"; m_url := Js.VUndefined; m_options := Js.VUndefined;
     m_response := Js.VObj [("status", Js.VNum 200)];
     m_error := Js.VUndefined |}.

(** A requester is connection 1, an executor is connection 2. *)
Definition requesterConnected : State :=
  (run [(0%N, Connection 1); (10%N, Received 1 1 (IIdentify xfetch))]
     initial).1.

Definition bothConnected : State :=
  (run [(15%N, Connection 2); (20%N, Received 2 2 (IIdentify extension))]
     requesterConnected).1.

(** The entry of the executor with another health. *)
Definition withHealth (h : Health) (d : ClientData) : ClientData :=
  {| client := client d; cd_id := cd_id d; connectedAt := connectedAt d;
     lastActivity := lastActivity d; lastPingSent := lastPingSent d;
     lastPongReceived := lastPongReceived d; awaitingPong := awaitingPong d;
     missedHeartbeats := missedHeartbeats d; healthStatus := h;
     pongTimeoutId := pongTimeoutId d;
     cd_requestsProcessed := cd_requestsProcessed d;
     cd_requestsSucceeded := cd_requestsSucceeded d;
     cd_requestsFailed := cd_requestsFailed d |}.

Definition criticalExecutor : State :=
  set_extension (fun m => OMap.alter (withHealth critical) m 2) bothConnected.

(** The requester submits [r1] while no executor is connected, and its
    connection closes before the retries are over. *)
Definition requesterLeaves : list (Time * Event) :=
  [(30%N, Received 1 1 (IOther r1)); (1000%N, Close 1 1);
   (2030%N, TimerFired 0); (4030%N, TimerFired 1); (6030%N, TimerFired 2)].

(** One executor, connection 2, and no requester. *)
Definition executorConnected : State :=
  (run [(0%N, Connection 2); (0%N, Received 2 2 (IIdentify extension))]
     initial).1.

(** The executor answers no ping: pings leave every 3 seconds, each pong
    timeout fires 5 seconds after its ping.  Timer [n] is the pong timeout
    of the ping number [n]. *)
Definition silentExecutor : list (Time * Event) :=
  [(3000%N, HeartbeatTick); (6000%N, HeartbeatTick); (8000%N, TimerFired 0);
   (9000%N, HeartbeatTick); (11000%N, TimerFired 1); (12000%N, HeartbeatTick);
   (14000%N, TimerFired 2)].

(** Then one pong arrives, before the next tick of the heartbeat interval,
    and the executor is silent again. *)
Definition latePongThenSilence : list (Time * Event) :=
  [(14500%N, Received 2 2 IPong); (15000%N, HeartbeatTick); (18000%N, HeartbeatTick);
   (20000%N, TimerFired 4)].

(** [r1] has been submitted by the requester and sent to the executor. *)
Definition inFlight : State :=
  (run [(30%N, Received 1 1 (IOther r1))] bothConnected).1.

(** While [r1] waits in the queue, an executor connects, answers [r1]
    although [r1] was never sent to it, and leaves; the retries go on. *)
Definition unaskedResponse : list (Time * Event) :=
  [(30%N, Received 1 1 (IOther r1)); (100%N, Connection 2);
   (110%N, Received 2 2 (IIdentify extension));
   (120%N, Received 2 2 (IOther r1_response)); (130%N, Close 2 2);
   (2030%N, TimerFired 0); (4030%N, TimerFired 1); (6030%N, TimerFired 2)].

(** The executor sends its answer to [r1] twice. *)
Definition answeredTwice : list (Time * Event) :=
  [(40%N, Received 2 2 (IOther r1_response));
   (50%N, Received 2 2 (IOther r1_response))].

(** [r1] is submitted while no executor is connected and waits in the
    queue; an executor connects; the first retry sends [r1] to it; the
    executor answers, twice. *)
Definition queuedThenAnswered : list (Time * Event) :=
  [(30%N, Received 1 1 (IOther r1)); (100%N, Connection 2);
   (110%N, Received 2 2 (IIdentify extension)); (2030%N, TimerFired 0);
   (2100%N, Received 2 2 (IOther r1_response));
   (2200%N, Received 2 2 (IOther r1_response))].

(** The requester submits the id [r1] a second time, after the answer to
    the first submission. *)
Definition resubmitted : list (Time * Event) :=
  [(30%N, Received 1 1 (IOther r1));
   (40%N, Received 2 2 (IOther r1_response));
   (50%N, Received 1 1 (IOther r1));
   (60%N, Received 2 2 (IOther r1_response))].

(** Connection 1 identifies as an executor and then as a requester: its
    entry stays in the registry of executors.  It submits [r1], which the
    broker sends to it; another executor answers. *)
Definition ownExecutor : list (Time * Event) :=
  [(0%N, Connection 1); (5%N, Received 1 1 (IIdentify extension));
   (10%N, Received 1 1 (IIdentify xfetch)); (30%N, Received 1 1 (IOther r1));
   (40%N, Connection 2); (45%N, Received 2 2 (IIdentify extension));
   (50%N, Received 2 2 (IOther r1_response))].

End BrokerScenario.

(** ** Concrete client states used below *)

Module XfetchScenario.
Import Xfetch.

(** [new URL(url).hostname] on the URLs of the examples. *)
Definition hostname (url : string) : option string :=
  if decide (url = "https://a.test/") then Some "a.test"
  else if decide (url = "https://a.test/login") then Some "a.test"
  else if decide (url = "https://b.test/") then Some "b.test"
  else None.

Definition defaults : Options :=
  {| o_timeout := None; o_maxRetries := None; o_heartbeatInterval := None;
     o_queueCheckInterval := None |}.

Definition openSocket : WebSocket :=
  {| readyState := OPEN; send_error := None; close_raises := false |}.

(** The socket of a new client has opened: the client has sent its
    identification, and the broker has not answered yet. *)
Definition connected : State :=
  (onopen hostname (set_ws (fun _ => openSocket) (new_Xfetch defaults))).1.

Definition jar : Js.Object :=
  [("method", Js.VStr "GET"); ("cookiejar", Js.VBool true)].

Definition plain : Js.Object := [("method", Js.VStr "GET")].

(** The broker has confirmed the identification and announced an executor;
    the caller holds two [options] objects, at the references 0 and 1. *)
Definition ready : State :=
  set_heap (fun _ => <[0 := jar]> (<[1 := plain]> ∅))
    (set_isIdentified (fun _ => true)
       (set_extensionAvailable (fun _ => true) connected)).

Definition sid : Js.value :=
  Js.VObj [("name", Js.VStr "sid"); ("value", Js.VStr "1")].

(** The caller calls [fetch] before the broker has confirmed the
    identification; then the interval armed by [fetch] (timer 2) ticks, the
    give-up timer (timer 3) fires, and the interval ticks three more
    times. *)
Definition unconfirmed : State :=
  (fetch hostname "https://a.test/" 1
     (set_heap (fun _ => <[1 := plain]> ∅) connected)).2.

Definition identificationTicks : list nat := [2; 3; 2; 2; 2].

(** The client is ready, and its store holds, for [a.test], an array-like
    object with one cookie. *)
Definition stocked : State :=
  set_cookies
    (fun _ => {[ "a.test" := [("0", sid); ("length", Js.VNum 1)] ]}) ready.

(** The caller holds an [options] object with [cookiejar: true] while the
    broker has not confirmed the identification yet. *)
Definition unconfirmedJar : State :=
  set_heap (fun _ => <[0 := jar]> ∅) connected.

End XfetchScenario.

(** ** The rest of the broker *)

Module BrokerMore.
Import Broker.

(** [CLEANUP_INTERVAL]: two minutes. *)
Definition CLEANUP_INTERVAL : Time := 120000%N.

(** The loop over [pendingRequests] in the cleanup [setInterval]; the
    report it prints afterwards changes nothing. *)
Definition cleanupTick (now : Time) (s : State) : State :=
  set_pending
    (filter (fun kv : ReqId * PendingRequest =>
               ~ (CLEANUP_INTERVAL < now - pr_timestamp kv.2)%N)) s.

(** The keys of a [Map] are pairwise distinct. *)
Definition unique_keys (m : list (ClientId * ClientData)) : Prop :=
  NoDup m.*1.

(** The test of [checkClientHealth], negated. *)
Definition below_ceiling (e : ClientId * ClientData) : Prop :=
  missedHeartbeats e.2 < HEARTBEAT_maxMissed.

#[global] Instance below_ceiling_dec e : Decision (below_ceiling e).
Proof. unfold below_ceiling. apply _. Defined.

(** The other partition of the registry. *)
Definition other (role : Role) : Role :=
  match role with
  | xfetch => extension
  | extension => xfetch
  end.


(** The three request counters of the statistics fit together. *)
Definition stats_ok (st : Stats) : Prop :=
  requestsSucceeded st <= requestsProcessed st /\
  requestsProcessed st <= requestsSucceeded st + requestsFailed st.

(** What [sendHeartbeats] has done to the entry [e] of a partition, [e']
    being the entry after it and [s'] the state. *)
Definition pinged (role : Role) (now : Time) (s s' : State)
    (e e' : ClientId * ClientData) : Prop :=
  e'.1 = e.1 /\
  if isOpen s (client e.2)
  then exists t,
         e'.2 = cd_ping now t e.2 /\
         timers s' !! t = Some (HEARTBEAT_timeout, PongTimeout role e.1)
  else e'.2 = e.2.

(** The ping frames for the open clients among [entries]. *)
Definition pings (now : Time) (s : State)
    (entries : list (ClientId * ClientData)) : list Out :=
  (fun e : ClientId * ClientData => (client e.2, FPing now))
    <$> filter (fun e : ClientId * ClientData =>
                  isOpen s (client e.2) = true) entries.

(** The announcements of [notifyXfetchClients(available)]: one frame for
    each requester of the registry whose socket is open. *)
Definition announcements (now : Time) (available : bool) (s : State)
    : list Out :=
  (fun e : ClientId * ClientData =>
     (client e.2, FExtension available (Some now)))
    <$> filter (fun e : ClientId * ClientData =>
                  isOpen s (client e.2) = true) (clients_xfetch s).

(** The closure of the retry timer of a queue item, at retry [count]. *)
Definition retry_of (item : QueueItem) (count : nat) : Time * TimerBody :=
  (2000%N,
   RetryValidate (q_originalMessage item) (q_client item) (q_clientId item)
     count).

Definition is_pong_timeout (x : Time * TimerBody) : Prop :=
  match x.2 with
  | PongTimeout _ _ => True
  | RetryValidate _ _ _ _ => False
  end.

(** The handle that an entry of the registry holds was handed out before,
    and it is no handle of a retry timer. *)
Definition pong_ok (tm : gmap TimerId (Time * TimerBody)) (nt : TimerId)
    (e : ClientId * ClientData) : Prop :=
  forall t,
    pongTimeoutId e.2 = Some t ->
    t < nt /\ forall x, tm !! t = Some x -> is_pong_timeout x.

(** The timers in use have handles handed out before; every item of the
    queue is filed under the identifier of its request and holds the handle
    of an armed timer that retries this request; and the registry is
    [pong_ok]. *)
Definition armed (tm : gmap TimerId (Time * TimerBody)) (nt : TimerId)
    (q : gmap ReqId QueueItem) (ce cx : list (ClientId * ClientData))
    : Prop :=
  (forall t x, tm !! t = Some x -> t < nt) /\
  (forall id item,
     q !! id = Some item ->
     m_id (q_originalMessage item) = id /\
     exists count, tm !! q_timeoutId item = Some (retry_of item count)) /\
  Forall (pong_ok tm nt) ce /\ Forall (pong_ok tm nt) cx.

Definition queue_inv (s : State) : Prop :=
  armed (timers s) (nextTimer s) (pendingRequestsQueue s)
    (clients_extension s) (clients_xfetch s).

End BrokerMore.

Module BrokerMoreScenario.
Import Broker BrokerScenario.

(** While [r1] is in flight, neither the requester nor the executor
    answers the pings of three rounds.  A round arms one pong timeout for the
    executor and one for the requester, in this order. *)
Definition threeSilentRounds : list (Time * Event) :=
  [(3000%N, HeartbeatTick); (8000%N, TimerFired 0); (8000%N, TimerFired 1);
   (9000%N, HeartbeatTick); (14000%N, TimerFired 2); (14000%N, TimerFired 3);
   (15000%N, HeartbeatTick); (20000%N, TimerFired 4);
   (20000%N, TimerFired 5)].

Definition unresponsive : State := (run threeSilentRounds inFlight).1.

(** The entry of [r1] in the in-flight table. *)
Definition r1_pending : PendingRequest :=
  {| pr_client := 1; pr_timestamp := 30%N; pr_id := "r1";
     pr_url := m_url r1; pr_options := m_options r1; pr_clientId := 1 |}.

(** A second peer has connected and not identified itself yet. *)
Definition executorArrives : State :=
  (run [(15%N, Connection 2)] requesterConnected).1.

(** The socket of the only executor is closing, and its close handler has
    not run yet. *)
Definition executorClosing : State := terminate 2 bothConnected.

(** The queue item of [r1] when the requester submits it at time 30 while
    no executor is connected. *)
Definition r1_queued : QueueItem :=
  {| q_client := 1; q_timestamp := 30%N; q_id := "r1"; q_url := m_url r1;
     q_clientId := 1; q_originalMessage := r1; q_timeoutId := 0 |}.

(** A second executor is connection 3, and a second requester has connected
    as connection 4. *)
Definition twoExecutors : State :=
  (run [(40%N, Connection 3); (45%N, Received 3 3 (IIdentify extension));
        (50%N, Connection 4)] bothConnected).1.


End BrokerMoreScenario.

(** ** The rest of the client *)

Module XfetchMore.
Import Xfetch.

(** The data of a [message] event after [JSON.parse], by the test of
    [ws.onmessage] that it meets first.  In a data frame [id] is [None] when
    the frame has none, or one that [uuidv4] does not return, and [error] is
    a string or missing, as the broker and the executors write it.  [IMalformed] is a
    text that [JSON.parse] refuses, and [null]. *)
Inductive Inbound :=
| IPing
| IExtensionAvailable
| IExtensionUnavailable
| IIdentified
| IData (id : option ReqId) (response : Js.value) (error : option string)
| IMalformed.

(** [v.k] for a key [k] that no prototype defines; [None] is the TypeError
    of a property read on [undefined] or [null]. *)
Definition read (v : Js.value) (k : string) : option Js.value :=
  match v with
  | Js.VUndefined | Js.VNull => None
  | Js.VObj o => Some (Js.get o k)
  | _ => Some Js.VUndefined
  end.

(** [cookies.map((cookie) => ({name: cookie.name, value: cookie.value}))] *)
Fixpoint mapCookies (cookies : list Js.value) : option (list Js.value) :=
  match cookies with
  | [] => Some []
  | cookie :: rest =>
      match read cookie "name", read cookie "value" with
      | Some name, Some value =>
          (fun l => Js.VObj [("name", name); ("value", value)] :: l)
            <$> mapCookies rest
      | _, _ => None
      end
  end.

(** What the handler keeps of a cookie. *)
Definition name_and_value (cookie : Js.Object) : Js.value :=
  Js.VObj [("name", Js.get cookie "name"); ("value", Js.get cookie "value")].

(** [error ? ... : ...] on a string or [undefined]. *)
Definition is_error (error : option string) : option string :=
  match error with
  | Some e => if bool_decide (e = "") then None else Some e
  | None => None
  end.

(** The pending calls are the properties of one object: each identifier is
    there once, and it was handed out by [uuidv4] before. *)
Definition pending_ok (s : State) : Prop :=
  NoDup (pendingRequests s).*1 /\
  forall id, id ∈ (pendingRequests s).*1 -> id < nextUuid s.

(** The handles of the timers in use were handed out before. *)
Definition timers_ok (s : State) : Prop :=
  forall t x, timers s !! t = Some x -> t < nextTimer s.

(** The calls in the queue had their promises made before. *)
Definition queue_ok (s : State) : Prop :=
  Forall (fun e => q_promise e < nextPromise s) (requestQueue s).

(** The timeouts of the attempts under way. *)
Definition attempt_timers (m : list (ReqId * Pending)) : list TimerId :=
  omap (fun e : ReqId * Pending => p_timeoutId e.2) m.

(** The attempt [id] of the queued call [e] is under way: the call is
    pending under [id], with the timeout of this attempt armed. *)
Definition under_way (s : State) (e : QueueEntry) (id : ReqId) : Prop :=
  exists t,
    OMap.get (pendingRequests s) id
    = Some {| p_promise := q_promise e; p_timeoutId := Some t |} /\
    timers s !! t
    = Some {| t_delay := timeout (config s); t_repeats := false;
              t_body := AttemptTimeout (q_url e) (q_options e) (q_promise e)
                          (q_retryCount e) id |}.

Section Inbound.

(** [new URL(x).hostname] for any argument [x]; [None] where the
    constructor of [URL] raises. *)
Variable URL_hostname : Js.value -> option string.

Definition hostname (url : string) : option string :=
  URL_hostname (Js.VStr url).

(** [sendPong()] *)
Definition sendPong (s : State) : State :=
  if isConnected s && bool_decide (readyState (ws s) = OPEN)
  then (ws_send FPong s).1 else s.

(** The statement
    [response.cookies && this.setCookies(response.url,
       [...response.cookies.map(...)])];
    [None] is an exception: of the property read on a missing [response],
    of [map] on a value that is no array or on a cookie that is [null], of
    [new URL]. *)
Definition storeCookies (response : Js.value) (s : State) : option State :=
  match read response "cookies" with
  | Some c =>
      if Js.truthy c then
        match read response "url", c with
        | Some url, Js.VArr cs =>
            match mapCookies cs with
            | Some mapped =>
                match URL_hostname url with
                | Some domain =>
                    Some (set_cookies
                            (insert domain (Js.spread_array mapped)) s)
                | None => None
                end
            | None => None
            end
        | _, _ => None
        end
      else Some s
  | None => None
  end.

(** The end of [ws.onmessage], for a frame with the [id] of a pending call;
    the [catch] of the handler ends it at an exception. *)
Definition onResponse (id : ReqId) (response : Js.value)
    (error : option string) (s : State) : State :=
  match OMap.get (pendingRequests s) id with
  | Some p =>
      let s1 :=
        match p_timeoutId p with
        | Some t => clearTimeout t s
        | None => s
        end in
      let s2 :=
        match is_error error with
        | Some e => reject (p_promise p) e s1
        | None => resolve (p_promise p) response s1
        end in
      match storeCookies response s2 with
      | Some s3 => set_pendingRequests (fun m => OMap.delete m id) s3
      | None => s2
      end
  | None => s
  end.

(** [ws.onmessage]; an exception raised under it is caught and logged. *)
Definition onmessage (frame : Inbound) (s : State) : State :=
  match frame with
  | IPing => sendPong s
  | IExtensionAvailable =>
      (processQueue hostname (set_extensionAvailable (fun _ => true) s)).1
  | IExtensionUnavailable => set_extensionAvailable (fun _ => false) s
  | IIdentified =>
      let s1 := set_isIdentified (fun _ => true) s in
      match isIdentifiedTimer s1 with
      | Some t => clearTimeout t s1
      | None => s1
      end
  | IData (Some id) response error => onResponse id response error s
  | IData None _ _ => s
  | IMalformed => s
  end.

(** The request frames of a list, by URL and identifier. *)
Definition requests (fs : list Frame) : list (string * ReqId) :=
  omap (fun f => match f with
                 | FRequest url _ id => Some (url, id)
                 | _ => None
                 end) fs.

End Inbound.

End XfetchMore.

Module XfetchMoreScenario.
Import Xfetch XfetchMore.

(** [new URL(x).hostname] on the values of the examples. *)
Definition URL_hostname (x : Js.value) : option string :=
  match x with
  | Js.VStr url => XfetchScenario.hostname url
  | _ => None
  end.

(** The caller has called [fetch] once on the ready client: the request 0
    is on its way, under the timeout 2. *)
Definition requested : State :=
  (fetch (hostname URL_hostname) "https://a.test/" 1 XfetchScenario.ready).2.

Definition ok_response : Js.value :=
  Js.VObj [("status", Js.VNum 200); ("body", Js.VStr "hello")].

(** The caller has called [fetch] twice on a client whose socket is open
    and identified, while no executor is available. *)
Definition waiting : State :=
  set_extensionAvailable (fun _ => false) XfetchScenario.ready.

Definition queuedTwice : State :=
  (fetch (hostname URL_hostname) "https://b.test/" 1
     (fetch (hostname URL_hostname) "https://a.test/" 1 waiting).2).2.

(** Then the broker announces an executor. *)
Definition announced : State :=
  set_extensionAvailable (fun _ => true) queuedTwice.

(** The pending entry and the timeout of the request 0. *)
Definition request0 : Pending := {| p_promise := 0; p_timeoutId := Some 2 |}.

Definition timeout0 : Timer :=
  {| t_delay := 5000%N; t_repeats := false;
     t_body := AttemptTimeout "https://a.test/" 1 0 0 0 |}.

(** The socket of the client has closed while the request 0 was on its
    way; [close] does not raise on it. *)
Definition dropped : State :=
  set_ws (fun _ => {| readyState := CLOSED;
                      send_error := Some "WebSocket is not open";
                      close_raises := false |}) requested.

Definition with_cookies : Js.Object :=
  [("status", Js.VNum 200); ("url", Js.VStr "https://a.test/login");
   ("cookies",
    Js.VArr [Js.VObj [("name", Js.VStr "sid"); ("value", Js.VStr "1");
                      ("domain", Js.VStr "a.test")]])].

End XfetchMoreScenario.

(** ** The connection of the extension page *)

Module Worker.

Abbreviation SockId := nat.
Abbreviation TimerId := nat.
Abbreviation ReqId := string.
(** Milliseconds. *)
Abbreviation Time := N.

Inductive ReadyState := CONNECTING | OPEN | CLOSING | CLOSED.

#[global] Instance PageReadyState_eq_dec : EqDecision ReadyState.
Proof. solve_decision. Defined.

(** [connectionStatus] *)
Inductive Status := disconnected | connected | degraded | failed.

#[global] Instance Status_eq_dec : EqDecision Status.
Proof. solve_decision. Defined.

(** [HEARTBEAT_CONFIG] *)
Definition maxMissedHeartbeats : nat := 3.
Definition reconnectDelay : Time := 5000%N.
Definition maxReconnectAttempts : nat := 10.
Definition exponentialBackoff : bool := true.

(** [connectionMetrics], without [uptime], which is never written. *)
Record Metrics := {
  connectionsTotal : nat;
  reconnections : nat;
  disconnections : nat;
  lastConnectedAt : option Time;
  latency : Z;
  requestsProcessed : nat
}.

(** What is passed to [ws.send], before [JSON.stringify]. *)
Inductive Frame :=
| FPong (clientId : nat) (timestamp : option Time) (responseTimestamp : Time)
    (requestsProcessed : nat) (uptime : Z)
| FIdentify (clientId : nat)
| FResponse (id : ReqId) (response error : Js.value)
| FFailed (id : ReqId) (error : string).

(** What is passed to [chrome.runtime.sendMessage]. *)
Inductive Runtime :=
| RStatus (status : Status) (isConnected : bool)
| RFetchRequest (id : ReqId) (url options : Js.value).

Inductive Out :=
| ToSocket (k : SockId) (f : Frame)
| ToRuntime (m : Runtime).

(** The variables of the script, followed by the sockets it has made, the
    armed timers with their delays (every timer of the script is a
    reconnection timer), the supplies of sockets and of timer handles, and
    what the script has sent, oldest first. *)
Record State := {
  ws : option SockId;
  isConnected : bool;
  reconnectAttempts : nat;
  reconnectTimer : option TimerId;
  lastPingReceived : option Time;
  missedHeartbeats : nat;
  connectionStatus : Status;
  clientId : nat;
  connectionMetrics : Metrics;
  sockets : gmap SockId ReadyState;
  nextSock : SockId;
  timers : gmap TimerId Time;
  nextTimer : TimerId;
  out : list Out
}.

(** *** Field updates *)

Definition set_ws (f : option SockId -> option SockId) (s : State) : State :=
  {| ws := f (ws s); isConnected := isConnected s;
     reconnectAttempts := reconnectAttempts s;
     reconnectTimer := reconnectTimer s;
     lastPingReceived := lastPingReceived s;
     missedHeartbeats := missedHeartbeats s;
     connectionStatus := connectionStatus s; clientId := clientId s;
     connectionMetrics := connectionMetrics s; sockets := sockets s;
     nextSock := nextSock s; timers := timers s; nextTimer := nextTimer s;
     out := out s |}.

Definition set_isConnected (f : bool -> bool) (s : State) : State :=
  {| ws := ws s; isConnected := f (isConnected s);
     reconnectAttempts := reconnectAttempts s;
     reconnectTimer := reconnectTimer s;
     lastPingReceived := lastPingReceived s;
     missedHeartbeats := missedHeartbeats s;
     connectionStatus := connectionStatus s; clientId := clientId s;
     connectionMetrics := connectionMetrics s; sockets := sockets s;
     nextSock := nextSock s; timers := timers s; nextTimer := nextTimer s;
     out := out s |}.

Definition set_reconnectAttempts (f : nat -> nat) (s : State) : State :=
  {| ws := ws s; isConnected := isConnected s;
     reconnectAttempts := f (reconnectAttempts s);
     reconnectTimer := reconnectTimer s;
     lastPingReceived := lastPingReceived s;
     missedHeartbeats := missedHeartbeats s;
     connectionStatus := connectionStatus s; clientId := clientId s;
     connectionMetrics := connectionMetrics s; sockets := sockets s;
     nextSock := nextSock s; timers := timers s; nextTimer := nextTimer s;
     out := out s |}.

Definition set_reconnectTimer (f : option TimerId -> option TimerId)
    (s : State) : State :=
  {| ws := ws s; isConnected := isConnected s;
     reconnectAttempts := reconnectAttempts s;
     reconnectTimer := f (reconnectTimer s);
     lastPingReceived := lastPingReceived s;
     missedHeartbeats := missedHeartbeats s;
     connectionStatus := connectionStatus s; clientId := clientId s;
     connectionMetrics := connectionMetrics s; sockets := sockets s;
     nextSock := nextSock s; timers := timers s; nextTimer := nextTimer s;
     out := out s |}.

Definition set_lastPingReceived (f : option Time -> option Time) (s : State)
    : State :=
  {| ws := ws s; isConnected := isConnected s;
     reconnectAttempts := reconnectAttempts s;
     reconnectTimer := reconnectTimer s;
     lastPingReceived := f (lastPingReceived s);
     missedHeartbeats := missedHeartbeats s;
     connectionStatus := connectionStatus s; clientId := clientId s;
     connectionMetrics := connectionMetrics s; sockets := sockets s;
     nextSock := nextSock s; timers := timers s; nextTimer := nextTimer s;
     out := out s |}.

Definition set_missedHeartbeats (f : nat -> nat) (s : State) : State :=
  {| ws := ws s; isConnected := isConnected s;
     reconnectAttempts := reconnectAttempts s;
     reconnectTimer := reconnectTimer s;
     lastPingReceived := lastPingReceived s;
     missedHeartbeats := f (missedHeartbeats s);
     connectionStatus := connectionStatus s; clientId := clientId s;
     connectionMetrics := connectionMetrics s; sockets := sockets s;
     nextSock := nextSock s; timers := timers s; nextTimer := nextTimer s;
     out := out s |}.

Definition set_connectionStatus (f : Status -> Status) (s : State) : State :=
  {| ws := ws s; isConnected := isConnected s;
     reconnectAttempts := reconnectAttempts s;
     reconnectTimer := reconnectTimer s;
     lastPingReceived := lastPingReceived s;
     missedHeartbeats := missedHeartbeats s;
     connectionStatus := f (connectionStatus s); clientId := clientId s;
     connectionMetrics := connectionMetrics s; sockets := sockets s;
     nextSock := nextSock s; timers := timers s; nextTimer := nextTimer s;
     out := out s |}.

Definition set_connectionMetrics (f : Metrics -> Metrics) (s : State)
    : State :=
  {| ws := ws s; isConnected := isConnected s;
     reconnectAttempts := reconnectAttempts s;
     reconnectTimer := reconnectTimer s;
     lastPingReceived := lastPingReceived s;
     missedHeartbeats := missedHeartbeats s;
     connectionStatus := connectionStatus s; clientId := clientId s;
     connectionMetrics := f (connectionMetrics s); sockets := sockets s;
     nextSock := nextSock s; timers := timers s; nextTimer := nextTimer s;
     out := out s |}.

Definition set_sockets
    (f : gmap SockId ReadyState -> gmap SockId ReadyState) (s : State)
    : State :=
  {| ws := ws s; isConnected := isConnected s;
     reconnectAttempts := reconnectAttempts s;
     reconnectTimer := reconnectTimer s;
     lastPingReceived := lastPingReceived s;
     missedHeartbeats := missedHeartbeats s;
     connectionStatus := connectionStatus s; clientId := clientId s;
     connectionMetrics := connectionMetrics s; sockets := f (sockets s);
     nextSock := nextSock s; timers := timers s; nextTimer := nextTimer s;
     out := out s |}.

Definition set_nextSock (f : SockId -> SockId) (s : State) : State :=
  {| ws := ws s; isConnected := isConnected s;
     reconnectAttempts := reconnectAttempts s;
     reconnectTimer := reconnectTimer s;
     lastPingReceived := lastPingReceived s;
     missedHeartbeats := missedHeartbeats s;
     connectionStatus := connectionStatus s; clientId := clientId s;
     connectionMetrics := connectionMetrics s; sockets := sockets s;
     nextSock := f (nextSock s); timers := timers s;
     nextTimer := nextTimer s; out := out s |}.

Definition set_timers (f : gmap TimerId Time -> gmap TimerId Time)
    (s : State) : State :=
  {| ws := ws s; isConnected := isConnected s;
     reconnectAttempts := reconnectAttempts s;
     reconnectTimer := reconnectTimer s;
     lastPingReceived := lastPingReceived s;
     missedHeartbeats := missedHeartbeats s;
     connectionStatus := connectionStatus s; clientId := clientId s;
     connectionMetrics := connectionMetrics s; sockets := sockets s;
     nextSock := nextSock s; timers := f (timers s);
     nextTimer := nextTimer s; out := out s |}.

Definition set_nextTimer (f : TimerId -> TimerId) (s : State) : State :=
  {| ws := ws s; isConnected := isConnected s;
     reconnectAttempts := reconnectAttempts s;
     reconnectTimer := reconnectTimer s;
     lastPingReceived := lastPingReceived s;
     missedHeartbeats := missedHeartbeats s;
     connectionStatus := connectionStatus s; clientId := clientId s;
     connectionMetrics := connectionMetrics s; sockets := sockets s;
     nextSock := nextSock s; timers := timers s;
     nextTimer := f (nextTimer s); out := out s |}.

Definition set_out (f : list Out -> list Out) (s : State) : State :=
  {| ws := ws s; isConnected := isConnected s;
     reconnectAttempts := reconnectAttempts s;
     reconnectTimer := reconnectTimer s;
     lastPingReceived := lastPingReceived s;
     missedHeartbeats := missedHeartbeats s;
     connectionStatus := connectionStatus s; clientId := clientId s;
     connectionMetrics := connectionMetrics s; sockets := sockets s;
     nextSock := nextSock s; timers := timers s; nextTimer := nextTimer s;
     out := f (out s) |}.

(** *** Timers, sockets and messages *)

Definition setTimeout (delay : Time) (s : State) : TimerId * State :=
  (nextTimer s,
   set_nextTimer S (set_timers (insert (nextTimer s) delay) s)).

Definition clearTimeout (t : TimerId) (s : State) : State :=
  set_timers (delete t) s.

(** [k.close()]: a socket that is connecting or open starts to close, and
    its [close] event comes later; on another socket nothing happens. *)
Definition close (k : SockId) (s : State) : State :=
  set_sockets
    (alter (fun r => match r with
                     | CONNECTING | OPEN => CLOSING
                     | _ => r
                     end) k) s.

(** [k.send(JSON.stringify(f))], which the script calls on open sockets
    only: there it does not raise, and the [catch] around it is not
    reached. *)
Definition send (k : SockId) (f : Frame) (s : State) : State :=
  set_out (fun l => l ++ [ToSocket k f]) s.

(** [chrome.runtime.sendMessage(m)] *)
Definition sendMessage (m : Runtime) (s : State) : State :=
  set_out (fun l => l ++ [ToRuntime m]) s.

(** [isConnected && ws.readyState === WebSocket.OPEN]: the socket to send
    on.  The outer [None] is the TypeError of [ws.readyState] while [ws] is
    [null]. *)
Definition openSocket (s : State) : option (option SockId) :=
  if isConnected s then
    match ws s with
    | Some k =>
        Some (if bool_decide (sockets s !! k = Some OPEN) then Some k
              else None)
    | None => None
    end
  else Some None.

(** *** The functions of the script *)

(** [initWebSocket()] *)
Definition initWebSocket (s : State) : State :=
  let s1 :=
    match reconnectTimer s with
    | Some t => set_reconnectTimer (fun _ => None) (clearTimeout t s)
    | None => s
    end in
  let s2 :=
    match ws s1 with
    | Some k => close k s1
    | None => s1
    end in
  set_ws (fun _ => Some (nextSock s2))
    (set_nextSock S (set_sockets (insert (nextSock s2) CONNECTING) s2)).

(** [updateConnectionStatus(newStatus)] *)
Definition updateConnectionStatus (newStatus : Status) (s : State) : State :=
  if bool_decide (connectionStatus s <> newStatus) then
    sendMessage (RStatus newStatus (bool_decide (newStatus = connected)))
      (set_connectionStatus (fun _ => newStatus) s)
  else s.

(** [handleWebSocketOpen(event)] *)
Definition handleWebSocketOpen (now : Time) (s : State) : State :=
  let s1 := set_isConnected (fun _ => true) s in
  let s2 := set_reconnectAttempts (fun _ => 0) s1 in
  let s3 := set_missedHeartbeats (fun _ => 0) s2 in
  let s4 := set_lastPingReceived (fun _ => Some now) s3 in
  let s5 :=
    set_connectionMetrics
      (fun m => {| connectionsTotal := S (connectionsTotal m);
                   reconnections := reconnections m;
                   disconnections := disconnections m;
                   lastConnectedAt := Some now; latency := latency m;
                   requestsProcessed := requestsProcessed m |}) s4 in
  updateConnectionStatus connected (sendMessage (RStatus connected true) s5).

(** [sendPong(timestamp)]; [None] is the TypeError of [openSocket]. *)
Definition sendPong (now : Time) (timestamp : option Time) (s : State)
    : option State :=
  match openSocket s with
  | Some (Some k) =>
      let m := connectionMetrics s in
      Some (send k
              (FPong (clientId s) timestamp now (requestsProcessed m)
                 (Z.of_N now - Z.of_N (default 0%N (lastConnectedAt m)))) s)
  | Some None => Some s
  | None => None
  end.

(** [handleHeartbeat(message)], where [timestamp] is [message.timestamp],
    [None] when the frame has none.  At an exception the function stops and
    keeps what it has written. *)
Definition handleHeartbeat (now : Time) (timestamp : option Time) (s : State)
    : State :=
  let s1 :=
    match timestamp with
    | Some t =>
        if (t =? 0)%N then s
        else
          set_connectionMetrics
            (fun m => {| connectionsTotal := connectionsTotal m;
                         reconnections := reconnections m;
                         disconnections := disconnections m;
                         lastConnectedAt := lastConnectedAt m;
                         latency := Z.of_N now - Z.of_N t;
                         requestsProcessed := requestsProcessed m |}) s
    | None => s
    end in
  let s2 := set_lastPingReceived (fun _ => Some now) s1 in
  let s3 := set_missedHeartbeats (fun _ => 0) s2 in
  match sendPong now timestamp s3 with
  | Some s4 =>
      if bool_decide (connectionStatus s4 = degraded)
      then updateConnectionStatus connected s4 else s4
  | None => s3
  end.

(** The integer part of
    [Math.min(30000, delay * Math.pow(1.5, Math.min(reconnectAttempts - 1,
    10)))], which is what [setTimeout] takes of it, for the values that
    [reconnectAttempts] has at this point, which are positive. *)
Definition backoff (reconnectAttempts : nat) : Time :=
  if exponentialBackoff then
    let k := N.of_nat (Nat.min (reconnectAttempts - 1) 10) in
    N.min 30000 (reconnectDelay * 3 ^ k / 2 ^ k)
  else reconnectDelay.

(** [scheduleReconnect()] *)
Definition scheduleReconnect (s : State) : State :=
  let s1 :=
    match reconnectTimer s with
    | Some t => set_reconnectTimer (fun _ => None) (clearTimeout t s)
    | None => s
    end in
  let s2 := set_reconnectAttempts S s1 in
  let delay := backoff (reconnectAttempts s2) in
  if (maxReconnectAttempts =? 0)
     || (reconnectAttempts s2 <=? maxReconnectAttempts)
  then
    let '(t, s3) := setTimeout delay s2 in
    set_reconnectTimer (fun _ => Some t) s3
  else updateConnectionStatus failed s2.

(** The function given to [setTimeout] by [scheduleReconnect]. *)
Definition reconnectFired (s : State) : State :=
  initWebSocket
    (set_connectionMetrics
       (fun m => {| connectionsTotal := connectionsTotal m;
                    reconnections := S (reconnections m);
                    disconnections := disconnections m;
                    lastConnectedAt := lastConnectedAt m;
                    latency := latency m;
                    requestsProcessed := requestsProcessed m |}) s).

(** [handleWebSocketClose(event)] *)
Definition handleWebSocketClose (s : State) : State :=
  let s1 := set_isConnected (fun _ => false) s in
  let s2 := updateConnectionStatus disconnected s1 in
  let s3 :=
    set_connectionMetrics
      (fun m => {| connectionsTotal := connectionsTotal m;
                   reconnections := reconnections m;
                   disconnections := S (disconnections m);
                   lastConnectedAt := lastConnectedAt m;
                   latency := latency m;
                   requestsProcessed := requestsProcessed m |}) s2 in
  scheduleReconnect (sendMessage (RStatus disconnected false) s3).

(** [handleWebSocketError(event)] *)
Definition handleWebSocketError (s : State) : State :=
  updateConnectionStatus degraded s.

(** [sendClientIdentification()]; [None] is the TypeError of
    [openSocket]. *)
Definition sendClientIdentification (s : State) : option State :=
  match openSocket s with
  | Some (Some k) => Some (send k (FIdentify (clientId s)) s)
  | Some None => Some s
  | None => None
  end.

(** [processFetchRequest(message)] up to the call of
    [chrome.runtime.sendMessage]. *)
Definition processFetchRequest (id : ReqId) (url options : Js.value)
    (s : State) : option State :=
  match openSocket s with
  | Some (Some _) => Some (sendMessage (RFetchRequest id url options) s)
  | Some None => Some s
  | None => None
  end.

(** The [catch] of that call, when the promise of [sendMessage] is
    rejected with [err]. *)
Definition forwardFailed (id : ReqId) (err : string) (s : State) : State :=
  match openSocket s with
  | Some (Some k) =>
      send k (FFailed id ("Failed to process request: " +:+ err)) s
  | _ => s
  end.

(** A frame from the broker after [JSON.parse], by the case of the [switch]
    that takes it; in the default case [id] is [None] when the frame has
    none.  [MMalformed] is a text that [JSON.parse] refuses, and [null]. *)
Inductive Inbound :=
| MIdentify
| MPing (timestamp : option Time)
| MData (id : option ReqId) (url options : Js.value)
| MMalformed.

(** [handleWebSocketMessage(event)]; its [catch] ends it at an
    exception. *)
Definition handleWebSocketMessage (now : Time) (message : Inbound)
    (s : State) : State :=
  match message with
  | MIdentify => default s (sendClientIdentification s)
  | MPing timestamp => handleHeartbeat now timestamp s
  | MData (Some id) url options =>
      if Js.truthy url && Js.truthy options then
        let s1 :=
          set_connectionMetrics
            (fun m => {| connectionsTotal := connectionsTotal m;
                         reconnections := reconnections m;
                         disconnections := disconnections m;
                         lastConnectedAt := lastConnectedAt m;
                         latency := latency m;
                         requestsProcessed := S (requestsProcessed m) |}) s in
        default s1 (processFetchRequest id url options s1)
      else s
  | MData None _ _ => s
  | MMalformed => s
  end.

(** The function given to [setInterval]: the watch on the pings of the
    broker, every 2.5 seconds.  [lastPingReceived] is falsy when it is
    [null] or 0. *)
Definition monitorTick (now : Time) (s : State) : State :=
  match lastPingReceived s with
  | Some last =>
      if isConnected s && negb (last =? 0)%N then
        if (reconnectDelay <? now - last)%N then
          let s1 := set_missedHeartbeats S s in
          if maxMissedHeartbeats <=? missedHeartbeats s1 then
            match ws s1 with
            | Some k => scheduleReconnect (close k s1)
            | None => s1
            end
          else updateConnectionStatus degraded s1
        else if 0 <? missedHeartbeats s then
          let s1 := set_missedHeartbeats (fun _ => 0) s in
          if bool_decide (connectionStatus s1 = degraded)
          then updateConnectionStatus connected s1 else s1
        else s
      else s
  | None => s
  end.

(** The listener of [chrome.runtime.onMessage] for a message with the
    action ['fetch_response'] and an [id]. *)
Definition onFetchResponse (id : ReqId) (payload error : Js.value)
    (s : State) : State :=
  match openSocket s with
  | Some (Some k) => send k (FResponse id payload error) s
  | _ => s
  end.

(** *** The event timeline *)

(** What happens to the page: a socket opens, delivers a frame, closes, or
    reports an error; the watch ticks; a timer fires; the background page
    answers; forwarding a request to it fails. *)
Inductive Event :=
| Opened (k : SockId)
| Received (message : Inbound)
| Closed (k : SockId)
| Failed
| MonitorTick
| TimerFired (t : TimerId)
| FetchResponse (id : ReqId) (payload error : Js.value)
| ForwardFailed (id : ReqId) (err : string).

Definition step (now : Time) (e : Event) (s : State) : State :=
  match e with
  | Opened k => handleWebSocketOpen now (set_sockets (insert k OPEN) s)
  | Received message => handleWebSocketMessage now message s
  | Closed k => handleWebSocketClose (set_sockets (insert k CLOSED) s)
  | Failed => handleWebSocketError s
  | MonitorTick => monitorTick now s
  | TimerFired t =>
      match timers s !! t with
      | Some _ => reconnectFired (clearTimeout t s)
      | None => s
      end
  | FetchResponse id payload error => onFetchResponse id payload error s
  | ForwardFailed id err => forwardFailed id err s
  end.

Definition run (es : list (Time * Event)) (s : State) : State :=
  foldl (fun s e => step e.1 e.2 s) s es.

(** The page when the script is loaded: the variables have their initial
    values, the interval of the watch has taken the handle 1, and
    [initWebSocket()] has run. *)
Definition loaded (clientId : nat) : State :=
  initWebSocket
    {| ws := None; isConnected := false; reconnectAttempts := 0;
       reconnectTimer := None; lastPingReceived := None;
       missedHeartbeats := 0; connectionStatus := disconnected;
       clientId := clientId;
       connectionMetrics :=
         {| connectionsTotal := 0; reconnections := 0; disconnections := 0;
            lastConnectedAt := None; latency := 0; requestsProcessed := 0 |};
       sockets := ∅; nextSock := 0; timers := ∅; nextTimer := 2; out := [] |}.

(** *** Predicates of the properties proved below *)

(** At most one reconnection is scheduled, and [reconnectTimer] holds its
    handle. *)
Definition one_timer (s : State) : Prop :=
  forall t delay, timers s !! t = Some delay -> reconnectTimer s = Some t.

(** No socket opens in the run. *)
Definition no_opening (es : list (Time * Event)) : Prop :=
  Forall (fun e : Time * Event =>
            match e.2 with Opened _ => False | _ => True end) es.

End Worker.

Module WorkerScenario.
Import Worker.

(** The socket 0 has opened at time 1000 and the broker has pinged once,
    at time 4000. *)
Definition online : State :=
  run [(1000%N, Opened 0); (4000%N, Received (MPing (Some 4000%N)))]
    (loaded 7).

(** Then the pings stop: the watch, which ticks every 2.5 seconds, counts
    the third miss at time 15000. *)
Definition silence : list (Time * Event) :=
  [(5000%N, MonitorTick); (7500%N, MonitorTick); (10000%N, MonitorTick);
   (12500%N, MonitorTick)].

Definition lastMiss : State := run silence online.

(** The broker cannot be reached: every new socket closes again. *)
Definition unreachable (n : nat) : list (Time * Event) :=
  flat_map (fun i => [(0%N, Closed i); (0%N, TimerFired (2 + i))]) (seq 0 n).

End WorkerScenario.

(** * Properties of the broker *)

Module BrokerSpec.
Import Broker.

Lemma healthScore_range h : (0 <= healthScore h <= 2)%Z.
Proof. destruct h; simpl; lia. Qed.

Lemma lookup_snoc_cases {A} (pre : list A) (x y : A) (j : nat) :
  (pre ++ [x]) !! j = Some y ->
  (j < length pre /\ pre !! j = Some y) \/ (j = length pre /\ y = x).
Proof.
  intros H. destruct (decide (j < length pre)) as [Hlt | Hge].
  - left. split; [exact Hlt |]. by rewrite lookup_app_l in H.
  - right. rewrite lookup_app_r in H by lia.
    destruct (j - length pre) as [| n] eqn:E; simpl in H.
    + split; [lia | congruence].
    + destruct n; discriminate.
Qed.

Lemma scan_inv_closed open pre k d best bh :
  open (client d) = false ->
  scan_inv open pre best bh -> scan_inv open (pre ++ [(k, d)]) best bh.
Proof.
  intros Hc. unfold scan_inv. destruct best as [c |].
  - intros (Hbh & i & k0 & d0 & Hi & Hcl & Ho & Hs & Hall).
    split; [exact Hbh |]. exists i, k0, d0.
    repeat split; try assumption.
    + rewrite lookup_app_l; [exact Hi | by eapply lookup_lt_Some].
    + apply lookup_snoc_cases in H as [[_ H] | [_ H]].
      * by apply (Hall j k' d').
      * congruence.
    + intros Hj. apply lookup_snoc_cases in H as [[_ H] | [_ H]].
      * by apply (Hall j k' d').
      * congruence.
  - intros [Hbh Hall]. split; [exact Hbh |].
    intros j k' d' H. apply lookup_snoc_cases in H as [[_ H] | [_ H]].
    + by eapply Hall.
    + congruence.
Qed.

Lemma scan_inv_worse open pre k d best bh :
  (healthScore (healthStatus d) <= bh)%Z ->
  scan_inv open pre best bh -> scan_inv open (pre ++ [(k, d)]) best bh.
Proof.
  intros Hle. unfold scan_inv. destruct best as [c |].
  - intros (Hbh & i & k0 & d0 & Hi & Hcl & Ho & Hs & Hall).
    pose proof (lookup_lt_Some _ _ _ Hi) as Hlen.
    split; [exact Hbh |]. exists i, k0, d0.
    repeat split; try assumption.
    + by rewrite lookup_app_l.
    + apply lookup_snoc_cases in H as [[_ H] | [_ H]].
      * by apply (Hall j k' d').
      * congruence.
    + intros Hj. apply lookup_snoc_cases in H as [[_ H] | [Hjl H]].
      * by apply (Hall j k' d').
      * lia.
  - intros [Hbh _]. pose proof (healthScore_range (healthStatus d)). lia.
Qed.

Lemma scan_inv_better open pre k d best bh :
  open (client d) = true ->
  (bh < healthScore (healthStatus d))%Z ->
  scan_inv open pre best bh ->
  forall j k' d',
    (pre ++ [(k, d)]) !! j = Some (k', d') -> open (client d') = true ->
    (healthScore (healthStatus d') <= healthScore (healthStatus d))%Z /\
    (j < length pre ->
     (healthScore (healthStatus d') < healthScore (healthStatus d))%Z).
Proof.
  intros Ho Hlt Hinv j k' d' H Ho'.
  apply lookup_snoc_cases in H as [[Hj H] | [Hj H]].
  - unfold scan_inv in Hinv. destruct best as [c |].
    + destruct Hinv as (_ & i & k0 & d0 & _ & _ & _ & _ & Hall).
      destruct (Hall j k' d' H Ho') as [Hle _]. lia.
    + destruct Hinv as [_ Hall]. rewrite (Hall j k' d' H) in Ho'. discriminate.
  - inversion H; subst. split; lia.
Qed.

Lemma scan_spec open rest : forall pre best bh,
  scan_inv open pre best bh ->
  match scanExtensions open rest best bh with
  | Some c => is_best open (pre ++ rest) c
  | None => all_closed open (pre ++ rest)
  end.
Proof.
  induction rest as [| [k d] rest IH]; intros pre best bh Hinv; simpl.
  - rewrite app_nil_r. unfold scan_inv in Hinv. destruct best as [c |].
    + destruct Hinv as (_ & i & k0 & d0 & Hi & Hcl & Ho & Hs & Hall).
      exists i, k0, d0. rewrite Hs.
      split; [exact Hi |]. split; [exact Hcl |]. split; [exact Ho |].
      exact Hall.
    + apply Hinv.
  - replace (pre ++ (k, d) :: rest) with ((pre ++ [(k, d)]) ++ rest)
      by (by rewrite <- app_assoc).
    destruct (open (client d)) eqn:Ho.
    + destruct (bh <? healthScore (healthStatus d))%Z eqn:Hlt.
      * apply Z.ltb_lt in Hlt.
        pose proof (scan_inv_better open pre k d best bh Ho Hlt Hinv) as Hall.
        pose proof (healthScore_range (healthStatus d)) as Hr.
        destruct (healthScore (healthStatus d) =? 2)%Z eqn:H2.
        -- apply Z.eqb_eq in H2.
           exists (length pre), k, d. split.
           { rewrite lookup_app_l by (rewrite length_app; simpl; lia).
             by rewrite lookup_app_r, Nat.sub_diag. }
           split; [reflexivity |]. split; [exact Ho |].
           intros j k' d' Hj Ho'.
           pose proof (healthScore_range (healthStatus d')) as Hr'.
           split; [lia |]. intros Hjl.
           rewrite lookup_app_l in Hj by (rewrite length_app; simpl; lia).
           by apply (Hall j k' d').
        -- apply Z.eqb_neq in H2. apply IH. unfold scan_inv.
           split; [lia |]. exists (length pre), k, d.
           split; [by rewrite lookup_app_r, Nat.sub_diag |].
           repeat split; try assumption; by apply (Hall j k' d').
      * apply Z.ltb_ge in Hlt. apply IH. by apply scan_inv_worse.
    + apply IH. by apply scan_inv_closed.
Qed.

(** The loop of [sendToExtension], from its initial variables. *)
Lemma bestExtension_spec (s : State) :
  match bestExtension s with
  | Some c => is_best (isOpen s) (clients_extension s) c
  | None => all_closed (isOpen s) (clients_extension s)
  end.
Proof.
  unfold bestExtension.
  apply (scan_spec (isOpen s) (clients_extension s) [] None (-1)%Z).
  split; [reflexivity |]. intros j k d H. discriminate.
Qed.

(** The entries after the first open healthy one are not looked at. *)
Lemma scan_short_circuit open pre k d rest best bh :
  open (client d) = true -> healthStatus d = healthy -> (bh < 2)%Z ->
  scanExtensions open (pre ++ (k, d) :: rest) best bh
  = scanExtensions open (pre ++ [(k, d)]) best bh.
Proof.
  intros Ho Hh. revert best bh.
  induction pre as [| [k0 d0] pre IH]; intros best bh Hbh; simpl.
  - rewrite Ho, Hh. simpl. by replace (bh <? 2)%Z with true by lia.
  - pose proof (healthScore_range (healthStatus d0)) as Hr.
    destruct (open (client d0)); [| by apply IH].
    destruct (bh <? healthScore (healthStatus d0))%Z; [| by apply IH].
    destruct (healthScore (healthStatus d0) =? 2)%Z eqn:H2; [reflexivity |].
    apply Z.eqb_neq in H2. apply IH. lia.
Qed.

(** When every open executor is critical, the first open one is chosen. *)
Lemma first_open_critical_is_chosen (s : State) i k d :
  clients_extension s !! i = Some (k, d) ->
  isOpen s (client d) = true -> healthStatus d = critical ->
  (forall j k' d',
     clients_extension s !! j = Some (k', d') ->
     isOpen s (client d') = true ->
     i <= j /\ healthStatus d' = critical) ->
  bestExtension s = Some (client d).
Proof.
  intros Hi Ho Hh Hall. pose proof (bestExtension_spec s) as Hb.
  destruct (bestExtension s) as [c |].
  - destruct Hb as (i0 & k0 & d0 & Hi0 & Hc & Ho0 & Hbest).
    rewrite <- Hc in Ho0. destruct (Hall i0 k0 d0 Hi0 Ho0) as [Hle Hh0].
    destruct (Hbest i k d Hi Ho) as [_ Hlt]. rewrite Hh, Hh0 in Hlt.
    assert (i = i0) as -> by (destruct (decide (i < i0)) as [H | H];
                               [specialize (Hlt H) |]; lia).
    rewrite Hi in Hi0. injection Hi0 as _ <-. by rewrite Hc.
  - by rewrite (Hb i k d Hi) in Ho.
Qed.

(** C5, as amended.  [sendToExtension] sends the message to the open
    executor with the highest health score, healthy counting 2, degraded 1
    and critical 0: the first such executor in the order of the map, found
    without looking past the first open healthy one.  A critical executor is
    eligible, not excluded: it is the one chosen when it is the first open
    executor of the map and no open executor is healthy or degraded.  The
    result is [false], and nothing is sent, exactly when no executor is
    open. *)
Theorem sendToExtension_selects_best (message : Message) (s : State) :
  (healthScore healthy = 2 /\ healthScore degraded = 1
   /\ healthScore critical = 0)%Z /\
  short_circuits (isOpen s) (clients_extension s) /\
  (forall i k d,
     clients_extension s !! i = Some (k, d) ->
     isOpen s (client d) = true -> healthStatus d = critical ->
     (forall j k' d',
        clients_extension s !! j = Some (k', d') ->
        isOpen s (client d') = true ->
        i <= j /\ healthStatus d' = critical) ->
     bestExtension s = Some (client d)) /\
  match bestExtension s with
  | Some c =>
      is_best (isOpen s) (clients_extension s) c /\
      sendToExtension message s = (true, [(c, FMessage message)])
  | None =>
      all_closed (isOpen s) (clients_extension s) /\
      sendToExtension message s = (false, [])
  end.
Proof.
  split; [by repeat split |]. split.
  { intros pre k d rest -> Ho Hh. by apply scan_short_circuit. }
  split; [apply first_open_critical_is_chosen |].
  pose proof (bestExtension_spec s) as Hb. unfold sendToExtension.
  destruct (bestExtension s) as [c |] eqn:E.
  - split; [exact Hb |].
    destruct Hb as (i & k & d & Hi & _ & Ho & _). rewrite Ho.
    destruct (clients_extension s); [discriminate Hi | reflexivity].
  - split; [exact Hb |]. by destruct (length (clients_extension s) =? 0).
Qed.

(** C5, as stated, fails: the only executor is critical and open, and it is
    selected. *)
Lemma critical_executor_is_selected :
  (exists d, clients_extension BrokerScenario.criticalExecutor = [(2, d)]
             /\ client d = 2 /\ healthStatus d = critical) /\
  isOpen BrokerScenario.criticalExecutor 2 = true /\
  sendToExtension BrokerScenario.r1 BrokerScenario.criticalExecutor
  = (true, [(2, FMessage BrokerScenario.r1)]).
Proof.
  split; [| split; reflexivity].
  eexists. split; [reflexivity |]. split; reflexivity.
Qed.

(** ** Responses of executors *)

Lemma handleExtensionResponse_out now ws m c s :
  (handleExtensionResponse now ws m c s).2
  = match pendingRequests s !! m_id m with
    | Some pr =>
        if isOpen s (pr_client pr) then [(pr_client pr, FMessage m)] else []
    | None => []
    end.
Proof.
  unfold handleExtensionResponse. simpl.
  destruct (pendingRequests s !! m_id m) as [pr |]; simpl; [| reflexivity].
  unfold sendToXfetch, isOpen, readyStateOf. simpl.
  by destruct (bool_decide _).
Qed.

Lemma handleExtensionResponse_pending now ws m c s :
  pendingRequests (handleExtensionResponse now ws m c s).1
  = match pendingRequests s !! m_id m with
    | Some _ => delete (m_id m) (pendingRequests s)
    | None => pendingRequests s
    end.
Proof.
  unfold handleExtensionResponse. simpl.
  by destruct (pendingRequests s !! m_id m).
Qed.

Lemma handleExtensionResponse_forgets now ws m c s :
  pendingRequests (handleExtensionResponse now ws m c s).1 !! m_id m = None.
Proof.
  rewrite handleExtensionResponse_pending.
  destruct (pendingRequests s !! m_id m) eqn:E; [apply lookup_delete_eq | exact E].
Qed.

Lemma handleExtensionResponse_keeps_absent now ws m c s id :
  pendingRequests s !! id = None ->
  pendingRequests (handleExtensionResponse now ws m c s).1 !! id = None.
Proof.
  intros H. rewrite handleExtensionResponse_pending.
  destruct (pendingRequests s !! m_id m); [| exact H].
  rewrite lookup_delete. by case_decide.
Qed.

Lemma handleExtensionResponse_answers now ws m c s id :
  length (filter (answers id) (handleExtensionResponse now ws m c s).2)
  <= if decide (m_id m = id)
     then match pendingRequests s !! id with Some _ => 1 | None => 0 end
     else 0.
Proof.
  rewrite handleExtensionResponse_out.
  destruct (decide (m_id m = id)) as [<- | Hne].
  - destruct (pendingRequests s !! m_id m) as [pr |]; [| simpl; lia].
    destruct (isOpen s (pr_client pr)); [| simpl; lia].
    destruct (filter _ _) as [| x [| y l]] eqn:E; simpl; try lia.
    apply (f_equal length) in E. pose proof (length_filter (answers (m_id m))
      [(pr_client pr, FMessage m)]) as Hl. rewrite E in Hl. simpl in Hl. lia.
  - destruct (pendingRequests s !! m_id m) as [pr |]; [| simpl; lia].
    destruct (isOpen s (pr_client pr)); [| simpl; lia].
    rewrite filter_cons_False; [simpl; lia |].
    unfold answers; simpl. intros H. apply bool_decide_unpack in H.
    contradiction.
Qed.

Lemma no_answer_without_entry rs : forall s id,
  pendingRequests s !! id = None ->
  filter (answers id) (handleExtensionResponses rs s).2 = [].
Proof.
  induction rs as [| [[[now ws] m] c] rs IH]; intros s id Hid; [reflexivity |].
  simpl.
  destruct (handleExtensionResponse now ws m c s) as [s1 o1] eqn:E1.
  destruct (handleExtensionResponses rs s1) as [s2 o2] eqn:E2. simpl.
  rewrite filter_app.
  pose proof (handleExtensionResponse_answers now ws m c s id) as Ha.
  pose proof (handleExtensionResponse_keeps_absent now ws m c s id Hid) as Hk.
  rewrite E1 in Ha, Hk. simpl in Ha, Hk. rewrite Hid in Ha.
  specialize (IH s1 id Hk). rewrite E2 in IH. simpl in IH. rewrite IH.
  destruct (filter (answers id) o1); [reflexivity |].
  simpl in Ha. destruct (decide (m_id m = id)); lia.
Qed.

Lemma at_most_one_answer rs : forall s id,
  length (filter (answers id) (handleExtensionResponses rs s).2) <= 1.
Proof.
  induction rs as [| [[[now ws] m] c] rs IH]; intros s id; [simpl; lia |].
  simpl.
  destruct (handleExtensionResponse now ws m c s) as [s1 o1] eqn:E1.
  destruct (handleExtensionResponses rs s1) as [s2 o2] eqn:E2. simpl.
  rewrite filter_app, length_app.
  pose proof (handleExtensionResponse_answers now ws m c s id) as Ha.
  rewrite E1 in Ha. simpl in Ha.
  destruct (decide (m_id m = id)) as [<- | Hne].
  - pose proof (handleExtensionResponse_forgets now ws m c s) as Hf.
    rewrite E1 in Hf. simpl in Hf.
    pose proof (no_answer_without_entry rs s1 (m_id m) Hf) as Hn.
    rewrite E2 in Hn. simpl in Hn. rewrite Hn. simpl.
    destruct (pendingRequests s !! m_id m); lia.
  - specialize (IH s1 id). rewrite E2 in IH. simpl in IH. lia.
Qed.

(** *** The whole timeline *)

Lemma benign_filter id out : benign id out -> filter (answers id) out = [].
Proof.
  induction 1 as [| o out Ho _ IH]; [reflexivity |].
  rewrite filter_cons_False; [exact IH |]. rewrite Ho. simpl. tauto.
Qed.

Lemma benign_nil id : benign id [].
Proof. constructor. Qed.

Lemma answers_error id ws id' e :
  id' <> id -> answers id (ws, FError id' e) = false.
Proof. intros H. unfold answers. cbn [snd]. by apply bool_decide_eq_false_2. Qed.

Lemma answers_message id ws m :
  m_id m <> id -> answers id (ws, FMessage m) = false.
Proof. intros H. unfold answers. cbn [snd]. by apply bool_decide_eq_false_2. Qed.

Lemma benign_send id s ws f :
  answers id (ws, f) = false -> benign id (send s ws f).
Proof.
  intros H. unfold send, benign.
  destruct (isOpen s ws); repeat constructor. exact H.
Qed.

Lemma benign_notify id now available s :
  benign id (notifyXfetchClients now available s).
Proof.
  unfold notifyXfetchClients, benign.
  induction (clients_xfetch s) as [| e l IH]; simpl; [constructor |].
  apply Forall_app. split; [| exact IH].
  destruct (isOpen s (client e.2)); by repeat constructor.
Qed.

Lemma no_new_retry_subset id s s' :
  timers s' ⊆ timers s -> no_new_retry id s s'.
Proof. intros H tid d m ws c n Ht _. by eapply lookup_weaken. Qed.

Lemma no_new_retry_trans id s1 s2 s3 :
  no_new_retry id s1 s2 -> no_new_retry id s2 s3 -> no_new_retry id s1 s3.
Proof. intros H12 H23 tid d m ws c n Ht Hm. apply H12, Hm. by apply H23. Qed.

Lemma inert_same id s s' out :
  timers s' ⊆ timers s -> pendingRequests s' ⊆ pendingRequests s ->
  benign id out -> inert id s s' out.
Proof.
  intros Ht Hp Ho. split; [by apply no_new_retry_subset |]. split; [| exact Ho].
  intros Hn. destruct (pendingRequests s' !! id) eqn:E; [| reflexivity].
  by rewrite (lookup_weaken _ _ _ _ E Hp) in Hn.
Qed.

Lemma inert_trans id s1 s2 s3 o1 o2 :
  inert id s1 s2 o1 -> inert id s2 s3 o2 -> inert id s1 s3 (o1 ++ o2).
Proof.
  intros (T1 & P1 & O1) (T2 & P2 & O2).
  split; [by eapply no_new_retry_trans |]. split; [by auto |].
  by apply Forall_app.
Qed.

Lemma quiet_inert id s s' :
  no_new_retry id s s' -> ~ retry_armed id s -> ~ retry_armed id s'.
Proof.
  intros H Hq (tid & d & m & ws & c & n & Ht & Hm). apply Hq.
  exists tid, d, m, ws, c, n. split; [by apply H | exact Hm].
Qed.

Lemma timers_set_clients role f s :
  timers (set_clients role f s) = timers s
  /\ pendingRequests (set_clients role f s) = pendingRequests s
  /\ sockets (set_clients role f s) = sockets s.
Proof. by destruct role. Qed.

Lemma validate_inert id now m ws cid count s :
  m_id m <> id ->
  inert id s (validateExtensionClients now m ws cid count s).1
    (validateExtensionClients now m ws cid count s).2.
Proof.
  intros Hne.
  assert (forall e, benign id (send s ws (FError (m_id m) e))) as Hsend.
  { intros e. by apply benign_send, answers_error. }
  assert (forall s0 : State,
            pendingRequests s0 = delete (m_id m) (pendingRequests s) ->
            pendingRequests s !! id = None ->
            pendingRequests s0 !! id = None) as Hdel.
  { intros s0 -> Hn. by rewrite lookup_delete_ne. }
  unfold validateExtensionClients.
  destruct ((length (clients_extension s) =? 0) && (count <? 3)).
  - split; [| split; [| apply benign_nil]].
    + intros tid d m' ws' c' n' Ht Hm'.
      destruct (pendingRequestsQueue s !! m_id m) as [old |];
        simpl in Ht;
        (rewrite lookup_insert in Ht; case_decide as Hd;
         [inversion Ht; subst; contradiction |]);
        [rewrite lookup_delete in Ht; by case_decide | exact Ht].
    + by destruct (pendingRequestsQueue s !! m_id m).
  - destruct ((length (clients_extension s) =? 0) && (3 <=? count)).
    + split; [by apply no_new_retry_subset |].
      split; [by apply Hdel | apply Hsend].
    + destruct (0 <? length (clients_extension s)).
      * unfold sendToExtension.
        destruct (length (clients_extension s) =? 0); simpl.
        { split; [by apply no_new_retry_subset |].
          split; [by apply Hdel | apply Hsend]. }
        destruct (bestExtension s) as [c |]; simpl.
        2:{ split; [by apply no_new_retry_subset |].
            split; [by apply Hdel | apply Hsend]. }
        destruct (isOpen s c); simpl.
        { split; [by apply no_new_retry_subset |]. split; [done |].
          repeat constructor. by apply answers_message. }
        split; [by apply no_new_retry_subset |].
        split; [by apply Hdel | apply Hsend].
      * split; [by apply no_new_retry_subset |].
        split; [by apply Hdel | apply Hsend].
Qed.

Lemma handleXfetchRequest_inert id now ws m cid s :
  m_id m <> id ->
  inert id s (handleXfetchRequest now ws m cid s).1
    (handleXfetchRequest now ws m cid s).2.
Proof.
  intros Hne. unfold handleXfetchRequest.
  match goal with
  | |- context [validateExtensionClients now m ws cid 0 ?s2] =>
      destruct (validate_inert id now m ws cid 0 s2 Hne) as (T & P & O)
  end.
  split; [exact T |]. split; [| exact O].
  intros Hn. apply P. simpl. by rewrite lookup_insert_ne.
Qed.

Lemma handleExtensionResponse_timers now ws m c s :
  timers (handleExtensionResponse now ws m c s).1 = timers s.
Proof.
  unfold handleExtensionResponse. simpl.
  by destruct (pendingRequests s !! m_id m).
Qed.

Lemma handlePongResponse_inert id now ws cid s :
  inert id s (handlePongResponse now ws cid s) [].
Proof.
  unfold handlePongResponse.
  destruct (sockets s !! ws ≫= clientType) as [role |];
    [| by apply inert_same; [| | apply benign_nil]].
  destruct (OMap.get (clients role s) cid) as [d |];
    [| by apply inert_same; [| | apply benign_nil]].
  set (s1 := match pongTimeoutId d with
             | Some t => clearTimeout t s
             | None => s
             end).
  destruct (timers_set_clients role
              (fun m => OMap.alter (cd_pong now) m cid) s1) as (Ht & Hp & _).
  apply inert_same; [| | apply benign_nil]; simpl; rewrite ?Ht, ?Hp;
    subst s1; destruct (pongTimeoutId d); simpl; try reflexivity.
  apply delete_subseteq.
Qed.

Lemma handleClientIdentification_inert id now ws role cid s :
  inert id s (handleClientIdentification now ws role cid s).1
    (handleClientIdentification now ws role cid s).2.
Proof.
  unfold handleClientIdentification. cbn [fst snd].
  match goal with
  | |- context [if ?c then set_stats count_reconnection ?a else ?b] =>
      set (s3 := if c then set_stats count_reconnection a else b)
  end.
  assert (timers s3 = timers s /\ pendingRequests s3 = pendingRequests s)
    as [Ht Hp].
  { subst s3. by destruct (sockets s !! ws ≫= clientType), role. }
  apply inert_same; [by rewrite Ht | by rewrite Hp |].
  apply Forall_app. split; [by apply benign_send |].
  destruct role; [by apply benign_send |].
  destruct (length (clients_extension s3) =? 1);
    [apply benign_notify | apply benign_nil].
Qed.

Lemma onClose_inert id now ws cid s :
  inert id s (onClose now ws cid s).1 (onClose now ws cid s).2.
Proof.
  unfold onClose.
  destruct (_ !! ws ≫= clientType) as [role |];
    [| by apply inert_same; [| | apply benign_nil]].
  cbn [fst snd].
  match goal with
  | |- context [set_clients role ?f ?s0] =>
      destruct (timers_set_clients role f s0) as (Ht & Hp & _)
  end.
  apply inert_same.
  - simpl. by rewrite Ht.
  - simpl. rewrite Hp. apply map_filter_subseteq.
  - destruct role; [apply benign_nil |].
    destruct (_ =? 0); [apply benign_notify | apply benign_nil].
Qed.

Lemma pingClient_inert id role now acc k :
  no_new_retry id acc.1 (pingClient role now acc k).1 /\
  pendingRequests (pingClient role now acc k).1 = pendingRequests acc.1 /\
  (benign id acc.2 -> benign id (pingClient role now acc k).2).
Proof.
  unfold pingClient.
  destruct (OMap.get (clients role acc.1) k) as [d |];
    [| split; [by apply no_new_retry_subset | by split]].
  destruct (isOpen acc.1 (client d));
    [| split; [by apply no_new_retry_subset | by split]].
  unfold setTimeout. cbn [fst snd].
  match goal with
  | |- context [set_clients role ?f ?s0] =>
      destruct (timers_set_clients role f s0) as (Ht & Hp & _)
  end.
  split; [| split].
  - intros tid dl m ws c n Hl _. simpl in Hl. rewrite Ht in Hl. simpl in Hl.
    rewrite lookup_insert in Hl. case_decide; [discriminate Hl | exact Hl].
  - simpl. by rewrite Hp.
  - intros Hb. apply Forall_app. split; [exact Hb |]. by repeat constructor.
Qed.

Lemma sendHeartbeats_fold id role now keys : forall acc,
  benign id acc.2 ->
  let r := foldl (pingClient role now) acc keys in
  no_new_retry id acc.1 r.1 /\
  pendingRequests r.1 = pendingRequests acc.1 /\ benign id r.2.
Proof.
  induction keys as [| k keys IH]; intros acc Hb; simpl.
  - split; [by apply no_new_retry_subset | by split].
  - destruct (pingClient_inert id role now acc k) as (T & P & B).
    destruct (IH (pingClient role now acc k) (B Hb)) as (T' & P' & B').
    split; [by eapply no_new_retry_trans |]. split; [congruence | exact B'].
Qed.

Lemma sendHeartbeats_inert id role now s :
  inert id s (sendHeartbeats role now s).1 (sendHeartbeats role now s).2.
Proof.
  unfold sendHeartbeats.
  destruct (sendHeartbeats_fold id role now ((clients role s).*1) (s, [])
              (benign_nil id)) as (T & P & B).
  split; [exact T |]. split; [| exact B]. intros Hn. simpl in P. by rewrite P.
Qed.

Lemma checkClient_shrinks role s k :
  timers (checkClient role s k) ⊆ timers s /\
  pendingRequests (checkClient role s k) ⊆ pendingRequests s.
Proof.
  unfold checkClient.
  destruct (OMap.get (clients role s) k) as [d |]; [| done].
  destruct (HEARTBEAT_maxMissed <=? missedHeartbeats d); [| done].
  simpl.
  match goal with
  | |- context [set_clients role ?f ?s0] =>
      destruct (timers_set_clients role f s0) as (Ht & Hp & _)
  end.
  rewrite Ht, Hp. split.
  - destruct (pongTimeoutId d) as [t |]; simpl;
      match goal with
      | |- context [isOpen ?x ?c] => destruct (isOpen x c)
      end; simpl; try reflexivity; apply delete_subseteq.
  - etrans; [apply map_filter_subseteq |].
    destruct (pongTimeoutId d) as [t |]; simpl;
      match goal with
      | |- context [isOpen ?x ?c] => destruct (isOpen x c)
      end; reflexivity.
Qed.

Lemma checkClientHealth_shrinks role keys : forall s,
  timers (foldl (checkClient role) s keys) ⊆ timers s /\
  pendingRequests (foldl (checkClient role) s keys) ⊆ pendingRequests s.
Proof.
  induction keys as [| k keys IH]; intros s; simpl; [done |].
  destruct (IH (checkClient role s k)) as [T P].
  destruct (checkClient_shrinks role s k) as [T' P'].
  split; etrans; eassumption.
Qed.

Lemma heartbeatTick_inert id now s :
  inert id s (heartbeatTick now s).1 (heartbeatTick now s).2.
Proof.
  unfold heartbeatTick.
  pose proof (sendHeartbeats_inert id extension now s) as H1.
  destruct (sendHeartbeats extension now s) as [s1 o1].
  pose proof (sendHeartbeats_inert id xfetch now s1) as H2.
  destruct (sendHeartbeats xfetch now s1) as [s2 o2].
  cbn [fst snd] in *.
  pose proof (inert_trans id s s1 s2 o1 o2 H1 H2) as H12.
  rewrite <- (app_nil_r (o1 ++ o2)).
  apply (inert_trans id s s2 _ (o1 ++ o2) [] H12).
  unfold checkClientHealth.
  destruct (checkClientHealth_shrinks extension
              ((clients extension s2).*1) s2) as [T P].
  set (s3 := foldl (checkClient extension) s2 ((clients extension s2).*1))
    in *.
  destruct (checkClientHealth_shrinks xfetch ((clients xfetch s3).*1) s3)
    as [T' P'].
  apply inert_same; [by etrans | by etrans | apply benign_nil].
Qed.

Lemma onConnection_inert id cid s :
  inert id s (onConnection cid s).1 (onConnection cid s).2.
Proof.
  unfold onConnection. cbn [fst snd].
  apply inert_same; [done | done | by apply benign_send].
Qed.

Lemma fireTimer_inert id now tid s :
  ~ retry_armed id s ->
  inert id s (fireTimer now tid s).1 (fireTimer now tid s).2.
Proof.
  intros Hq. unfold fireTimer.
  destruct (timers s !! tid) as [[d body] |] eqn:E;
    [| by apply inert_same; [| | apply benign_nil]].
  assert (inert id s (clearTimeout tid s) []) as Hc
    by (apply inert_same; [apply delete_subseteq | done | apply benign_nil]).
  destruct body as [m ws c n | role c].
  - assert (m_id m <> id) as Hne.
    { intros Hm. apply Hq. by exists tid, d, m, ws, c, n. }
    unfold retryFired.
    match goal with
    | |- context [validateExtensionClients now m ws c (n + 1) ?s2] =>
        pose proof (validate_inert id now m ws c (n + 1) s2 Hne) as Hv
    end.
    apply (inert_trans id s (clearTimeout tid s) _ [] _ Hc).
    destruct Hv as (T & P & O). split; [exact T |]. split; [exact P | exact O].
  - cbn [fst snd]. rewrite <- (app_nil_r []).
    apply (inert_trans id s (clearTimeout tid s) _ [] [] Hc).
    unfold pongTimeoutFired.
    destruct (OMap.get (clients role (clearTimeout tid s)) c) as [cd |];
      [| by apply inert_same; [| | apply benign_nil]].
    destruct (_ && _); [| by apply inert_same; [| | apply benign_nil]].
    match goal with
    | |- context [set_clients role ?f ?s0] =>
        destruct (timers_set_clients role f s0) as (Ht & Hp & _)
    end.
    apply inert_same; simpl; rewrite ?Ht, ?Hp; try reflexivity.
    apply benign_nil.
Qed.

(** One event that does not submit [id], while no retry of [id] is armed. *)
Lemma step_answers id now e s :
  ~ retry_armed id s -> ~ submits id e s ->
  let r := step now e s in
  ~ retry_armed id r.1 /\
  (pendingRequests s !! id = None ->
   pendingRequests r.1 !! id = None /\ filter (answers id) r.2 = []) /\
  length (filter (answers id) r.2) <= 1 /\
  (filter (answers id) r.2 <> [] -> pendingRequests r.1 !! id = None).
Proof.
  intros Hq Hs.
  assert (forall s' out, inert id s s' out ->
            ~ retry_armed id s' /\
            (pendingRequests s !! id = None ->
             pendingRequests s' !! id = None /\ filter (answers id) out = []) /\
            length (filter (answers id) out) <= 1 /\
            (filter (answers id) out <> [] ->
             pendingRequests s' !! id = None)) as Hinert.
  { intros s' out (T & P & O). pose proof (benign_filter id out O) as Hf.
    split; [by eapply quiet_inert |]. rewrite Hf.
    split; [by auto |]. split; [simpl; lia | done]. }
  destruct e as [cid | ws cid frame | ws cid | | tid]; cbv zeta; cbn [step].
  - apply Hinert, onConnection_inert.
  - destruct frame as [| | role | m]; unfold onMessage.
    + apply Hinert, handlePongResponse_inert.
    + apply Hinert. apply inert_same; [done | done |]. by apply benign_send.
    + apply Hinert, handleClientIdentification_inert.
    + destruct (sockets s !! ws ≫= clientType) as [[|] |] eqn:E.
      * assert (m_id m <> id) as Hne by (intros Hm; apply Hs; by split).
        destruct (_ && _);
          [apply Hinert; by apply handleXfetchRequest_inert |].
        apply Hinert. by apply inert_same; [| | apply benign_nil].
      * pose proof (handleExtensionResponse_answers now ws m cid s id) as Ha.
        pose proof (handleExtensionResponse_keeps_absent now ws m cid s id)
          as Hk.
        pose proof (handleExtensionResponse_forgets now ws m cid s) as Hf.
        pose proof (handleExtensionResponse_timers now ws m cid s) as Ht.
        destruct (handleExtensionResponse now ws m cid s) as [s' out].
        cbn [fst snd] in *.
        split.
        { apply (quiet_inert id s s'); [| exact Hq].
          apply no_new_retry_subset. by rewrite Ht. }
        split.
        { intros Hn. split; [by apply Hk |]. rewrite Hn in Ha.
          destruct (filter (answers id) out); [reflexivity |].
          simpl in Ha. destruct (decide (m_id m = id)); lia. }
        split.
        { destruct (decide (m_id m = id)); [| lia].
          destruct (pendingRequests s !! id); lia. }
        intros Hne. destruct (decide (m_id m = id)) as [<- | Hd];
          [exact Hf |].
        destruct (filter (answers id) out); [done | simpl in Ha; lia].
      * apply Hinert. by apply inert_same; [| | apply benign_nil].
  - apply Hinert, onClose_inert.
  - apply Hinert, heartbeatTick_inert.
  - apply Hinert. by apply fireTimer_inert.
Qed.

Lemma run_without_entry id es : forall s,
  ~ retry_armed id s -> never_submitted id es s ->
  pendingRequests s !! id = None ->
  filter (answers id) (run es s).2 = [].
Proof.
  induction es as [| [now e] es IH]; intros s Hq Hs Hn; [reflexivity |].
  destruct Hs as [Hs Hrest]. simpl.
  destruct (step_answers id now e s Hq Hs) as (Hq' & Hp & _ & _).
  destruct (Hp Hn) as [Hn' Hf].
  destruct (step now e s) as [s1 o1]. cbn [fst snd] in *.
  specialize (IH s1 Hq' Hrest Hn').
  destruct (run es s1) as [s2 o2]. cbn [fst snd] in *.
  by rewrite filter_app, Hf, IH.
Qed.

Lemma run_at_most_one id es : forall s,
  ~ retry_armed id s -> never_submitted id es s ->
  length (filter (answers id) (run es s).2) <= 1.
Proof.
  induction es as [| [now e] es IH]; intros s Hq Hs; [simpl; lia |].
  destruct Hs as [Hs Hrest]. simpl.
  destruct (step_answers id now e s Hq Hs) as (Hq' & _ & Hl & Hf).
  pose proof (run_without_entry id es (step now e s).1 Hq' Hrest) as Hw.
  specialize (IH (step now e s).1 Hq' Hrest).
  destruct (step now e s) as [s1 o1]. cbn [fst snd] in *.
  destruct (run es s1) as [s2 o2]. cbn [fst snd] in *.
  rewrite filter_app, length_app.
  destruct (filter (answers id) o1) as [| x l] eqn:E; [simpl; lia |].
  rewrite (Hw (Hf ltac:(discriminate))). simpl in *. lia.
Qed.

(** *** From the submission on *)

Lemma answers_to_answers id ws o :
  answers_to id ws o -> answers id o.
Proof. unfold answers_to. intros H. by apply andb_prop_elim in H as [_ H]. Qed.

Lemma filter_answers_to_le id ws out :
  length (filter (answers_to id ws) out) <= length (filter (answers id) out).
Proof.
  induction out as [| o out IH]; [done |].
  rewrite !filter_cons.
  destruct (decide (answers_to id ws o)) as [H | H].
  - apply answers_to_answers in H.
    destruct (decide (answers id o)); [simpl; lia | contradiction].
  - destruct (decide (answers id o)); simpl; lia.
Qed.

Lemma filter_answers_to_nil id ws out :
  filter (answers id) out = [] -> filter (answers_to id ws) out = [].
Proof.
  intros H. pose proof (filter_answers_to_le id ws out) as Hle.
  rewrite H in Hle. destruct (filter (answers_to id ws) out); [reflexivity |].
  simpl in Hle. lia.
Qed.

Lemma answers_to_send id ws s w f :
  length (filter (answers_to id ws) (send s w f)) <= 1.
Proof.
  unfold send. destruct (isOpen s w); [| simpl; lia].
  rewrite filter_cons, filter_nil. destruct (decide _); simpl; lia.
Qed.

Lemma one_retry_quiet id s : ~ retry_armed id s -> one_retry id s.
Proof.
  intros Hq tid tid' d d' m m' w w' c c' n n' Ht Hm _ _.
  exfalso. apply Hq. by exists tid, d, m, w, c, n.
Qed.

Lemma one_retry_inert id s s' :
  no_new_retry id s s' -> one_retry id s -> one_retry id s'.
Proof.
  intros Hn Ho tid tid' d d' m m' w w' c c' n n' Ht Hm Ht' Hm'.
  eapply Ho; [by apply Hn | exact Hm | by apply Hn | exact Hm'].
Qed.

(** The executor that is selected is in the registry. *)
Lemma bestExtension_registered ws s c :
  not_executor ws s -> bestExtension s = Some c -> c <> ws.
Proof.
  intros Hne Hb. pose proof (bestExtension_spec s) as Hs. rewrite Hb in Hs.
  destruct Hs as (i & k & d & Hi & <- & _).
  exact (proj1 (Forall_lookup _ _) Hne i (k, d) Hi).
Qed.

(** One attempt at the selection for [id], made while no retry of [id] is
    armed: either it sends nothing that carries [id] to [wsr], or it sends
    one frame at most and [id] is then neither in flight nor awaited. *)
Lemma validate_verdict id wsr now m w c n s :
  m_id m = id -> ~ retry_armed id s -> not_executor wsr s ->
  let r := validateExtensionClients now m w c n s in
  one_retry id r.1 /\
  (filter (answers_to id wsr) r.2 = [] \/
   (length (filter (answers_to id wsr) r.2) <= 1 /\
    ~ retry_armed id r.1 /\ pendingRequests r.1 !! id = None)).
Proof.
  intros Hm Hq Hne. cbv zeta.
  assert (forall s' : State, timers s' ⊆ timers s -> ~ retry_armed id s')
    as Hquiet.
  { intros s' Hsub. apply (quiet_inert id s s'); [| exact Hq].
    by apply no_new_retry_subset. }
  assert (forall (s' : State) out,
            timers s' = timers s ->
            pendingRequests s' = delete (m_id m) (pendingRequests s) ->
            length (filter (answers_to id wsr) out) <= 1 ->
            one_retry id s' /\
            (filter (answers_to id wsr) out = [] \/
             (length (filter (answers_to id wsr) out) <= 1 /\
              ~ retry_armed id s' /\ pendingRequests s' !! id = None)))
    as Hend.
  { intros s' out Ht Hp Hl.
    assert (~ retry_armed id s') as Hq' by (apply Hquiet; by rewrite Ht).
    split; [by apply one_retry_quiet |]. right.
    split; [exact Hl |]. split; [exact Hq' |].
    rewrite Hp, <- Hm. apply lookup_delete_eq. }
  unfold validateExtensionClients.
  destruct ((length (clients_extension s) =? 0) && (n <? 3)).
  - split; [| by left].
    set (s1 := match pendingRequestsQueue s !! m_id m with
               | Some existingQueueItem =>
                   clearTimeout (q_timeoutId existingQueueItem) s
               | None => s
               end).
    assert (~ retry_armed id s1) as Hq1.
    { apply Hquiet. subst s1.
      destruct (pendingRequestsQueue s !! m_id m); [apply delete_subseteq | done]. }
    intros tid tid' d d' m1 m1' w1 w1' c1 c1' n1 n1' Ht Hm1 Ht' Hm1'.
    cbn in Ht, Ht'. rewrite lookup_insert in Ht, Ht'.
    destruct (decide (nextTimer s1 = tid)) as [<- | Hd];
      destruct (decide (nextTimer s1 = tid')) as [<- | Hd'];
      [reflexivity | exfalso; apply Hq1 | exfalso; apply Hq1
       | exfalso; apply Hq1].
    + by exists tid', d', m1', w1', c1', n1'.
    + by exists tid, d, m1, w1, c1, n1.
    + by exists tid, d, m1, w1, c1, n1.
  - destruct ((length (clients_extension s) =? 0) && (3 <=? n)).
    + apply Hend; [done | done | apply answers_to_send].
    + destruct (0 <? length (clients_extension s)).
      * unfold sendToExtension.
        destruct (length (clients_extension s) =? 0); cbn [negb fst snd].
        { apply Hend; [done | done | apply answers_to_send]. }
        destruct (bestExtension s) as [best |] eqn:Hb; cbn [negb fst snd].
        2:{ apply Hend; [done | done | apply answers_to_send]. }
        destruct (isOpen s best); cbn [negb fst snd].
        { split; [by apply one_retry_quiet |]. left.
          rewrite filter_cons_False; [reflexivity |].
          unfold answers_to. cbn [fst snd].
          rewrite bool_decide_eq_false_2; [tauto |].
          by apply (bestExtension_registered wsr s). }
        apply Hend; [done | done | apply answers_to_send].
      * apply Hend; [done | done | apply answers_to_send].
Qed.

Lemma handleExtensionResponse_inert id now ws m c s :
  m_id m <> id ->
  inert id s (handleExtensionResponse now ws m c s).1
    (handleExtensionResponse now ws m c s).2.
Proof.
  intros Hne. split; [| split].
  - apply no_new_retry_subset.
    by rewrite handleExtensionResponse_timers.
  - apply handleExtensionResponse_keeps_absent.
  - rewrite handleExtensionResponse_out.
    destruct (pendingRequests s !! m_id m) as [pr |]; [| apply benign_nil].
    destruct (isOpen s (pr_client pr)); [| apply benign_nil].
    repeat constructor. by apply answers_message.
Qed.

(** A timer that is not a retry of [id] fires. *)
Lemma fireTimer_inert_other id now tid s :
  (forall d m w c n,
     timers s !! tid = Some (d, RetryValidate m w c n) -> m_id m <> id) ->
  inert id s (fireTimer now tid s).1 (fireTimer now tid s).2.
Proof.
  intros Hother. unfold fireTimer.
  destruct (timers s !! tid) as [[d body] |] eqn:E;
    [| by apply inert_same; [| | apply benign_nil]].
  assert (inert id s (clearTimeout tid s) []) as Hc
    by (apply inert_same; [apply delete_subseteq | done | apply benign_nil]).
  destruct body as [m ws c n | role c].
  - pose proof (Hother d m ws c n eq_refl) as Hne.
    unfold retryFired.
    match goal with
    | |- context [validateExtensionClients now m ws c (n + 1) ?s2] =>
        pose proof (validate_inert id now m ws c (n + 1) s2 Hne) as Hv
    end.
    apply (inert_trans id s (clearTimeout tid s) _ [] _ Hc).
    destruct Hv as (T & P & O). split; [exact T |]. split; [exact P | exact O].
  - cbn [fst snd]. rewrite <- (app_nil_r []).
    apply (inert_trans id s (clearTimeout tid s) _ [] [] Hc).
    unfold pongTimeoutFired.
    destruct (OMap.get (clients role (clearTimeout tid s)) c) as [cd |];
      [| by apply inert_same; [| | apply benign_nil]].
    destruct (_ && _); [| by apply inert_same; [| | apply benign_nil]].
    match goal with
    | |- context [set_clients role ?f ?s0] =>
        destruct (timers_set_clients role f s0) as (Ht & Hp & _)
    end.
    apply inert_same; simpl; rewrite ?Ht, ?Hp; try reflexivity.
    apply benign_nil.
Qed.

(** What one selection for [id] leaves to the rest of the run. *)
Lemma after_verdict id ws (s1 : State) (o1 o2 : list Out) :
  (one_retry id s1 -> length (filter (answers_to id ws) o2) <= 1) ->
  (~ retry_armed id s1 -> pendingRequests s1 !! id = None ->
   filter (answers id) o2 = []) ->
  one_retry id s1 /\
  (filter (answers_to id ws) o1 = [] \/
   (length (filter (answers_to id ws) o1) <= 1 /\
    ~ retry_armed id s1 /\ pendingRequests s1 !! id = None)) ->
  length (filter (answers_to id ws) (o1 ++ o2)) <= 1.
Proof.
  intros Hgo Hstop (Ho & [Hnil | (Hl & Hq & Hn)]);
    rewrite filter_app, length_app.
  - rewrite Hnil. simpl. by apply Hgo.
  - rewrite (filter_answers_to_nil id ws o2 (Hstop Hq Hn)). simpl. lia.
Qed.

(** The run after the submission of [id]. *)
Lemma run_after_submission id ws es : forall s,
  one_retry id s -> never_submitted id es s -> orderly id ws es s ->
  length (filter (answers_to id ws) (run es s).2) <= 1.
Proof.
  induction es as [| [now e] es IH]; intros s Ho Hs Hord; [simpl; lia |].
  pose proof Hs as [Hs1 Hrest]. destruct Hord as (Hresp & Hne & Hord).
  assert (forall s1 o1,
            step now e s = (s1, o1) -> inert id s s1 o1 ->
            length (filter (answers_to id ws) (run ((now, e) :: es) s).2) <= 1)
    as Hinert.
  { intros s1 o1 E (T & _ & O). cbn [run]. rewrite E in *.
    cbn [fst] in Hrest, Hord.
    specialize (IH s1 (one_retry_inert id s s1 T Ho) Hrest Hord).
    destruct (run es s1) as [s2 o2]. cbn [fst snd] in *.
    rewrite filter_app, length_app.
    rewrite (filter_answers_to_nil id ws o1 (benign_filter id o1 O)).
    simpl. exact IH. }
  assert (~ retry_armed id s ->
          length (filter (answers_to id ws) (run ((now, e) :: es) s).2) <= 1)
    as Hquiet.
  { intros Hq. etransitivity; [apply filter_answers_to_le |].
    by apply run_at_most_one. }
  destruct e as [cid | w cid frame | w cid | | tid].
  - apply (Hinert _ _ (surjective_pairing _)), onConnection_inert.
  - destruct frame as [| | role | m].
    + apply (Hinert _ _ eq_refl), handlePongResponse_inert.
    + apply (Hinert _ _ eq_refl).
      apply inert_same; [done | done |]. by apply benign_send.
    + apply (Hinert _ _ (surjective_pairing _)).
      apply handleClientIdentification_inert.
    + destruct (sockets s !! w ≫= clientType) as [[|] |] eqn:E.
      * assert (m_id m <> id) as Hd by (intros Hm; apply Hs1; by split).
        apply (Hinert _ _ (surjective_pairing _)).
        cbn [step onMessage]. rewrite E.
        destruct (_ && _); [by apply handleXfetchRequest_inert |].
        by apply inert_same; [| | apply benign_nil].
      * destruct (decide (m_id m = id)) as [Hm | Hd].
        { apply Hquiet, Hresp. by split. }
        apply (Hinert _ _ (surjective_pairing _)).
        cbn [step onMessage]. rewrite E.
        by apply handleExtensionResponse_inert.
      * apply (Hinert _ _ (surjective_pairing _)).
        cbn [step onMessage]. rewrite E.
        by apply inert_same; [| | apply benign_nil].
  - apply (Hinert _ _ (surjective_pairing _)), onClose_inert.
  - apply (Hinert _ _ (surjective_pairing _)), heartbeatTick_inert.
  - destruct (timers s !! tid) as [[d body] |] eqn:E.
    2:{ apply (Hinert _ _ (surjective_pairing _)).
        apply fireTimer_inert_other. intros d m w c n H. congruence. }
    destruct body as [m w c n | role c].
    2:{ apply (Hinert _ _ (surjective_pairing _)).
        apply fireTimer_inert_other. intros d' m w c' n H. congruence. }
    destruct (decide (m_id m = id)) as [Hm | Hd].
    2:{ apply (Hinert _ _ (surjective_pairing _)).
        apply fireTimer_inert_other. intros d' m' w' c' n' H.
        rewrite E in H. by injection H as _ <- _ _ _. }
    cbn [run step] in *. unfold fireTimer in *. rewrite E in *.
    unfold retryFired in *.
    set (s0 := set_queue (delete (m_id m)) (clearTimeout tid s)) in *.
    assert (~ retry_armed id s0) as Hq0.
    { intros (t & d' & m' & w' & c' & n' & Ht & Hm').
      cbn in Ht. rewrite lookup_delete in Ht.
      destruct (decide (tid = t)) as [-> | Hdt]; [discriminate Ht |].
      apply Hdt. exact (Ho tid t d d' m m' w w' c c' n n' E Hm Ht Hm'). }
    pose proof (validate_verdict id ws now m w c (n + 1) s0 Hm Hq0 Hne) as Hv.
    cbv zeta in Hv.
    destruct (validateExtensionClients now m w c (n + 1) s0) as [s1 o1].
    cbn [fst snd] in *.
    pose proof (run_without_entry id es s1) as Hw.
    specialize (IH s1).
    destruct (run es s1) as [s2 o2]. cbn [fst snd] in *.
    apply (after_verdict id ws s1 o1 o2); [| | exact Hv].
    + intros Ho1. by apply IH.
    + intros Hq1 Hn1. by apply Hw.
Qed.

(** The run from a state in which [id] is unknown. *)
Lemma run_from_submission id ws es : forall s,
  pendingRequests s !! id = None -> ~ retry_armed id s ->
  submitted_once id es s -> orderly id ws es s ->
  length (filter (answers_to id ws) (run es s).2) <= 1.
Proof.
  induction es as [| [now e] es IH]; intros s Hn Hq Hs Hord; [simpl; lia |].
  destruct Hord as (_ & Hne & Hord).
  destruct Hs as [[Hs Hrest] | [Hs Hrest]].
  - destruct (step_answers id now e s Hq Hs) as (Hq' & Hp & _ & _).
    destruct (Hp Hn) as [Hn' Hf]. cbn [run].
    specialize (IH (step now e s).1 Hn' Hq' Hrest Hord).
    destruct (step now e s) as [s1 o1]. cbn [fst snd] in *.
    destruct (run es s1) as [s2 o2]. cbn [fst snd] in *.
    rewrite filter_app, length_app, (filter_answers_to_nil id ws o1 Hf).
    simpl. exact IH.
  - destruct e as [cid | w cid [| | role | m] | w cid | | tid];
      try contradiction.
    destruct Hs as [Hm Hrole].
    cbn [run step onMessage] in *. rewrite Hrole in *.
    destruct (Js.truthy (m_url m) && Js.truthy (m_options m)).
    + unfold handleXfetchRequest in *.
      match goal with
      | |- context [validateExtensionClients now m w cid 0 ?s2] =>
          set (s0 := s2) in *
      end.
      pose proof (validate_verdict id ws now m w cid 0 s0 Hm Hq Hne) as Hv.
      cbv zeta in Hv.
      destruct (validateExtensionClients now m w cid 0 s0) as [s1 o1].
      cbn [fst snd] in *.
      pose proof (run_without_entry id es s1) as Hw.
      pose proof (run_after_submission id ws es s1) as Ha.
      destruct (run es s1) as [s2 o2]. cbn [fst snd] in *.
      apply (after_verdict id ws s1 o1 o2); [| | exact Hv].
      * intros Ho1. by apply Ha.
      * intros Hq1 Hn1. by apply Hw.
    + cbn [fst snd] in *.
      pose proof (run_without_entry id es s Hq Hrest Hn) as Hw.
      destruct (run es s) as [s2 o2]. cbn [fst snd app] in *.
      rewrite (filter_answers_to_nil id ws o2 Hw). simpl. lia.
Qed.

(** C1, as amended.  An executor response whose id has no in-flight entry
    sends nothing and changes neither the tables of requests, the timers,
    the sockets, the statistics nor any counter: its one effect is the new
    [lastActivity] of the executor that sent it.  When the entry exists the
    response is forwarded, verbatim, to the socket of the requester if that
    socket is open, to nobody otherwise, and the entry is removed in the
    same step.  Hence a run of executor responses, from any state, forwards
    at most one frame for a request id, and so does any run of events of the
    broker in which the id is not submitted, from a state in which no retry
    of the id is armed.  And for a request id that the broker does not know
    yet (not in flight, no retry armed), in any run of events of the broker
    in which the id is submitted once at most - the run goes through the
    submission, the wait in the queue, the retries, the selection of an
    executor and what follows - at most one frame that carries the id is
    sent to a socket [ws], provided that throughout the run no executor
    answers the id while a retry of the id is armed and [ws] is not
    registered as an executor. *)
Theorem executor_response_delivered_at_most_once
    (now : Time) (ws : ClientId) (message : Message) (clientId : ClientId)
    (s : State) :
  let r := handleExtensionResponse now ws message clientId s in
  match pendingRequests s !! m_id message with
  | None =>
      r.2 = [] /\
      pendingRequests r.1 = pendingRequests s /\
      pendingRequestsQueue r.1 = pendingRequestsQueue s /\
      timers r.1 = timers s /\ sockets r.1 = sockets s /\
      stats r.1 = stats s /\ clients_xfetch r.1 = clients_xfetch s /\
      clients_extension r.1
      = OMap.alter (cd_touch now) (clients_extension s) clientId
  | Some pendingRequest =>
      r.2 = (if isOpen s (pr_client pendingRequest)
             then [(pr_client pendingRequest, FMessage message)] else []) /\
      pendingRequests r.1 = delete (m_id message) (pendingRequests s)
  end /\
  pendingRequests r.1 !! m_id message = None /\
  (forall rs s0 id,
     length (filter (answers id) (handleExtensionResponses rs s0).2) <= 1) /\
  (forall es s0 id,
     ~ retry_armed id s0 -> never_submitted id es s0 ->
     length (filter (answers id) (run es s0).2) <= 1) /\
  (forall es s0 id requester,
     pendingRequests s0 !! id = None -> ~ retry_armed id s0 ->
     submitted_once id es s0 -> orderly id requester es s0 ->
     length (filter (answers_to id requester) (run es s0).2) <= 1).
Proof.
  intros r. subst r. split; [| split].
  - pose proof (handleExtensionResponse_out now ws message clientId s) as Ho.
    pose proof (handleExtensionResponse_pending now ws message clientId s) as Hp.
    destruct (pendingRequests s !! m_id message) as [pr |] eqn:E.
    + by split.
    + split; [exact Ho |]. unfold handleExtensionResponse. simpl.
      rewrite E. by repeat split.
  - apply handleExtensionResponse_forgets.
  - split; [intros rs s0 id; apply at_most_one_answer |].
    split; [intros es s0 id; apply run_at_most_one |].
    intros es s0 id requester. apply run_from_submission.
Qed.

(** C1, as stated, fails: a response for an id that is not in flight leaves
    a trace in the state, the time of last activity of the executor. *)
Lemma late_response_changes_state :
  pendingRequests BrokerScenario.bothConnected !! "r1" = None /\
  (handleExtensionResponse 99%N 2 BrokerScenario.r1_response 2
     BrokerScenario.bothConnected).1
  <> BrokerScenario.bothConnected.
Proof.
  split; [reflexivity |]. intros H.
  apply (f_equal (fun s => lastActivity <$> OMap.get (clients_extension s) 2)) in H.
  vm_compute in H. discriminate H.
Qed.

(** The hypothesis on the retries is needed: a response that arrives while
    the request is still queued is forwarded, and the retries of the request
    end with the error frame all the same; both frames go to the
    requester. *)
Lemma unasked_response_then_error_frame :
  filter (answers "r1")
    (run BrokerScenario.unaskedResponse BrokerScenario.requesterConnected).2
  = [(1, FMessage BrokerScenario.r1_response);
     (1, FError "r1" no_extension_error)].
Proof. vm_compute. reflexivity. Qed.

(** So is the hypothesis on the submissions: an id that is submitted again
    after its answer is answered again. *)
Lemma resubmitted_id_is_answered_again :
  filter (answers_to "r1" 1)
    (run BrokerScenario.resubmitted BrokerScenario.bothConnected).2
  = [(1, FMessage BrokerScenario.r1_response);
     (1, FMessage BrokerScenario.r1_response)].
Proof. vm_compute. reflexivity. Qed.

(** And the one on the registry: a requester whose socket is also in the
    registry of executors is sent its own request, and then the answer. *)
Lemma own_executor_receives_its_request :
  filter (answers_to "r1" 1)
    (run BrokerScenario.ownExecutor BrokerScenario.initial).2
  = [(1, FMessage BrokerScenario.r1);
     (1, FMessage BrokerScenario.r1_response)].
Proof. vm_compute. reflexivity. Qed.

(** ** Requests without an executor *)

Lemma validate_awaits now m ws cid count s :
  clients_extension s = [] -> count < 3 ->
  let r := validateExtensionClients now m ws cid count s in
  r.2 = [] /\ awaits_retry m ws cid count r.1 /\
  pendingRequests r.1 = pendingRequests s /\ sockets r.1 = sockets s.
Proof.
  intros Hext Hc. unfold validateExtensionClients. rewrite Hext.
  assert ((count <? 3) = true) as -> by (apply Nat.ltb_lt; lia).
  simpl.
  destruct (pendingRequestsQueue s !! m_id m) as [old |]; simpl;
    (split; [reflexivity |]; split; [| by split];
     split; [exact Hext |]; eexists; split;
     [apply lookup_insert_eq | simpl; apply lookup_insert_eq]).
Qed.

Lemma validate_gives_up now m ws cid count s :
  clients_extension s = [] -> 3 <= count ->
  let r := validateExtensionClients now m ws cid count s in
  r.2 = send s ws (FError (m_id m) no_extension_error) /\
  pendingRequestsQueue r.1 !! m_id m = None /\
  pendingRequests r.1 !! m_id m = None /\
  timers r.1 = timers s /\ stats r.1 = count_failed (stats s).
Proof.
  intros Hext Hc. unfold validateExtensionClients. rewrite Hext.
  assert ((count <? 3) = false) as -> by (apply Nat.ltb_ge; lia).
  assert ((3 <=? count) = true) as -> by (apply Nat.leb_le; lia).
  simpl. repeat split; apply lookup_delete_eq.
Qed.

Lemma fireQueued_awaits now m ws cid count s :
  awaits_retry m ws cid count s ->
  exists item,
    pendingRequestsQueue s !! m_id m = Some item /\
    fireQueued now (m_id m) s
    = retryFired now m ws cid count (clearTimeout (q_timeoutId item) s).
Proof.
  intros (_ & item & Hq & Ht). exists item. split; [exact Hq |].
  unfold fireQueued. rewrite Hq. unfold fireTimer. by rewrite Ht.
Qed.

Lemma fireQueuedAt_awaits m ws cid ticks : forall count s,
  awaits_retry m ws cid count s -> count + length ticks < 3 ->
  let r := fireQueuedAt ticks (m_id m) s in
  r.2 = [] /\ awaits_retry m ws cid (count + length ticks) r.1 /\
  pendingRequests r.1 = pendingRequests s /\ sockets r.1 = sockets s.
Proof.
  induction ticks as [| now ticks IH]; intros count s Hw Hc; simpl in *.
  - rewrite Nat.add_0_r. split; [reflexivity |]. split; [exact Hw |].
    by split.
  - destruct (fireQueued_awaits now m ws cid count s Hw) as (item & Hq & ->).
    unfold retryFired.
    pose proof (validate_awaits now m ws cid (count + 1)
                  (set_queue (delete (m_id m))
                     (clearTimeout (q_timeoutId item) s))) as Hv.
    destruct Hw as [Hext _]. specialize (Hv Hext ltac:(lia)). simpl in Hv.
    destruct (validateExtensionClients _ _ _ _ _ _) as [s1 o1].
    simpl in Hv. destruct Hv as (-> & Hw1 & Hp1 & Hs1).
    specialize (IH (count + 1) s1 Hw1 ltac:(lia)). simpl in IH.
    destruct (fireQueuedAt ticks (m_id m) s1) as [s2 o2]. simpl in *.
    destruct IH as (-> & Hw2 & Hp2 & Hs2).
    replace (count + S (length ticks)) with (count + 1 + length ticks) by lia.
    split; [reflexivity |]. split; [exact Hw2 |]. split; congruence.
Qed.


Lemma handleXfetchRequest_awaits now ws m cid s :
  clients_extension s = [] ->
  let r := handleXfetchRequest now ws m cid s in
  r.2 = [] /\ awaits_retry m ws cid 0 r.1 /\
  is_Some (pendingRequests r.1 !! m_id m) /\ sockets r.1 = sockets s.
Proof.
  intros Hext. unfold handleXfetchRequest.
  match goal with
  | |- context [validateExtensionClients now m ws cid 0 ?s2] =>
      pose proof (validate_awaits now m ws cid 0 s2 Hext ltac:(lia)) as Hv
  end.
  simpl in Hv. destruct Hv as (Ho & Hw & Hp & Hs).
  split; [exact Ho |]. split; [exact Hw |]. split; [| exact Hs].
  rewrite Hp. simpl. rewrite lookup_insert_eq. by eexists.
Qed.






(** ** The two tables of requests *)

Lemma validate_with_executor now m ws cid count s :
  clients_extension s <> [] ->
  let r := validateExtensionClients now m ws cid count s in
  if (sendToExtension m s).1
  then r.1 = s
  else pendingRequestsQueue r.1 !! m_id m = None
       /\ pendingRequests r.1 !! m_id m = None.
Proof.
  intros Hext. unfold validateExtensionClients.
  destruct (clients_extension s) as [| x l] eqn:E; [done |].
  cbn [length Nat.eqb Nat.ltb Nat.leb andb].
  destruct (sendToExtension m s) as [[|] out]; simpl; [reflexivity |].
  split; apply lookup_delete_eq.
Qed.

(** C3, as amended.  A request submitted while no executor is registered
    is in the in-flight table, where submission puts it first, and in the
    queued table as well, and it is still in both after each of its first
    two retries.  A request that has been handed to an executor has no
    queued entry and keeps its in-flight entry: at submission nothing is
    queued, and the retry timer removes the queued entry before the request
    is sent.  When the hand-over fails, or when the retry ceiling is
    reached, the request leaves both tables. *)
Theorem queued_request_is_also_in_flight
    (now : Time) (ws : ClientId) (message : Message) (clientId : ClientId)
    (count : nat) (s : State) :
  (clients_extension s = [] ->
   forall ticks, length ticks < 3 ->
     let r :=
       fireQueuedAt ticks (m_id message)
         (handleXfetchRequest now ws message clientId s).1 in
     is_Some (pendingRequests r.1 !! m_id message) /\
     is_Some (pendingRequestsQueue r.1 !! m_id message)) /\
  (clients_extension s <> [] ->
   let r := handleXfetchRequest now ws message clientId s in
   let q := retryFired now message ws clientId count s in
   if (sendToExtension message s).1 then
     pendingRequestsQueue r.1 = pendingRequestsQueue s /\
     is_Some (pendingRequests r.1 !! m_id message) /\
     pendingRequestsQueue q.1 !! m_id message = None /\
     pendingRequests q.1 = pendingRequests s
   else
     pendingRequestsQueue r.1 !! m_id message = None /\
     pendingRequests r.1 !! m_id message = None /\
     pendingRequestsQueue q.1 !! m_id message = None /\
     pendingRequests q.1 !! m_id message = None) /\
  (clients_extension s = [] -> 3 <= count ->
   let r := validateExtensionClients now message ws clientId count s in
   pendingRequestsQueue r.1 !! m_id message = None /\
   pendingRequests r.1 !! m_id message = None).
Proof.
  split; [| split].
  - intros Hext ticks Hl.
    destruct (handleXfetchRequest_awaits now ws message clientId s Hext)
      as (_ & Hw & Hp & _).
    destruct (fireQueuedAt_awaits message ws clientId ticks 0 _ Hw
                ltac:(simpl; lia)) as (_ & (_ & item & Hq & _) & Hp' & _).
    cbv zeta. split; [by rewrite Hp' | by exists item].
  - intros Hext r q. subst r q. unfold handleXfetchRequest, retryFired.
    match goal with
    | |- context [validateExtensionClients now message ws clientId 0 ?s2] =>
        pose proof (validate_with_executor now message ws clientId 0 s2 Hext)
          as Hr;
        change (sendToExtension message s2) with (sendToExtension message s)
          in Hr
    end.
    match goal with
    | |- context [validateExtensionClients now message ws clientId
                    (count + 1) ?s2] =>
        pose proof (validate_with_executor now message ws clientId
                      (count + 1) s2 Hext) as Hq;
        change (sendToExtension message s2) with (sendToExtension message s)
          in Hq
    end.
    cbv zeta in Hr, Hq.
    destruct (sendToExtension message s).1.
    + rewrite Hr, Hq. simpl. rewrite lookup_insert_eq.
      split; [reflexivity |]. split; [by eexists |].
      split; [apply lookup_delete_eq | reflexivity].
    + destruct Hr as [Hr1 Hr2], Hq as [Hq1 Hq2]. by repeat split.
  - intros Hext Hc.
    destruct (validate_gives_up now message ws clientId count s Hext Hc)
      as (_ & H1 & H2 & _).
    by split.
Qed.

(** C3, as stated, fails: after its submission without executor, [r1] is
    in the in-flight table and in the queued table. *)
Lemma waiting_request_is_in_both_tables :
  let s :=
    (handleXfetchRequest 30%N 1 BrokerScenario.r1 1
       BrokerScenario.requesterConnected).1 in
  is_Some (pendingRequests s !! "r1") /\
  is_Some (pendingRequestsQueue s !! "r1").
Proof. split; eexists; reflexivity. Qed.

(** ** The health of a connection *)

(** C4 fails on the code.  An executor that is silent for three pings
    becomes critical; one pong before the next tick of the heartbeat interval
    leaves it critical but resets its count of missed heartbeats, so that
    the tick does not remove it; the next pong timeout then makes it
    degraded, and a pong after that healthy. *)
Theorem critical_reverts_to_degraded :
  let s0 := BrokerScenario.executorConnected in
  let s1 := (run BrokerScenario.silentExecutor s0).1 in
  let s2 := (step 14500%N (Received 2 2 IPong) s1).1 in
  let s3 := (run BrokerScenario.latePongThenSilence s1).1 in
  let s4 := (step 20500%N (Received 2 2 IPong) s3).1 in
  healthOf extension 2 s0 = Some healthy /\
  healthOf extension 2 s1 = Some critical /\
  healthOf extension 2 s2 = Some critical /\
  missedHeartbeats <$> OMap.get (clients_extension s2) 2 = Some 0 /\
  healthOf extension 2 s3 = Some degraded /\
  healthOf extension 2 s4 = Some healthy.
Proof. repeat split; reflexivity. Qed.

(** The guard of [handlePongResponse] keeps a critical entry critical, and
    the reset of the count is what lets the next timeout take it back. *)
Lemma pong_keeps_critical now d :
  healthStatus d = critical ->
  missedHeartbeats d = 0 \/ HEARTBEAT_maxMissed <= missedHeartbeats d ->
  healthStatus (cd_pong now d) = critical
  /\ missedHeartbeats (cd_pong now d) = 0.
Proof.
  intros Hh Hm. unfold cd_pong, HEARTBEAT_maxMissed in *. simpl.
  split; [| reflexivity].
  destruct Hm as [-> | Hm]; [by simpl |].
  assert ((missedHeartbeats d <? 3) = false) as -> by (apply Nat.ltb_ge; lia).
  by rewrite andb_false_r.
Qed.

(** As long as no further ping is sent, pongs and timeouts leave a critical
    entry critical: the timeouts that fire find [awaitingPong] false. *)
Lemma critical_stays_without_ping bs : forall d,
  forallb (fun b => negb (is_ping b)) bs = true ->
  healthStatus d = critical -> awaitingPong d = false ->
  missedHeartbeats d = 0 \/ HEARTBEAT_maxMissed <= missedHeartbeats d ->
  healthStatus (beats bs d) = critical.
Proof.
  unfold beats.
  induction bs as [| b bs IH]; intros d Hb Hh Ha Hm; [exact Hh |].
  simpl in Hb. apply andb_prop in Hb as [Hb1 Hb2]. simpl.
  destruct b as [now t | now | open]; [discriminate Hb1 | |].
  - destruct (pong_keeps_critical now d Hh Hm) as [Hh' Hm'].
    apply IH; auto.
  - simpl. rewrite Ha. simpl. by apply IH.
Qed.

(** Pings are sent every [HEARTBEAT_interval], though: after a pong, a ping
    and its timeout bring a critical entry back to degraded. *)
Lemma critical_then_pong_ping_timeout d t1 t2 timeoutId :
  beats [BeatPong t1; BeatPing t2 timeoutId; BeatTimeout true] d
  = cd_pongTimeout (cd_ping t2 timeoutId (cd_pong t1 d))
  /\ healthStatus
       (beats [BeatPong t1; BeatPing t2 timeoutId; BeatTimeout true] d)
     = degraded.
Proof. split; reflexivity. Qed.

Lemma timeout_after_reset_degrades d :
  missedHeartbeats d = 0 -> healthStatus (cd_pongTimeout d) = degraded.
Proof. intros H. unfold cd_pongTimeout. simpl. by rewrite H. Qed.

(** ** The properties at work on the scenario of the specification *)

(** With one healthy executor connected, the request goes to it. *)
Lemma sendToExtension_selects_best_witness :
  sendToExtension BrokerScenario.r1 BrokerScenario.bothConnected
  = (true, [(2, FMessage BrokerScenario.r1)]).
Proof.
  pose proof (sendToExtension_selects_best BrokerScenario.r1
                BrokerScenario.bothConnected) as (_ & _ & _ & H).
  vm_compute in H. vm_compute. exact (proj2 H).
Defined.

Lemma quiet_without_timers id s : timers s = ∅ -> ~ retry_armed id s.
Proof.
  intros H (tid & d & m & ws & c & n & Ht & _).
  rewrite H, lookup_empty in Ht. discriminate Ht.
Qed.

Lemma not_executor_decide ws s :
  forallb (fun e : ClientId * ClientData => negb (client e.2 =? ws))
    (clients_extension s) = true ->
  not_executor ws s.
Proof.
  intros H. apply Forall_forall. intros e He Heq.
  rewrite forallb_forall in H. specialize (H e (proj1 (list_elem_of_In _ _) He)).
  apply negb_true_iff, Nat.eqb_neq in H. contradiction.
Qed.

(** The answer to [r1], in flight, is forwarded to the requester, and a
    second answer is not; and the same when [r1] has first waited in the
    queue for an executor. *)
Lemma executor_response_delivered_at_most_once_witness :
  (pendingRequests BrokerScenario.inFlight !! "r1" <> None /\
   (handleExtensionResponse 40%N 2 BrokerScenario.r1_response 2
      BrokerScenario.inFlight).2
   = [(1, FMessage BrokerScenario.r1_response)]) /\
  (~ retry_armed "r1" BrokerScenario.inFlight /\
   never_submitted "r1" BrokerScenario.answeredTwice BrokerScenario.inFlight /\
   length (filter (answers "r1")
             (run BrokerScenario.answeredTwice BrokerScenario.inFlight).2)
   <= 1) /\
  (pendingRequests BrokerScenario.requesterConnected !! "r1" = None /\
   ~ retry_armed "r1" BrokerScenario.requesterConnected /\
   submitted_once "r1" BrokerScenario.queuedThenAnswered
     BrokerScenario.requesterConnected /\
   orderly "r1" 1 BrokerScenario.queuedThenAnswered
     BrokerScenario.requesterConnected /\
   length (filter (answers_to "r1" 1)
             (run BrokerScenario.queuedThenAnswered
                BrokerScenario.requesterConnected).2)
   <= 1).
Proof.
  split; [| split].
  - split; [discriminate |].
    pose proof (executor_response_delivered_at_most_once 40%N 2
                  BrokerScenario.r1_response 2 BrokerScenario.inFlight)
      as (H & _).
    vm_compute in H. vm_compute. exact (proj1 H).
  - assert (~ retry_armed "r1" BrokerScenario.inFlight) as Hq
      by (apply quiet_without_timers; by vm_compute).
    assert (never_submitted "r1" BrokerScenario.answeredTwice
              BrokerScenario.inFlight) as Hs.
    { split; [intros [_ H]; vm_compute in H; discriminate H |].
      split; [intros [_ H]; vm_compute in H; discriminate H | exact I]. }
    split; [exact Hq |]. split; [exact Hs |].
    exact (proj1 (proj2 (proj2 (proj2
             (executor_response_delivered_at_most_once
                40%N 2 BrokerScenario.r1_response 2 BrokerScenario.inFlight))))
             BrokerScenario.answeredTwice BrokerScenario.inFlight "r1" Hq Hs).
  - assert (~ retry_armed "r1" BrokerScenario.requesterConnected) as Hq
      by (apply quiet_without_timers; by vm_compute).
    assert (submitted_once "r1" BrokerScenario.queuedThenAnswered
              BrokerScenario.requesterConnected) as Hs.
    { right. split; [split; [reflexivity | by vm_compute] |].
      split; [intros [] |]. split; [intros [] |]. split; [intros [] |].
      split; [intros [_ H]; vm_compute in H; discriminate H |].
      split; [intros [_ H]; vm_compute in H; discriminate H | exact I]. }
    assert (orderly "r1" 1 BrokerScenario.queuedThenAnswered
              BrokerScenario.requesterConnected) as Ho.
    { split; [intros [_ H]; vm_compute in H; discriminate H |].
      split; [apply not_executor_decide; by vm_compute |].
      split; [intros [] |].
      split; [apply not_executor_decide; by vm_compute |].
      split; [intros [] |].
      split; [apply not_executor_decide; by vm_compute |].
      split; [intros [] |].
      split; [apply not_executor_decide; by vm_compute |].
      split; [intros _; apply quiet_without_timers; by vm_compute |].
      split; [apply not_executor_decide; by vm_compute |].
      split; [intros _; apply quiet_without_timers; by vm_compute |].
      split; [apply not_executor_decide; by vm_compute | exact I]. }
    split; [reflexivity |]. split; [exact Hq |].
    split; [exact Hs |]. split; [exact Ho |].
    exact (proj2 (proj2 (proj2 (proj2
             (executor_response_delivered_at_most_once
                40%N 2 BrokerScenario.r1_response 2 BrokerScenario.inFlight))))
             BrokerScenario.queuedThenAnswered
             BrokerScenario.requesterConnected "r1" 1 eq_refl Hq Hs Ho).
Defined.


(** [r1] without executor, with an executor, and at the retry ceiling. *)
Lemma queued_request_is_also_in_flight_witness :
  (clients_extension BrokerScenario.requesterConnected = [] /\
   is_Some (pendingRequests
              (handleXfetchRequest 30%N 1 BrokerScenario.r1 1
                 BrokerScenario.requesterConnected).1 !! "r1") /\
   is_Some (pendingRequestsQueue
              (handleXfetchRequest 30%N 1 BrokerScenario.r1 1
                 BrokerScenario.requesterConnected).1 !! "r1")) /\
  (clients_extension BrokerScenario.bothConnected <> [] /\
   pendingRequestsQueue BrokerScenario.inFlight
   = pendingRequestsQueue BrokerScenario.bothConnected /\
   is_Some (pendingRequests BrokerScenario.inFlight !! "r1")) /\
  (3 <= 3 /\
   pendingRequests
     (validateExtensionClients 6030%N BrokerScenario.r1 1 1 3
        BrokerScenario.requesterConnected).1 !! "r1" = None).
Proof.
  split; [| split].
  - split; [reflexivity |].
    exact (proj1 (queued_request_is_also_in_flight 30%N 1 BrokerScenario.r1 1
                    0 BrokerScenario.requesterConnected) eq_refl []
             ltac:(simpl; lia)).
  - split; [discriminate |].
    pose proof (proj1 (proj2 (queued_request_is_also_in_flight 30%N 1
                  BrokerScenario.r1 1 0 BrokerScenario.bothConnected))
                  ltac:(discriminate)) as H.
    cbv zeta in H.
    change (sendToExtension BrokerScenario.r1 BrokerScenario.bothConnected).1
      with true in H.
    split; [exact (proj1 H) | exact (proj1 (proj2 H))].
  - split; [lia |].
    exact (proj2 (proj2 (proj2 (queued_request_is_also_in_flight 6030%N 1
                    BrokerScenario.r1 1 3 BrokerScenario.requesterConnected))
                    eq_refl ltac:(lia))).
Defined.

End BrokerSpec.

(** * Properties of the requester client *)

Module XfetchSpec.
Import Xfetch.

(** ** Objects *)

Lemma get_set_eq o k v : Js.get (Js.set o k v) k = v.
Proof.
  unfold Js.get. induction o as [| [k' v'] o IH]; simpl.
  - by rewrite decide_True.
  - destruct (decide (k' = k)) as [-> | Hne]; simpl.
    + by rewrite decide_True.
    + by rewrite decide_False.
Qed.

Lemma get_set_ne o k k' v : k <> k' -> Js.get (Js.set o k v) k' = Js.get o k'.
Proof.
  intros Hne. unfold Js.get. induction o as [| [k0 v0] o IH]; simpl.
  - by rewrite decide_False.
  - destruct (decide (k0 = k)) as [-> | Hne0]; simpl.
    + by rewrite !decide_False.
    + destruct (decide (k0 = k')); [reflexivity | exact IH].
Qed.

Lemma pretty_N_char_digit x : Js.is_digit (pretty_N_char x) = true.
Proof. unfold pretty_N_char. by repeat case_match. Qed.

Lemma pretty_N_go_digit_head x : forall s,
  Js.digit_head s -> Js.digit_head (pretty_N_go x s).
Proof.
  induction (N.lt_wf_0 x) as [x _ IH]. intros s Hs.
  destruct (decide (x = 0)%N) as [-> | Hx].
  - by rewrite pretty_N_go_0.
  - rewrite pretty_N_go_step by lia. apply IH.
    + apply N.div_lt; lia.
    + simpl. apply pretty_N_char_digit.
Qed.

Lemma pretty_not_length (i : nat) : pretty i <> "length".
Proof.
  unfold pretty, pretty_nat, pretty, pretty_N.
  destruct (decide (N.of_nat i = 0%N)) as [_ | _]; [discriminate |].
  intros Heq. pose proof (pretty_N_go_digit_head (N.of_nat i) "" I) as Hd.
  rewrite Heq in Hd. discriminate Hd.
Qed.

Lemma getOwn_indices (cs : list Js.value) : forall g : nat -> nat,
  Js.getOwn (imap (fun i x => (pretty (g i), x)) cs) "length" = None.
Proof.
  induction cs as [| c cs IH]; intros g; simpl; [reflexivity |].
  rewrite decide_False by apply pretty_not_length.
  apply (IH (g ∘ S)).
Qed.

(** What [setCookies] stores has no [length], and reads back empty. *)
Lemma Array_from_spread_array cs : Js.Array_from (Js.spread_array cs) = [].
Proof.
  unfold Js.Array_from, Js.spread_array, Js.get.
  pose proof (getOwn_indices cs (fun i => i)) as Hlen. cbv beta in Hlen.
  by rewrite Hlen.
Qed.

(** ** The cookie store *)

Lemma getCookies_after_setCookies hostname url url' cs s s' :
  setCookies hostname url cs s = Some s' ->
  hostname url' = hostname url ->
  getCookies hostname url' s' = Some [].
Proof.
  unfold setCookies, getCookies. intros Hset ->.
  destruct (hostname url) as [domain |]; [| discriminate].
  inversion Hset; subst. simpl. rewrite lookup_insert_eq.
  by rewrite Array_from_spread_array.
Qed.

Lemma getCookies_unwritten hostname url domain s :
  hostname url = Some domain -> cookies s !! domain = None ->
  getCookies hostname url s = Some [].
Proof. unfold getCookies. by intros -> ->. Qed.

(** C7 fails on the code.  Whatever array of cookies [setCookies] is given,
    [getCookies] for the same URL returns the empty array afterwards:
    [setCookies] stores [{...cookies}], an object without [length], and
    [Array.from] of such an object is empty.  ([setCookies] raises, as
    [new URL] does, when the URL has no hostname.) *)
Theorem setCookies_then_getCookies_is_empty
    (hostname : string -> option string) (url : string)
    (cs : list Js.value) (s : State) :
  match setCookies hostname url cs s with
  | Some s' => getCookies hostname url s' = Some []
  | None => hostname url = None
  end.
Proof.
  destruct (setCookies hostname url cs s) as [s' |] eqn:E.
  - by apply (getCookies_after_setCookies hostname url url cs s s').
  - unfold setCookies in E. by destruct (hostname url).
Qed.

(** The cookie [sid=1] written for a URL of [a.test] is not read back for
    another URL of [a.test]. *)
Lemma cookie_written_is_not_read_back :
  exists s',
    setCookies XfetchScenario.hostname "https://a.test/login"
      [XfetchScenario.sid] XfetchScenario.ready = Some s' /\
    getCookies XfetchScenario.hostname "https://a.test/" s' = Some [] /\
    getCookies XfetchScenario.hostname "https://a.test/" s'
    <> Some [XfetchScenario.sid].
Proof.
  eexists. split; [reflexivity |]. split; [reflexivity | discriminate].
Qed.

(** ** Identification *)

Lemma identifyIntervalFired_sends s :
  send_error (ws s) = None ->
  identifyIntervalFired s = (set_sent (fun l => l ++ [FIdentify]) s, Normal).
Proof.
  intros Hs. unfold identifyIntervalFired, identifyCallback. simpl.
  unfold sendClientIdentification, ws_send. by rewrite Hs.
Qed.

(** The counter of the callback is 0 at every tick: the branch that rejects
    is not taken. *)
Lemma identifyIntervalFired_never_rejects s :
  settled (identifyIntervalFired s).1 = settled s
  /\ (identifyIntervalFired s).2 = Normal.
Proof.
  unfold identifyIntervalFired, identifyCallback. simpl.
  unfold sendClientIdentification, ws_send.
  destruct (send_error (ws s)); simpl; [| by split].
  by destruct (isIdentifiedTimer s).
Qed.

Lemma identify_ticks_add_nothing hostname tid n : forall s,
  send_error (ws s) = None ->
  (exists t, timers s !! tid = Some t /\ t_repeats t = true
             /\ t_body t = IdentifyInterval) ->
  settled (Nat.iter n (fun x => (fireTimer hostname tid x).1) s) = settled s.
Proof.
  induction n as [| n IH]; intros s Hs (t & Ht & Hr & Hb); [reflexivity |].
  rewrite Nat.iter_succ_r. unfold fireTimer at 2. rewrite Ht, Hr, Hb.
  rewrite identifyIntervalFired_sends by exact Hs. simpl.
  rewrite IH; [reflexivity | exact Hs | by exists t].
Qed.

(** C8 fails on the code.  A call of [fetch] is queued because the broker
    has not confirmed the identification.  The interval armed for it only
    sends the identification again; the call is rejected once, by its
    give-up timer, with another error; and no later tick of the interval
    rejects anything. *)
Theorem identification_failure_is_never_reported :
  let s := XfetchScenario.unconfirmed in
  let r :=
    fireTimers XfetchScenario.hostname XfetchScenario.identificationTicks s in
  isIdentified s = false /\
  length (requestQueue s) = 1 /\
  isIdentifiedTimer s = Some 2 /\
  r.2 = Normal /\
  settled r.1 = [(0, Rejected "No extension client available after 5000ms")] /\
  outcome 0 r.1 <> Some (Rejected identification_failed) /\
  forall n,
    settled (Nat.iter n (fun x => (fireTimer XfetchScenario.hostname 2 x).1)
               r.1)
    = settled r.1.
Proof.
  repeat split; try reflexivity; try discriminate.
  intros n. apply identify_ticks_add_nothing; [reflexivity |].
  eexists. split; [reflexivity |]. by split.
Qed.

(** ** The [options] object of a call *)

(** The state in which [_sendRequest] reaches the statement on
    [options.cookiejar]. *)
Lemma sendRequest_unfold hostname url options promise retryCount s :
  exists s4,
    heap s4 = heap s /\ cookies s4 = cookies s /\ ws s4 = ws s /\
    sent s4 = sent s /\ config s4 = config s /\
    reconnectAttempts s4 = reconnectAttempts s /\
    _sendRequest hostname url options promise retryCount s
    = match injectCookies hostname url options s4 with
      | None => (s4, Throw invalid_url)
      | Some s5 =>
          match ws_send (FRequest url (object_of s5 options) (nextUuid s)) s5
          with
          | (s6, None) => (s6, Normal)
          | (s6, Some err) =>
              let s7 := clearTimeout (nextTimer s) s6 in
              if retryCount <? maxRetries (config s7) then
                ((setTimeout (SendRetry url options promise retryCount)
                    1000%N s7).2, Normal)
              else
                (reject promise
                   (send_failed_message (maxRetries (config s7)) err) s7,
                 Normal)
          end
      end.
Proof.
  unfold _sendRequest. cbn zeta. unfold setTimeout. cbn beta iota zeta.
  eexists.
  split; [| split; [| split; [| split; [| split; [| split;
    [| reflexivity]]]]]]; reflexivity.
Qed.

Lemma injectCookies_same hostname url options s s4 :
  heap s4 = heap s -> cookies s4 = cookies s ->
  match injectCookies hostname url options s4 with
  | Some s5 =>
      ws s5 = ws s4 /\ sent s5 = sent s4 /\ config s5 = config s4 /\
      if Js.is_true (Js.get (object_of s options) "cookiejar") then
        exists cs,
          getCookies hostname url s = Some cs /\
          heap s5
          = <[options := Js.set (object_of s options) "cookies" (Js.VArr cs)]>
              (heap s)
      else heap s5 = heap s
  | None =>
      Js.is_true (Js.get (object_of s options) "cookiejar") = true /\
      getCookies hostname url s = None
  end.
Proof.
  intros Hh Hc. unfold injectCookies, object_of, getCookies. rewrite Hh, Hc.
  destruct (Js.is_true _); [| by repeat split].
  destruct (hostname url); simpl; [| split; reflexivity].
  rewrite Hh. repeat (split; [reflexivity |]).
  eexists. split; reflexivity.
Qed.

Lemma object_of_insert (h : gmap nat Js.Object) options o s :
  heap s = <[options := o]> h -> object_of s options = o.
Proof. intros H. unfold object_of. by rewrite H, lookup_insert_eq. Qed.

(** What the send path does to the objects of the caller, in terms of the
    array that [getCookies] returns. *)
Lemma sendRequest_heap
    (hostname : string -> option string) (url : string) (options : Ref)
    (promise : PromiseId) (retryCount : nat) (s : State) :
  let o := object_of s options in
  let r := _sendRequest hostname url options promise retryCount s in
  (Js.is_true (Js.get o "cookiejar") = true ->
   forall cs, getCookies hostname url s = Some cs ->
     heap r.1 = <[options := Js.set o "cookies" (Js.VArr cs)]> (heap s) /\
     Js.get (object_of r.1 options) "cookies" = Js.VArr cs /\
     (forall k, k <> "cookies" ->
        Js.get (object_of r.1 options) k = Js.get o k) /\
     (send_error (ws s) = None ->
      sent r.1
      = sent s ++ [FRequest url (Js.set o "cookies" (Js.VArr cs))
                     (nextUuid s)])) /\
  (Js.is_true (Js.get o "cookiejar") = true ->
   getCookies hostname url s = None ->
   heap r.1 = heap s /\ sent r.1 = sent s /\ r.2 = Throw invalid_url) /\
  (Js.is_true (Js.get o "cookiejar") = false ->
   heap r.1 = heap s /\
   (send_error (ws s) = None ->
    sent r.1 = sent s ++ [FRequest url o (nextUuid s)])).
Proof.
  intros o r. subst o r.
  destruct (sendRequest_unfold hostname url options promise retryCount s)
    as (s4 & Hh & Hc & Hw & Hs & _ & _ & ->).
  pose proof (injectCookies_same hostname url options s s4 Hh Hc) as Hi.
  split; [| split].
  - intros Hjar cs Hcs. rewrite Hjar in Hi.
    destruct (injectCookies hostname url options s4) as [s5 |];
      [| destruct Hi as [_ Hi]; congruence].
    destruct Hi as (Hw5 & Hs5 & _ & cs' & Hcs' & Hh5).
    assert (cs' = cs) as -> by congruence.
    assert (forall x, heap x = heap s5 ->
              heap x
              = <[options := Js.set (object_of s options) "cookies"
                               (Js.VArr cs)]> (heap s) /\
              Js.get (object_of x options) "cookies" = Js.VArr cs /\
              (forall k, k <> "cookies" ->
                 Js.get (object_of x options) k
                 = Js.get (object_of s options) k)) as Hfin.
    { intros x Hx.
      assert (object_of x options
              = Js.set (object_of s options) "cookies" (Js.VArr cs)) as ->
        by (apply (object_of_insert (heap s)); by rewrite Hx).
      split; [by rewrite Hx |]. split; [apply get_set_eq |].
      intros k Hk. by apply get_set_ne. }
    unfold ws_send. rewrite Hw5, Hw.
    destruct (send_error (ws s)) as [err |] eqn:Hse.
    + set (s7 := clearTimeout (nextTimer s) s5).
      destruct (retryCount <? maxRetries (config s7)); cbn [fst snd];
        match goal with
        | |- heap ?x = _ /\ _ =>
            destruct (Hfin x eq_refl) as (Ha & Hb & Hc')
        end;
        (split; [exact Ha |]); (split; [exact Hb |]);
        (split; [exact Hc' | discriminate]).
    + cbn [fst snd].
      match goal with
      | |- heap ?x = _ /\ _ => destruct (Hfin x eq_refl) as (Ha & Hb & Hc')
      end.
      split; [exact Ha |]. split; [exact Hb |]. split; [exact Hc' |].
      intros _. simpl. rewrite Hs5, Hs.
      by rewrite (object_of_insert (heap s) _ _ s5 Hh5).
  - intros Hjar Hnone. rewrite Hjar in Hi.
    destruct (injectCookies hostname url options s4) as [s5 |].
    + destruct Hi as (_ & _ & _ & cs & Hcs & _). congruence.
    + cbn [fst snd]. by rewrite Hh, Hs.
  - intros Hjar. rewrite Hjar in Hi.
    destruct (injectCookies hostname url options s4) as [s5 |];
      [| destruct Hi as [Hi _]; congruence].
    destruct Hi as (Hw5 & Hs5 & _ & Hh5).
    unfold ws_send. rewrite Hw5, Hw.
    destruct (send_error (ws s)) as [err |] eqn:Hse.
    + set (s7 := clearTimeout (nextTimer s) s5).
      destruct (retryCount <? maxRetries (config s7)); simpl;
        (split; [exact Hh5 | discriminate]).
    + simpl. split; [exact Hh5 |]. intros _.
      unfold object_of. by rewrite Hh5, Hs5, Hs.
Qed.

(** [fetch] touches the objects of the caller through the send path only:
    at once when the client can send, not at all when the call is queued. *)
Lemma fetch_heap hostname url options s :
  heap (fetch hostname url options s).2
  = if canSend s
    then heap (_sendRequest hostname url options (nextPromise s) 0
                 (set_nextPromise S s)).1
    else heap s.
Proof.
  unfold fetch. cbn [snd].
  change (canSend (set_nextPromise S s)) with (canSend s).
  destruct (canSend s).
  - by destruct (_sendRequest _ _ _ _ _ _) as [s1 [| err]].
  - cbn zeta.
    destruct (negb (isConnected _) && negb (bool_decide _));
      destruct (negb (isIdentified _)); try reflexivity;
      unfold reconnect; by destruct (close_raises _).
Qed.

(** C10, as amended.  Each time the send path runs for a call whose
    [options.cookiejar === true], it assigns, in the object that the caller
    passed, the field [cookies] with the array that [Array.from] makes of
    the entry that the store holds at that moment for the host name of the
    URL (the empty array when the store has no entry); the frame is made
    from the object after the assignment; every other field of the object,
    and every other object, is as before.  When the URL has no host name
    the send path raises and assigns nothing, and when [cookiejar] is not
    [true] it leaves every object as it is.  [fetch] runs the send path at
    once when the client can send; otherwise the call is queued and [fetch]
    leaves every object as it is. *)
Theorem cookiejar_assigns_cookies_in_place
    (hostname : string -> option string) (url : string) (options : Ref)
    (promise : PromiseId) (retryCount : nat) (s : State) :
  let o := object_of s options in
  let r := _sendRequest hostname url options promise retryCount s in
  let f := fetch hostname url options s in
  (Js.is_true (Js.get o "cookiejar") = true ->
   forall domain, hostname url = Some domain ->
     let cs :=
       match cookies s !! domain with
       | Some stored => Js.Array_from stored
       | None => []
       end in
     heap r.1 = <[options := Js.set o "cookies" (Js.VArr cs)]> (heap s) /\
     Js.get (object_of r.1 options) "cookies" = Js.VArr cs /\
     (forall k, k <> "cookies" ->
        Js.get (object_of r.1 options) k = Js.get o k) /\
     (send_error (ws s) = None ->
      sent r.1
      = sent s ++ [FRequest url (Js.set o "cookies" (Js.VArr cs))
                     (nextUuid s)]) /\
     (canSend s = true ->
      heap f.2 = <[options := Js.set o "cookies" (Js.VArr cs)]> (heap s))) /\
  (Js.is_true (Js.get o "cookiejar") = true -> hostname url = None ->
   heap r.1 = heap s /\ sent r.1 = sent s /\ r.2 = Throw invalid_url /\
   heap f.2 = heap s) /\
  (Js.is_true (Js.get o "cookiejar") = false ->
   heap r.1 = heap s /\
   (send_error (ws s) = None ->
    sent r.1 = sent s ++ [FRequest url o (nextUuid s)]) /\
   heap f.2 = heap s) /\
  (canSend s = false -> heap f.2 = heap s).
Proof.
  intros o r f. subst o r f.
  pose proof (sendRequest_heap hostname url options promise retryCount s)
    as (Hset & Hraise & Hnot).
  pose proof (sendRequest_heap hostname url options (nextPromise s) 0
                (set_nextPromise S s)) as (Hset0 & Hraise0 & Hnot0).
  cbv zeta in Hset, Hraise, Hnot, Hset0, Hraise0, Hnot0.
  change (object_of (set_nextPromise S s) options)
    with (object_of s options) in Hset0, Hraise0, Hnot0.
  change (heap (set_nextPromise S s)) with (heap s) in Hset0, Hraise0, Hnot0.
  pose proof (fetch_heap hostname url options s) as Hf.
  split; [| split; [| split]].
  - intros Hjar domain Hd cs.
    assert (getCookies hostname url s = Some cs) as Hcs
      by (unfold getCookies; by rewrite Hd).
    destruct (Hset Hjar cs Hcs) as (H1 & H2 & H3 & H4).
    split; [exact H1 |]. split; [exact H2 |]. split; [exact H3 |].
    split; [exact H4 |].
    intros Hcan. rewrite Hf, Hcan. exact (proj1 (Hset0 Hjar cs Hcs)).
  - intros Hjar Hd.
    assert (forall x, getCookies hostname url x = None) as Hcs
      by (intros x; unfold getCookies; by rewrite Hd).
    destruct (Hraise Hjar (Hcs _)) as (H1 & H2 & H3).
    split; [exact H1 |]. split; [exact H2 |]. split; [exact H3 |].
    rewrite Hf. destruct (canSend s); [| reflexivity].
    exact (proj1 (Hraise0 Hjar (Hcs _))).
  - intros Hjar. destruct (Hnot Hjar) as (H1 & H2).
    split; [exact H1 |]. split; [exact H2 |].
    rewrite Hf. destruct (canSend s); [| reflexivity].
    exact (proj1 (Hnot0 Hjar)).
  - intros Hcan. by rewrite Hf, Hcan.
Qed.

(** C10, as stated, fails: the call is made with [cookiejar: true] while
    the client waits for the broker to confirm its identification; it is
    queued, its give-up timer fires, the promise is rejected, and the
    object of the caller has been given no field [cookies]; no frame was
    made of it. *)
Lemma queued_call_gives_up_unmutated :
  let s0 := XfetchScenario.unconfirmedJar in
  let s1 := (fetch XfetchScenario.hostname "https://a.test/" 0 s0).2 in
  let s2 := (fireTimer XfetchScenario.hostname 3 s1).1 in
  Js.is_true (Js.get (object_of s0 0) "cookiejar") = true /\
  XfetchScenario.hostname "https://a.test/" = Some "a.test" /\
  timers s1 !! 3
  = Some {| t_delay := 5000%N; t_repeats := false;
            t_body := GiveUp "https://a.test/" 0 |} /\
  object_of s1 0 = XfetchScenario.jar /\
  object_of s2 0 = XfetchScenario.jar /\
  Js.get (object_of s2 0) "cookies" = Js.VUndefined /\
  sent s2 = sent s0 /\
  settled s2 = [(0, Rejected "No extension client available after 5000ms")].
Proof. by vm_compute. Qed.

(** An [options] object with [cookiejar: true], sent while the store holds
    a cookie for the host, and one without [cookiejar]. *)
Lemma cookiejar_assigns_cookies_in_place_witness :
  let r :=
    _sendRequest XfetchScenario.hostname "https://a.test/" 0 0 0
      XfetchScenario.stocked in
  (Js.is_true (Js.get (object_of XfetchScenario.stocked 0) "cookiejar") = true
   /\ XfetchScenario.hostname "https://a.test/" = Some "a.test"
   /\ Js.get (object_of r.1 0) "cookies" = Js.VArr [XfetchScenario.sid]) /\
  (Js.is_true (Js.get (object_of XfetchScenario.stocked 1) "cookiejar") = false
   /\ heap (_sendRequest XfetchScenario.hostname "https://a.test/" 1 0 0
              XfetchScenario.stocked).1
      = heap XfetchScenario.stocked).
Proof.
  split.
  - split; [reflexivity |]. split; [reflexivity |].
    exact (proj1 (proj2 (proj1 (cookiejar_assigns_cookies_in_place
             XfetchScenario.hostname "https://a.test/" 0 0 0
             XfetchScenario.stocked) eq_refl "a.test" eq_refl))).
  - split; [reflexivity |].
    exact (proj1 (proj1 (proj2 (proj2 (cookiejar_assigns_cookies_in_place
             XfetchScenario.hostname "https://a.test/" 1 0 0
             XfetchScenario.stocked))) eq_refl)).
Defined.

(** ** Reconnection *)

Lemma rejectPending_fields s e :
  reconnectAttempts (rejectPending s e) = reconnectAttempts s /\
  maxReconnectAttempts (rejectPending s e) = maxReconnectAttempts s /\
  reconnectDelay (rejectPending s e) = reconnectDelay s /\
  nextTimer (rejectPending s e) = nextTimer s /\
  forall tid t,
    timers (rejectPending s e) !! tid = Some t -> timers s !! tid = Some t.
Proof.
  unfold rejectPending. destruct (p_timeoutId e.2) as [t0 |]; simpl.
  - repeat split. intros tid t. rewrite lookup_delete.
    by case_decide.
  - by repeat split.
Qed.

Lemma foldl_rejectPending_fields l : forall s,
  let s' := foldl rejectPending s l in
  reconnectAttempts s' = reconnectAttempts s /\
  maxReconnectAttempts s' = maxReconnectAttempts s /\
  reconnectDelay s' = reconnectDelay s /\
  nextTimer s' = nextTimer s /\
  forall tid t, timers s' !! tid = Some t -> timers s !! tid = Some t.
Proof.
  induction l as [| e l IH]; intros s; simpl; [by repeat split |].
  destruct (IH (rejectPending s e)) as (H1 & H2 & H3 & H4 & H5).
  destruct (rejectPending_fields s e) as (G1 & G2 & G3 & G4 & G5).
  split; [congruence |]. split; [congruence |]. split; [congruence |].
  split; [congruence |]. intros tid t Ht. by apply G5, H5.
Qed.

(** What one [close] event does to the reconnection. *)
Lemma onclose_reconnect s :
  maxReconnectAttempts (onclose s) = maxReconnectAttempts s /\
  reconnectDelay (onclose s) = reconnectDelay s /\
  if reconnectAttempts s <? maxReconnectAttempts s then
    reconnectAttempts (onclose s) = S (reconnectAttempts s) /\
    nextTimer (onclose s) = S (nextTimer s) /\
    timers (onclose s) !! nextTimer s
    = Some {| t_delay :=
                reconnectBackoff (reconnectDelay s) (S (reconnectAttempts s));
              t_repeats := false; t_body := Reconnect |}
  else
    reconnectAttempts (onclose s) = reconnectAttempts s /\
    nextTimer (onclose s) = nextTimer s /\
    forall tid t, timers (onclose s) !! tid = Some t -> timers s !! tid = Some t.
Proof.
  unfold onclose.
  match goal with
  | |- context [foldl rejectPending ?s1 ?l] =>
      destruct (foldl_rejectPending_fields l s1) as (H1 & H2 & H3 & H4 & H5);
      set (s2 := foldl rejectPending s1 l) in *
  end.
  simpl in H1, H2, H3, H4, H5. rewrite H1, H2.
  destruct (reconnectAttempts s <? maxReconnectAttempts s); simpl.
  - rewrite H1, H2, H3, H4. repeat split. apply lookup_insert_eq.
  - by repeat split.
Qed.

Lemma sendRequest_attempts hostname url options promise retryCount s :
  reconnectAttempts (_sendRequest hostname url options promise retryCount s).1
  = reconnectAttempts s.
Proof.
  destruct (sendRequest_unfold hostname url options promise retryCount s)
    as (s4 & _ & _ & _ & _ & _ & Ha & ->).
  unfold injectCookies.
  destruct (Js.is_true _); [destruct (getCookies hostname url s4) |];
    try exact Ha;
    unfold ws_send; simpl; destruct (send_error (ws s4)); simpl;
    try exact Ha;
    by destruct (retryCount <? maxRetries (config s4)).
Qed.

Lemma sendAll_attempts hostname queue : forall s,
  reconnectAttempts (sendAll hostname queue s).1 = reconnectAttempts s.
Proof.
  induction queue as [| e queue IH]; intros s; simpl; [reflexivity |].
  pose proof (sendRequest_attempts hostname (q_url e) (q_options e)
                (q_promise e) (q_retryCount e) s) as H.
  destruct (_sendRequest _ _ _ _ _ _) as [s1 [| err]]; simpl in *.
  - by rewrite IH.
  - exact H.
Qed.

Lemma clearAll_attempts ts : forall s,
  reconnectAttempts (clearAll ts s) = reconnectAttempts s.
Proof.
  unfold clearAll. induction ts as [| t ts IH]; intros s; simpl;
    [reflexivity | by rewrite IH].
Qed.

Lemma processQueue_attempts hostname s :
  reconnectAttempts (processQueue hostname s).1 = reconnectAttempts s.
Proof.
  unfold processQueue.
  destruct (length (requestQueue s) =? 0); [reflexivity |].
  destruct (_ && _); [| reflexivity].
  rewrite sendAll_attempts.
  destruct (0 <? _); simpl; [by rewrite clearAll_attempts | reflexivity].
Qed.

Lemma sendClientIdentification_attempts s :
  reconnectAttempts (sendClientIdentification s) = reconnectAttempts s.
Proof.
  unfold sendClientIdentification, ws_send.
  destruct (send_error (ws s)); [| reflexivity].
  by destruct (isIdentifiedTimer s).
Qed.

Lemma onopen_resets hostname s : reconnectAttempts (onopen hostname s).1 = 0.
Proof.
  unfold onopen.
  rewrite processQueue_attempts, sendClientIdentification_attempts. simpl.
  by rewrite clearAll_attempts.
Qed.

Lemma closes_attempts n : forall s,
  reconnectAttempts s = 0 ->
  let before := Nat.iter n onclose s in
  reconnectAttempts before = n `min` maxReconnectAttempts s /\
  maxReconnectAttempts before = maxReconnectAttempts s /\
  reconnectDelay before = reconnectDelay s.
Proof.
  intros s H0. induction n as [| n IH].
  - simpl. by rewrite H0.
  - destruct IH as (Ha & Hm & Hd). cbv zeta.
    change (Nat.iter (S n) onclose s) with (onclose (Nat.iter n onclose s)).
    destruct (onclose_reconnect (Nat.iter n onclose s)) as (Gm & Gd & G).
    split; [| split; congruence].
    destruct (_ <? _) eqn:E.
    + apply Nat.ltb_lt in E. destruct G as (G1 & _). lia.
    + apply Nat.ltb_ge in E. destruct G as (G1 & _). lia.
Qed.

Lemma reconnectBackoff_mono base n m :
  n <= m -> (reconnectBackoff base n <= reconnectBackoff base m)%N.
Proof.
  intros H. unfold reconnectBackoff. apply N.mul_le_mono_l. lia.
Qed.

Lemma reconnectBackoff_cap base n : (reconnectBackoff base n <= 5 * base)%N.
Proof. unfold reconnectBackoff. nia. Qed.

(** C9.  After [n] consecutive [close] events, the next one, which is the
    close number [n + 1], arms the reconnection with the delay
    [reconnectDelay * min(n + 1, 5)] as long as [n] is below
    [maxReconnectAttempts], and arms nothing once [n] has reached it; the
    delay does not decrease with the number of the close and never exceeds
    [5 * reconnectDelay]; the [open] event puts the count of attempts back
    to 0. *)
Theorem reconnect_backoff
    (hostname : string -> option string) (s : State) (n : nat) :
  reconnectAttempts s = 0 ->
  let before := Nat.iter n onclose s in
  let after := onclose before in
  (n < maxReconnectAttempts s ->
   reconnectAttempts after = S n /\
   timers after !! nextTimer before
   = Some {| t_delay := reconnectBackoff (reconnectDelay s) (S n);
             t_repeats := false; t_body := Reconnect |}) /\
  (maxReconnectAttempts s <= n ->
   reconnectAttempts after = maxReconnectAttempts s /\
   nextTimer after = nextTimer before /\
   forall tid t,
     timers after !! tid = Some t -> timers before !! tid = Some t) /\
  reconnectBackoff (reconnectDelay s) (S n)
  = (reconnectDelay s * N.min (N.of_nat (S n)) 5)%N /\
  (forall m, n <= m ->
     (reconnectBackoff (reconnectDelay s) n
      <= reconnectBackoff (reconnectDelay s) m)%N) /\
  (reconnectBackoff (reconnectDelay s) n <= 5 * reconnectDelay s)%N /\
  reconnectAttempts (onopen hostname after).1 = 0.
Proof.
  intros H0 before after.
  destruct (closes_attempts n s H0) as (Ha & Hm & Hd).
  fold before in Ha, Hm, Hd.
  destruct (onclose_reconnect before) as (_ & _ & G). fold after in G.
  rewrite Ha, Hm, Hd in G.
  split; [| split; [| split; [reflexivity | split; [| split]]]].
  - intros Hn.
    assert ((n `min` maxReconnectAttempts s <? maxReconnectAttempts s) = true)
      as E by (apply Nat.ltb_lt; lia).
    rewrite E in G. destruct G as (G1 & _ & G3).
    rewrite G1, G3. by replace (n `min` maxReconnectAttempts s) with n by lia.
  - intros Hn.
    assert ((n `min` maxReconnectAttempts s <? maxReconnectAttempts s) = false)
      as E by (apply Nat.ltb_ge; lia).
    rewrite E in G. destruct G as (G1 & G2 & G3).
    split; [lia |]. by split.
  - intros m Hm'. by apply reconnectBackoff_mono.
  - apply reconnectBackoff_cap.
  - apply onopen_resets.
Qed.

(** The second close in a row, with the default configuration: 10 s. *)
Lemma reconnect_backoff_witness :
  reconnectAttempts XfetchScenario.connected = 0 /\
  1 < maxReconnectAttempts XfetchScenario.connected /\
  timers (onclose (Nat.iter 1 onclose XfetchScenario.connected))
  !! nextTimer (Nat.iter 1 onclose XfetchScenario.connected)
  = Some {| t_delay := 10000%N; t_repeats := false; t_body := Reconnect |}.
Proof.
  assert (reconnectAttempts XfetchScenario.connected = 0) as H0
    by (vm_compute; reflexivity).
  assert (1 < maxReconnectAttempts XfetchScenario.connected) as H1
    by (vm_compute; lia).
  split; [exact H0 |]. split; [exact H1 |].
  pose proof (reconnect_backoff XfetchScenario.hostname
                XfetchScenario.connected 1 H0) as (H & _).
  destruct (H H1) as [_ Ht]. vm_compute in Ht. vm_compute. exact Ht.
Defined.

(** ** Retries of a call that gets no response *)

Lemma request_ids_snoc fs url o id :
  request_ids (fs ++ [FRequest url o id]) = request_ids fs ++ [id].
Proof. unfold request_ids. by rewrite omap_app. Qed.

(** An attempt that the socket accepts. *)
Lemma sendRequest_arms hostname url options promise n s :
  sends_normally hostname url options s ->
  let r := _sendRequest hostname url options promise n s in
  r.2 = Normal /\
  attempt_armed url options promise n r.1 /\
  sends_normally hostname url options r.1 /\
  request_ids (sent r.1) = request_ids (sent s) ++ [nextUuid s] /\
  settled r.1 = settled s /\
  nextUuid r.1 = S (nextUuid s) /\
  config r.1 = config s.
Proof.
  intros [Hsend Hurl].
  unfold _sendRequest, injectCookies, getCookies, ws_send, setTimeout.
  cbn beta iota zeta.
  change (object_of (set_pendingRequests _ _) options)
    with (object_of s options).
  destruct (Js.is_true (Js.get (object_of s options) "cookiejar")) eqn:Hjar.
  - destruct (Hurl eq_refl) as [domain Hd]. rewrite Hd. simpl.
    rewrite Hsend. simpl.
    split; [reflexivity |]. split.
    { unfold attempt_armed. simpl. rewrite !Nat.sub_0_r.
      split; [lia |]. split; [lia |]. apply lookup_insert_eq. }
    split; [split; [exact Hsend | by intros _; exists domain] |].
    split; [apply request_ids_snoc |]. by repeat split.
  - simpl. rewrite Hsend. simpl.
    split; [reflexivity |]. split.
    { unfold attempt_armed. simpl. rewrite !Nat.sub_0_r.
      split; [lia |]. split; [lia |]. apply lookup_insert_eq. }
    split; [split; [exact Hsend |] |].
    { change (object_of (set_sent _ _) options) with (object_of s options).
      by rewrite Hjar. }
    split; [apply request_ids_snoc |]. by repeat split.
Qed.

Lemma fireTimer_armed hostname url options promise n s :
  attempt_armed url options promise n s ->
  fireTimer hostname (nextTimer s - 1) s
  = attemptTimeoutFired hostname url options promise n (nextUuid s - 1)
      (clearTimeout (nextTimer s - 1) s).
Proof. intros (_ & _ & Ht). unfold fireTimer. by rewrite Ht. Qed.

(** The state in which the closure of the timeout decides between a retry
    and the rejection. *)
Lemma attemptTimeoutFired_unfold hostname url options promise n id s :
  exists s1,
    heap s1 = heap s /\ ws s1 = ws s /\ config s1 = config s /\
    sent s1 = sent s /\ settled s1 = settled s /\
    nextUuid s1 = nextUuid s /\
    attemptTimeoutFired hostname url options promise n id s
    = if n <? maxRetries (config s) then
        _sendRequest hostname url options promise (n + 1) s1
      else
        (reject promise (max_retries_message (maxRetries (config s))) s1,
         Normal).
Proof.
  unfold attemptTimeoutFired.
  destruct (OMap.has (pendingRequests s) id);
    [exists (set_pendingRequests (fun m => OMap.delete m id) s) | exists s];
    by repeat split.
Qed.

Lemma timeout_retries hostname url options promise n s :
  attempt_armed url options promise n s ->
  sends_normally hostname url options s ->
  n < maxRetries (config s) ->
  let r := fireTimer hostname (nextTimer s - 1) s in
  r.2 = Normal /\
  attempt_armed url options promise (n + 1) r.1 /\
  sends_normally hostname url options r.1 /\
  request_ids (sent r.1) = request_ids (sent s) ++ [nextUuid s] /\
  settled r.1 = settled s /\
  nextUuid r.1 = S (nextUuid s) /\
  config r.1 = config s.
Proof.
  intros Ha [Hsend Hurl] Hn. cbv zeta.
  rewrite (fireTimer_armed hostname url options promise n s Ha).
  destruct (attemptTimeoutFired_unfold hostname url options promise n
              (nextUuid s - 1) (clearTimeout (nextTimer s - 1) s))
    as (s1 & Hh & Hw & Hc & Hs & Hst & Hu & ->).
  simpl in Hh, Hw, Hc, Hs, Hst, Hu.
  change (config (clearTimeout (nextTimer s - 1) s)) with (config s).
  assert ((n <? maxRetries (config s)) = true) as -> by (apply Nat.ltb_lt; lia).
  assert (sends_normally hostname url options s1) as Hn1.
  { split; [by rewrite Hw |]. unfold object_of. by rewrite Hh. }
  destruct (sendRequest_arms hostname url options promise (n + 1) s1 Hn1)
    as (H1 & H2 & H3 & H4 & H5 & H6 & H7).
  rewrite Hs, Hu in H4. rewrite Hst in H5. rewrite Hu in H6.
  rewrite Hc in H7.
  split; [exact H1 |]. split; [exact H2 |]. split; [exact H3 |].
  split; [exact H4 |]. split; [exact H5 |]. by split.
Qed.

Lemma timeout_rejects hostname url options promise n s :
  attempt_armed url options promise n s ->
  maxRetries (config s) <= n ->
  let r := fireTimer hostname (nextTimer s - 1) s in
  r.2 = Normal /\
  settled r.1
  = settled s ++ [(promise,
                   Rejected (max_retries_message (maxRetries (config s))))] /\
  sent r.1 = sent s.
Proof.
  intros Ha Hn. cbv zeta.
  rewrite (fireTimer_armed hostname url options promise n s Ha).
  destruct (attemptTimeoutFired_unfold hostname url options promise n
              (nextUuid s - 1) (clearTimeout (nextTimer s - 1) s))
    as (s1 & Hh & Hw & Hc & Hs & Hst & Hu & ->).
  simpl in Hh, Hw, Hc, Hs, Hst, Hu.
  change (config (clearTimeout (nextTimer s - 1) s)) with (config s).
  assert ((n <? maxRetries (config s)) = false) as ->
    by (apply Nat.ltb_ge; lia).
  simpl. split; [reflexivity |]. split; [by rewrite Hst | exact Hs].
Qed.

Lemma timeOut_retries hostname url options promise k : forall n s,
  attempt_armed url options promise n s ->
  sends_normally hostname url options s ->
  n + k <= maxRetries (config s) ->
  let r := timeOut hostname k s in
  r.2 = Normal /\
  attempt_armed url options promise (n + k) r.1 /\
  sends_normally hostname url options r.1 /\
  request_ids (sent r.1) = request_ids (sent s) ++ seq (nextUuid s) k /\
  settled r.1 = settled s /\
  nextUuid r.1 = nextUuid s + k /\
  config r.1 = config s.
Proof.
  induction k as [| k IH]; intros n s Ha Hs Hn.
  - simpl. rewrite !Nat.add_0_r, app_nil_r.
    split; [reflexivity |]. split; [exact Ha |]. split; [exact Hs |].
    by repeat split.
  - cbv zeta. cbn [timeOut].
    destruct (timeout_retries hostname url options promise n s Ha Hs
                ltac:(lia)) as (H1 & H2 & H3 & H4 & H5 & H6 & H7).
    destruct (fireTimer hostname (nextTimer s - 1) s) as [s1 c1].
    cbn [fst snd] in *. subst c1.
    destruct (IH (n + 1) s1 H2 H3 ltac:(rewrite H7; lia))
      as (G1 & G2 & G3 & G4 & G5 & G6 & G7).
    replace (n + S k) with (n + 1 + k) by lia.
    split; [exact G1 |]. split; [exact G2 |]. split; [exact G3 |].
    split; [| split; [congruence | split; [lia | congruence]]].
    rewrite G4, H4, H6, <- app_assoc. reflexivity.
Qed.

Lemma timeOut_succ hostname k : forall s,
  timeOut hostname (S k) s
  = match timeOut hostname k s with
    | (s1, Normal) => timeOut hostname 1 s1
    | (s1, Throw err) => (s1, Throw err)
    end.
Proof.
  induction k as [| k IH]; intros s.
  - reflexivity.
  - cbn [timeOut] in *.
    destruct (fireTimer hostname (nextTimer s - 1) s) as [s1 [| err]];
      [| reflexivity].
    apply (IH s1).
Qed.

(** C6.  A call is sent and no response to any of its attempts arrives.
    Each of the first [maxRetries] timeouts sends the request again, with
    the retry count one higher and under the next identifier of the source
    of identifiers, so that after [n] timeouts the identifiers sent are the
    [n + 1] consecutive ones from the first; meanwhile the promise is left
    alone.  The timeout of the attempt whose retry count is [maxRetries]
    sends nothing and rejects the promise with [Request failed after
    maxRetries retries].  The [maxRetries + 1] identifiers are pairwise
    distinct. *)
Theorem timed_out_call_is_retried_then_rejected
    (hostname : string -> option string) (url : string) (options : Ref)
    (promise : PromiseId) (s : State) :
  sends_normally hostname url options s ->
  let first := (_sendRequest hostname url options promise 0 s).1 in
  let limit := maxRetries (config s) in
  (forall n, n <= limit ->
     let r := timeOut hostname n first in
     r.2 = Normal /\
     attempt_armed url options promise n r.1 /\
     request_ids (sent r.1)
     = request_ids (sent s) ++ seq (nextUuid s) (S n) /\
     settled r.1 = settled s) /\
  (let r := timeOut hostname (S limit) first in
   r.2 = Normal /\
   settled r.1
   = settled s ++ [(promise, Rejected (max_retries_message limit))] /\
   request_ids (sent r.1)
   = request_ids (sent s) ++ seq (nextUuid s) (S limit)) /\
  NoDup (seq (nextUuid s) (S limit)).
Proof.
  intros Hs first limit.
  destruct (sendRequest_arms hostname url options promise 0 s Hs)
    as (_ & H2 & H3 & H4 & H5 & H6 & H7).
  fold first in H2, H3, H4, H5, H6, H7.
  assert (forall n, n <= limit ->
            let r := timeOut hostname n first in
            r.2 = Normal /\
            attempt_armed url options promise n r.1 /\
            request_ids (sent r.1)
            = request_ids (sent s) ++ seq (nextUuid s) (S n) /\
            settled r.1 = settled s /\ config r.1 = config s) as Hchain.
  { intros n Hn.
    destruct (timeOut_retries hostname url options promise n 0 first H2 H3
                ltac:(rewrite H7; simpl; exact Hn))
      as (G1 & G2 & _ & G4 & G5 & _ & G7).
    cbv zeta. split; [exact G1 |]. split; [exact G2 |].
    split; [| split; congruence].
    rewrite G4, H4, H6, <- app_assoc. reflexivity. }
  split; [| split; [| apply NoDup_seq]].
  - intros n Hn. destruct (Hchain n Hn) as (G1 & G2 & G3 & G4 & _).
    by repeat (split; [assumption |]).
  - cbv zeta. rewrite timeOut_succ.
    destruct (Hchain limit (le_n _)) as (G1 & G2 & G3 & G4 & G5).
    destruct (timeOut hostname limit first) as [s1 c1].
    cbn [fst snd] in *. subst c1. cbn [timeOut].
    destruct (timeout_rejects hostname url options promise limit s1 G2
                ltac:(rewrite G5; apply le_n)) as (R1 & R2 & R3).
    destruct (fireTimer hostname (nextTimer s1 - 1) s1) as [s2 c2].
    cbn [fst snd] in *. subst c2. cbn [fst snd].
    split; [reflexivity |]. split; [by rewrite R2, G4, G5 |].
    by rewrite R3.
Qed.

(** The default configuration: four attempts, then the rejection. *)
Lemma timed_out_call_is_retried_then_rejected_witness :
  sends_normally XfetchScenario.hostname "https://a.test/" 1
    XfetchScenario.ready /\
  settled
    (timeOut XfetchScenario.hostname 4
       (_sendRequest XfetchScenario.hostname "https://a.test/" 1 0 0
          XfetchScenario.ready).1).1
  = [(0, Rejected "Request failed after 3 retries")].
Proof.
  assert (sends_normally XfetchScenario.hostname "https://a.test/" 1
            XfetchScenario.ready) as Hs.
  { split; [reflexivity |]. intros _. by eexists. }
  split; [exact Hs |].
  pose proof (timed_out_call_is_retried_then_rejected
                XfetchScenario.hostname "https://a.test/" 1 0
                XfetchScenario.ready Hs) as (_ & (_ & H & _) & _).
  vm_compute in H. vm_compute. exact H.
Defined.

End XfetchSpec.

(** * Ordered maps *)

Module OMapFacts.

Lemma get_app_fresh {V} (pre rest : list (nat * V)) k :
  k ∉ pre.*1 -> OMap.get (pre ++ rest) k = OMap.get rest k.
Proof.
  induction pre as [| [k' v] pre IH]; intros Hk; simpl; [reflexivity |].
  simpl in Hk. apply not_elem_of_cons in Hk as [Hne Hk].
  rewrite decide_False by congruence. by apply IH.
Qed.

Lemma delete_app_fresh {V} (pre rest : list (nat * V)) k :
  k ∉ pre.*1 -> OMap.delete (pre ++ rest) k = pre ++ OMap.delete rest k.
Proof.
  induction pre as [| [k' v] pre IH]; intros Hk; simpl; [reflexivity |].
  simpl in Hk. apply not_elem_of_cons in Hk as [Hne Hk].
  rewrite decide_False by congruence. by rewrite IH.
Qed.

Lemma alter_app_fresh {V} (f : V -> V) (pre rest : list (nat * V)) k :
  k ∉ pre.*1 -> OMap.alter f (pre ++ rest) k = pre ++ OMap.alter f rest k.
Proof.
  induction pre as [| [k' v] pre IH]; intros Hk; simpl; [reflexivity |].
  simpl in Hk. apply not_elem_of_cons in Hk as [Hne Hk].
  rewrite decide_False by congruence. by rewrite IH.
Qed.

Lemma get_head {V} (k : nat) (v : V) rest :
  OMap.get ((k, v) :: rest) k = Some v.
Proof. simpl. by rewrite decide_True. Qed.

Lemma delete_head {V} (k : nat) (v : V) rest :
  OMap.delete ((k, v) :: rest) k = rest.
Proof. simpl. by rewrite decide_True. Qed.

Lemma split_fresh {V} (pre : list (nat * V)) k v rest :
  NoDup (pre ++ (k, v) :: rest).*1 ->
  (k ∉ pre.*1) /\ NoDup ((pre ++ [(k, v)]) ++ rest).*1.
Proof.
  intros H. split; [| by rewrite <- app_assoc].
  rewrite fmap_app in H. apply NoDup_app in H as (_ & H & _).
  intros Hin. apply (H k Hin). simpl. left.
Qed.

Lemma alter_head {V} (f : V -> V) (k : nat) (v : V) rest :
  OMap.alter f ((k, v) :: rest) k = (k, f v) :: rest.
Proof. simpl. by rewrite decide_True. Qed.

Lemma length_set_fresh {V} (m : list (nat * V)) k v :
  OMap.get m k = None -> length (OMap.set m k v) = S (length m).
Proof.
  induction m as [| [k' v'] m IH]; simpl; [reflexivity |].
  destruct (decide (k' = k)) as [_ | _]; [discriminate |].
  intros Hg. simpl. by rewrite IH.
Qed.

Lemma get_set {V} (m : list (nat * V)) k k' v :
  OMap.get (OMap.set m k v) k'
  = if decide (k = k') then Some v else OMap.get m k'.
Proof.
  induction m as [| [k0 v0] m IH]; simpl.
  - by destruct (decide (k = k')).
  - destruct (decide (k0 = k)) as [-> | Hne]; simpl.
    + by destruct (decide (k = k')).
    + destruct (decide (k0 = k')) as [-> | Hne'].
      * by rewrite decide_False by congruence.
      * exact IH.
Qed.

Lemma get_alter {V} (f : V -> V) (m : list (nat * V)) k k' :
  OMap.get (OMap.alter f m k) k'
  = if decide (k = k') then f <$> OMap.get m k' else OMap.get m k'.
Proof.
  induction m as [| [k0 v0] m IH]; simpl.
  - by destruct (decide (k = k')).
  - destruct (decide (k0 = k)) as [-> | Hne]; simpl.
    + by destruct (decide (k = k')).
    + destruct (decide (k0 = k')) as [-> | Hne'].
      * by rewrite decide_False by congruence.
      * exact IH.
Qed.

Lemma get_delete_ne {V} (m : list (nat * V)) k k' :
  k <> k' -> OMap.get (OMap.delete m k) k' = OMap.get m k'.
Proof.
  intros Hne. induction m as [| [k0 v0] m IH]; simpl; [reflexivity |].
  destruct (decide (k0 = k)) as [-> | Hne0]; simpl.
  - by rewrite decide_False.
  - by rewrite IH.
Qed.

Lemma get_None {V} (m : list (nat * V)) k :
  OMap.get m k = None <-> k ∉ m.*1.
Proof.
  induction m as [| [k0 v0] m IH]; simpl.
  - split; [intros _; apply not_elem_of_nil | done].
  - rewrite not_elem_of_cons. destruct (decide (k0 = k)) as [-> | Hne].
    + split; [discriminate | intros [H _]; done].
    + rewrite IH. split; [intros H; split; [congruence | exact H] | by intros [_ H]].
Qed.

Lemma get_delete_eq {V} (m : list (nat * V)) k :
  NoDup m.*1 -> OMap.get (OMap.delete m k) k = None.
Proof.
  induction m as [| [k0 v0] m IH]; simpl; [reflexivity |].
  intros Hn. apply NoDup_cons in Hn as [Hk Hn].
  destruct (decide (k0 = k)) as [-> | Hne]; simpl.
  - by apply get_None.
  - rewrite decide_False by exact Hne. by apply IH.
Qed.

Lemma keys_alter {V} (f : V -> V) (m : list (nat * V)) k :
  (OMap.alter f m k).*1 = m.*1.
Proof.
  induction m as [| [k0 v0] m IH]; [reflexivity |].
  cbn [OMap.alter]. destruct (decide (k0 = k)); [reflexivity |].
  by rewrite !fmap_cons, IH.
Qed.

Lemma keys_set_fresh {V} (m : list (nat * V)) k v :
  k ∉ m.*1 -> (OMap.set m k v).*1 = m.*1 ++ [k].
Proof.
  induction m as [| [k0 v0] m IH]; [reflexivity |].
  rewrite fmap_cons. cbn [fst]. intros H.
  apply not_elem_of_cons in H as [Hne H].
  cbn [OMap.set]. rewrite decide_False by congruence.
  by rewrite fmap_cons, IH.
Qed.

Lemma keys_delete {V} (m : list (nat * V)) k x :
  x ∈ (OMap.delete m k).*1 -> x ∈ m.*1.
Proof.
  induction m as [| [k0 v0] m IH]; [done |].
  cbn [OMap.delete]. rewrite fmap_cons. cbn [fst].
  destruct (decide (k0 = k)); [by right |].
  rewrite fmap_cons. cbn [fst]. intros Hx.
  apply elem_of_cons in Hx as [-> | Hx]; [left | right; by apply IH].
Qed.

Lemma NoDup_delete {V} (m : list (nat * V)) k :
  NoDup m.*1 -> NoDup (OMap.delete m k).*1.
Proof.
  induction m as [| [k0 v0] m IH]; [done |].
  rewrite fmap_cons. cbn [fst]. intros Hn.
  apply NoDup_cons in Hn as [Hk Hn].
  cbn [OMap.delete]. destruct (decide (k0 = k)); [exact Hn |].
  rewrite fmap_cons. cbn [fst]. apply NoDup_cons. split; [| by apply IH].
  intros Hin. apply Hk. by apply (keys_delete m k).
Qed.

End OMapFacts.

(** * Further properties of the broker *)

Module BrokerMoreSpec.
Import Broker BrokerMore OMapFacts.

(** ** The health check *)

Lemma checkClient_clients role s k :
  clients role (checkClient role s k)
  = match OMap.get (clients role s) k with
    | Some d =>
        if HEARTBEAT_maxMissed <=? missedHeartbeats d
        then OMap.delete (clients role s) k else clients role s
    | None => clients role s
    end
  /\ clients (other role) (checkClient role s k) = clients (other role) s.
Proof.
  unfold checkClient.
  destruct (OMap.get (clients role s) k) as [d |]; [| done].
  destruct (HEARTBEAT_maxMissed <=? missedHeartbeats d); [| done].
  destruct role, (pongTimeoutId d); simpl;
    match goal with
    | |- context [isOpen ?x ?c] => destruct (isOpen x c)
    end; done.
Qed.

Lemma checkClient_pending role s k :
  pendingRequests (checkClient role s k)
  = match OMap.get (clients role s) k with
    | Some d =>
        if HEARTBEAT_maxMissed <=? missedHeartbeats d
        then filter (fun kv : string * PendingRequest =>
                       pr_client kv.2 <> client d) (pendingRequests s)
        else pendingRequests s
    | None => pendingRequests s
    end.
Proof.
  unfold checkClient.
  destruct (OMap.get (clients role s) k) as [d |]; [| done].
  destruct (HEARTBEAT_maxMissed <=? missedHeartbeats d); [| done].
  destruct role, (pongTimeoutId d); simpl;
    match goal with
    | |- context [isOpen ?x ?c] => destruct (isOpen x c)
    end; done.
Qed.

Lemma checkClientHealth_fold role rest : forall pre s,
  clients role s = pre ++ rest -> NoDup (pre ++ rest).*1 ->
  let s' := foldl (checkClient role) s rest.*1 in
  clients role s' = pre ++ filter below_ceiling rest /\
  clients (other role) s' = clients (other role) s /\
  forall id pr,
    pendingRequests s' !! id = Some pr <->
    pendingRequests s !! id = Some pr /\
    Forall (fun e => below_ceiling e \/ pr_client pr <> client e.2) rest.
Proof.
  induction rest as [| [k d] rest IH]; intros pre s Hc Hn; cbv zeta.
  - simpl. rewrite app_nil_r in *. split; [exact Hc |]. split; [reflexivity |].
    intros id pr. split; [by intros H; split | by intros [H _]].
  - change (((k, d) :: rest).*1) with (k :: rest.*1). cbn [foldl].
    destruct (split_fresh pre k d rest Hn) as [Hk Hn'].
    destruct (checkClient_clients role s k) as [Hcl Hot].
    pose proof (checkClient_pending role s k) as Hpe.
    rewrite Hc, get_app_fresh, get_head in Hcl, Hpe by exact Hk.
    destruct (HEARTBEAT_maxMissed <=? missedHeartbeats d) eqn:E.
    + apply Nat.leb_le in E.
      rewrite delete_app_fresh, delete_head in Hcl by exact Hk.
      assert (NoDup (pre ++ rest).*1) as Hn2.
      { rewrite fmap_app in *. simpl in Hn.
        apply NoDup_app in Hn as (H1 & H2 & H3).
        apply NoDup_app. split; [exact H1 |]. split.
        - intros x Hx Hx'. apply (H2 x Hx). by right.
        - by apply NoDup_cons in H3 as [_ H3]. }
      destruct (IH pre _ Hcl Hn2) as (I1 & I2 & I3).
      rewrite filter_cons_False by (unfold below_ceiling; simpl; lia).
      split; [exact I1 |]. split; [by rewrite I2 |].
      intros id pr. rewrite I3, Hpe, map_lookup_filter_Some. simpl.
      rewrite Forall_cons. unfold below_ceiling at 2. simpl.
      split.
      * intros [[H1 H2] H3]. split; [exact H1 |]. split; [by right | exact H3].
      * intros [H1 [[H2 | H2] H3]]; [lia |]. by repeat split.
    + apply Nat.leb_gt in E.
      destruct (IH (pre ++ [(k, d)]) _ ltac:(by rewrite Hcl, <- app_assoc) Hn')
        as (I1 & I2 & I3).
      rewrite filter_cons_True by (unfold below_ceiling; simpl; lia).
      split; [by rewrite I1, <- app_assoc |]. split; [by rewrite I2 |].
      intros id pr. rewrite I3, Hpe, Forall_cons.
      unfold below_ceiling at 2. simpl.
      split.
      * intros [H1 H2]. split; [exact H1 |]. split; [by left | exact H2].
      * intros [H1 [_ H3]]. by split.
Qed.

(** X1.  After the health check of a partition, the partition holds the
    entries that were below the ceiling of missed heartbeats, as they were
    and in their order, and no other; the other partition is as before. *)
Theorem checkClientHealth_keeps_the_responsive (role : Role) (s : State) :
  unique_keys (clients role s) ->
  clients role (checkClientHealth role s)
  = filter below_ceiling (clients role s) /\
  clients (other role) (checkClientHealth role s) = clients (other role) s.
Proof.
  intros Hn. unfold checkClientHealth.
  destruct (checkClientHealth_fold role (clients role s) [] s eq_refl Hn)
    as (H1 & H2 & _).
  by split.
Qed.

(** X2.  The health check removes from the in-flight table the requests
    that came in on a socket it terminates, and only those. *)
Theorem checkClientHealth_purges_the_terminated (role : Role) (s : State)
    (id : ReqId) (pr : PendingRequest) :
  unique_keys (clients role s) ->
  pendingRequests (checkClientHealth role s) !! id = Some pr <->
  pendingRequests s !! id = Some pr /\
  Forall (fun e => below_ceiling e \/ pr_client pr <> client e.2)
    (clients role s).
Proof.
  intros Hn. unfold checkClientHealth.
  destruct (checkClientHealth_fold role (clients role s) [] s eq_refl Hn)
    as (_ & _ & H3).
  apply H3.
Qed.

(** ** The pings *)

Lemma pingClient_unfold role now s out k d :
  OMap.get (clients role s) k = Some d ->
  pingClient role now (s, out) k
  = if isOpen s (client d)
    then (set_stats (set_heartbeats S id id)
            (set_clients role
               (fun m => OMap.alter (cd_ping now (nextTimer s)) m k)
               (setTimeout (PongTimeout role k) HEARTBEAT_timeout s).2),
          out ++ [(client d, FPing now)])
    else (s, out).
Proof.
  intros H. unfold pingClient. cbn [fst snd]. rewrite H.
  by destruct (isOpen s (client d)).
Qed.

Lemma pinged_state role now s k :
  let s' :=
    set_stats (set_heartbeats S id id)
      (set_clients role
         (fun m => OMap.alter (cd_ping now (nextTimer s)) m k)
         (setTimeout (PongTimeout role k) HEARTBEAT_timeout s).2) in
  clients role s' = OMap.alter (cd_ping now (nextTimer s)) (clients role s) k
  /\ sockets s' = sockets s
  /\ hb_sent (stats s') = S (hb_sent (stats s))
  /\ timers s'
     = <[nextTimer s := (HEARTBEAT_timeout, PongTimeout role k)]> (timers s)
  /\ nextTimer s' = S (nextTimer s).
Proof. by destruct role. Qed.

Lemma pings_keep_timers role now ks : forall acc,
  let r := foldl (pingClient role now) acc ks in
  nextTimer acc.1 <= nextTimer r.1 /\
  forall t, t < nextTimer acc.1 -> timers r.1 !! t = timers acc.1 !! t.
Proof.
  induction ks as [| k ks IH]; intros [s out]; cbn [foldl fst];
    [by split |].
  destruct (IH (pingClient role now (s, out) k)) as [I1 I2].
  assert (nextTimer s <= nextTimer (pingClient role now (s, out) k).1 /\
          forall t, t < nextTimer s ->
            timers (pingClient role now (s, out) k).1 !! t = timers s !! t)
    as [P1 P2].
  { unfold pingClient. cbn [fst snd].
    destruct (OMap.get (clients role s) k) as [d |]; [| by split].
    destruct (isOpen s (client d)); [| by split].
    destruct (pinged_state role now s k) as (_ & _ & _ & Ht & Hn).
    unfold setTimeout in *. cbn [fst snd] in *. rewrite Ht, Hn.
    split; [lia |]. intros t Hlt. rewrite lookup_insert_ne by lia. done. }
  split; [lia |]. intros t Hlt. rewrite I2 by lia. by apply P2.
Qed.

Lemma isOpen_sockets s s' c : sockets s' = sockets s -> isOpen s' c = isOpen s c.
Proof. intros H. unfold isOpen, readyStateOf. by rewrite H. Qed.

Lemma pings_sockets now s s' l :
  sockets s' = sockets s -> pings now s' l = pings now s l.
Proof.
  intros H. unfold pings. f_equal.
  induction l as [| e l IH]; [reflexivity |].
  rewrite !filter_cons, (isOpen_sockets _ _ _ H), IH. reflexivity.
Qed.

Lemma sendHeartbeats_pings_fold role now rest : forall pre s out,
  clients role s = pre ++ rest -> NoDup (pre ++ rest).*1 ->
  let r := foldl (pingClient role now) (s, out) rest.*1 in
  r.2 = out ++ pings now s rest /\
  hb_sent (stats r.1) = hb_sent (stats s) + length (pings now s rest) /\
  sockets r.1 = sockets s /\
  exists rest',
    clients role r.1 = pre ++ rest' /\
    Forall2 (pinged role now s r.1) rest rest'.
Proof.
  induction rest as [| [k d] rest IH]; intros pre s out Hc Hn; cbv zeta.
  - simpl. rewrite app_nil_r. split; [reflexivity |]. split; [lia |].
    split; [reflexivity |]. exists []. split; [exact Hc | constructor].
  - change (((k, d) :: rest).*1) with (k :: rest.*1). cbn [foldl].
    destruct (split_fresh pre k d rest Hn) as [Hk Hn'].
    assert (OMap.get (clients role s) k = Some d) as Hg
      by (by rewrite Hc, get_app_fresh, get_head).
    rewrite (pingClient_unfold _ _ _ _ _ _ Hg). unfold pings.
    destruct (isOpen s (client d)) eqn:Ho.
    + destruct (pinged_state role now s k) as (Pc & Ps & Ph & Pt & Pn).
      cbv zeta in Pc, Ps, Ph, Pt, Pn.
      set (s1 := set_stats _ _) in *.
      rewrite Hc, alter_app_fresh, alter_head in Pc by exact Hk.
      assert (NoDup
                ((pre ++ [(k, cd_ping now (nextTimer s) d)]) ++ rest).*1)
        as Hn1.
      { revert Hn'. by rewrite !fmap_app. }
      destruct (IH (pre ++ [(k, cd_ping now (nextTimer s) d)]) s1
                  (out ++ [(client d, FPing now)])
                  ltac:(by rewrite Pc, <- app_assoc) Hn1)
        as (I1 & I2 & I3 & rest' & I4 & I5).
      destruct (pings_keep_timers role now rest.*1
                  (s1, out ++ [(client d, FPing now)])) as [_ Hkeep].
      cbn [fst] in Hkeep.
      rewrite filter_cons_True by exact Ho. rewrite fmap_cons, length_cons.
      rewrite (pings_sockets _ _ _ _ Ps) in I1, I2. unfold pings in I1, I2.
      split; [by rewrite I1, <- app_assoc |].
      split; [rewrite I2, Ph; lia |].
      split; [by rewrite I3 |].
      exists ((k, cd_ping now (nextTimer s) d) :: rest').
      split; [by rewrite I4, <- app_assoc |].
      constructor.
      * split; [reflexivity |]. cbn [fst snd]. rewrite Ho.
        exists (nextTimer s). split; [reflexivity |].
        rewrite Hkeep by lia. rewrite Pt. apply lookup_insert_eq.
      * eapply Forall2_impl; [exact I5 |].
        intros e e' [E1 E2]. split; [exact E1 |].
        by rewrite (isOpen_sockets _ _ _ Ps) in E2.
    + destruct (IH (pre ++ [(k, d)]) s out
                  ltac:(by rewrite Hc, <- app_assoc) Hn')
        as (I1 & I2 & I3 & rest' & I4 & I5).
      rewrite filter_cons_False by (cbn [snd]; rewrite Ho; discriminate).
      split; [exact I1 |]. split; [exact I2 |]. split; [exact I3 |].
      exists ((k, d) :: rest').
      split; [by rewrite I4, <- app_assoc |].
      constructor; [| exact I5].
      split; [reflexivity |]. cbn [fst snd]. by rewrite Ho.
Qed.

(** X3.  A round of heartbeats sends one ping to each client of the
    partition whose socket is open, in the order of the registry, and none
    to the others; the counter of heartbeats sent grows by their number;
    each pinged entry awaits its pong with a timeout of five seconds armed
    for it, and the entries of the other clients are as before. *)
Theorem sendHeartbeats_pings_the_open_clients (role : Role) (now : Time)
    (s : State) :
  unique_keys (clients role s) ->
  let r := sendHeartbeats role now s in
  r.2 = pings now s (clients role s) /\
  hb_sent (stats r.1) = hb_sent (stats s) + length r.2 /\
  Forall2 (pinged role now s r.1) (clients role s) (clients role r.1).
Proof.
  intros Hn. unfold sendHeartbeats.
  destruct (sendHeartbeats_pings_fold role now (clients role s) [] s []
              eq_refl Hn) as (H1 & H2 & _ & rest' & H4 & H5).
  cbv zeta. rewrite H1, H2, H4. by repeat split.
Qed.

(** ** Missed heartbeats of one connection *)



(** ** Closed connections *)

Lemma onClose_role now ws cid role s :
  sockets s !! ws ≫= clientType = Some role ->
  onClose now ws cid s
  = let s0 :=
      set_sockets
        (alter (fun k => {| readyState := CLOSED;
                            clientType := clientType k |}) ws) s in
    let s2 :=
      set_pending
        (filter (fun kv : ReqId * PendingRequest => pr_client kv.2 <> ws))
        (set_clients role (fun m => OMap.delete m cid) s0) in
    (set_stats
       (fun st =>
          {| requestsProcessed := requestsProcessed st;
             requestsSucceeded := requestsSucceeded st;
             requestsFailed := requestsFailed st;
             totalConnections := totalConnections st;
             activeConnections := activeConnections st;
             disconnections := S (disconnections st);
             reconnections := reconnections st;
             hb_sent := hb_sent st; hb_received := hb_received st;
             hb_missed := hb_missed st |}) s2,
     match role with
     | extension =>
         if length (clients_extension s2) =? 0
         then notifyXfetchClients now false s2 else []
     | xfetch => []
     end).
Proof.
  intros H. unfold onClose. cbv zeta.
  assert (sockets
            (set_sockets
               (alter (fun k => {| readyState := CLOSED;
                                   clientType := clientType k |}) ws) s)
          !! ws ≫= clientType = Some role) as ->.
  { cbn [sockets set_sockets]. rewrite lookup_alter_eq.
    by destruct (sockets s !! ws). }
  reflexivity.
Qed.

(** X5.  When the socket of an identified peer closes, the requests that
    came in on it leave the in-flight table and the others stay; the queue
    and the timers are not touched.  A response that an executor sends
    afterwards for one of the requests of the closed socket produces no
    frame and is not counted. *)
Theorem closed_requester_loses_its_requests (now : Time)
    (ws clientId : ClientId) (role : Role) (s : State) :
  sockets s !! ws ≫= clientType = Some role ->
  let s1 := (onClose now ws clientId s).1 in
  (forall id pr,
     pendingRequests s1 !! id = Some pr <->
     pendingRequests s !! id = Some pr /\ pr_client pr <> ws) /\
  pendingRequestsQueue s1 = pendingRequestsQueue s /\
  timers s1 = timers s /\
  forall now' ews eid message pr,
    pendingRequests s !! m_id message = Some pr -> pr_client pr = ws ->
    let r := handleExtensionResponse now' ews message eid s1 in
    r.2 = [] /\
    requestsProcessed (stats r.1) = requestsProcessed (stats s) /\
    requestsFailed (stats r.1) = requestsFailed (stats s).
Proof.
  intros Hrole. rewrite (onClose_role _ _ _ _ _ Hrole). cbv zeta.
  cbn [fst].
  assert (forall id pr,
            filter (fun kv : ReqId * PendingRequest => pr_client kv.2 <> ws)
              (pendingRequests s) !! id = Some pr <->
            pendingRequests s !! id = Some pr /\ pr_client pr <> ws) as Hp.
  { intros id pr. by rewrite map_lookup_filter_Some. }
  split; [| split; [| split]].
  - destruct role; exact Hp.
  - by destruct role.
  - by destruct role.
  - intros now' ews eid message pr Hin Hws. cbv zeta.
    assert (filter (fun kv : ReqId * PendingRequest => pr_client kv.2 <> ws)
              (pendingRequests s) !! m_id message = None) as Hnone.
    { destruct (filter _ (pendingRequests s) !! m_id message) as [pr' |] eqn:E;
        [| reflexivity].
      apply Hp in E as [E1 E2]. congruence. }
    unfold handleExtensionResponse. cbv zeta.
    destruct role; cbn [pendingRequests set_extension set_stats set_pending
                          set_clients set_xfetch set_sockets];
      rewrite Hnone; by repeat split.
Qed.

(** ** Announcements of executor availability *)

Lemma notify_announcements now available s :
  notifyXfetchClients now available s = announcements now available s.
Proof.
  unfold notifyXfetchClients, announcements.
  induction (clients_xfetch s) as [| e l IH]; [reflexivity |].
  cbn [flat_map]. rewrite filter_cons, IH.
  destruct (isOpen s (client e.2)); [by rewrite decide_True |].
  by rewrite decide_False.
Qed.

Lemma announcements_ext now available s s' :
  clients_xfetch s' = clients_xfetch s ->
  (forall c, isOpen s' c = isOpen s c) ->
  announcements now available s' = announcements now available s.
Proof.
  intros Hc Ho. unfold announcements. rewrite Hc. f_equal. clear Hc.
  induction (clients_xfetch s) as [| e l IH]; [reflexivity |].
  by rewrite !filter_cons, Ho, IH.
Qed.

Lemma isOpen_retyped (g : Socket -> Socket) ws s s' c :
  sockets s' = alter g ws (sockets s) ->
  (forall k, readyState (g k) = readyState k) ->
  isOpen s' c = isOpen s c.
Proof.
  intros Hs Hg. unfold isOpen, readyStateOf. rewrite Hs, lookup_alter.
  case_decide; [subst |]; [| reflexivity].
  destruct (sockets s !! c) as [k |]; simpl; [| reflexivity].
  by rewrite Hg.
Qed.

(** X6.  When an executor identifies itself and the registry held no
    executor, every requester whose socket is open is told that an executor
    is available, each once and after the confirmation to the executor.
    When the registry held other executors, only the confirmation is
    sent. *)
Theorem first_executor_is_announced (now : Time) (ws clientId : ClientId)
    (s : State) :
  OMap.get (clients_extension s) clientId = None ->
  (handleClientIdentification now ws extension clientId s).2
  = send s ws FIdentified
    ++ match clients_extension s with
       | [] => announcements now true s
       | _ :: _ => []
       end.
Proof.
  intros Hfresh. unfold handleClientIdentification. cbv zeta. cbn [snd].
  match goal with
  | |- context [if ?c then set_stats count_reconnection ?a else ?b] =>
      set (s3 := if c then set_stats count_reconnection a else b)
  end.
  assert (clients_extension s3
          = OMap.set (clients_extension s) clientId
              (newClientData now ws clientId)) as Hc.
  { unfold s3. by destruct (sockets s !! ws ≫= clientType). }
  assert (clients_xfetch s3 = clients_xfetch s) as Hx.
  { unfold s3. by destruct (sockets s !! ws ≫= clientType). }
  assert (forall c, isOpen s3 c = isOpen s c) as Ho.
  { intros c.
    apply (isOpen_retyped
             (fun k => {| readyState := readyState k;
                          clientType := Some extension |}) ws);
      [| reflexivity].
    unfold s3. by destruct (sockets s !! ws ≫= clientType). }
  unfold send. rewrite Ho, Hc, (length_set_fresh _ _ _ Hfresh).
  f_equal.
  destruct (clients_extension s) as [| e l]; cbn [length Nat.eqb].
  - rewrite notify_announcements. by apply announcements_ext.
  - reflexivity.
Qed.

(** X27.  A requester that identifies itself is told that an executor is
    available only when exactly one executor is registered: with two or
    more executors in the registry it is told, after the confirmation, that
    none is available. *)
Theorem requester_is_told_unavailable_with_two_executors (now : Time)
    (ws clientId : ClientId) (s : State) :
  2 <= length (clients_extension s) -> isOpen s ws = true ->
  (handleClientIdentification now ws xfetch clientId s).2
  = [(ws, FIdentified); (ws, FExtension false None)].
Proof.
  intros Hn Ho. unfold handleClientIdentification. cbv zeta. cbn [snd].
  match goal with
  | |- context [if ?c then set_stats count_reconnection ?a else ?b] =>
      set (s3 := if c then set_stats count_reconnection a else b)
  end.
  assert (clients_extension s3 = clients_extension s) as Hc
    by (unfold s3; by destruct (sockets s !! ws ≫= clientType)).
  assert (isOpen s3 ws = true) as Ho3.
  { rewrite <- Ho.
    apply (isOpen_retyped
             (fun k => {| readyState := readyState k;
                          clientType := Some xfetch |}) ws);
      [| reflexivity].
    unfold s3. by destruct (sockets s !! ws ≫= clientType). }
  unfold send. rewrite Ho3, Hc.
  assert ((length (clients_extension s) =? 1) = false) as ->
    by (apply Nat.eqb_neq; lia).
  reflexivity.
Qed.

(** X7.  When the socket of an executor closes and the registry holds no
    other executor, every requester whose socket is open is told that no
    executor is available, each once; when another executor remains, no
    frame is sent. *)
Theorem last_executor_gone_is_announced (now : Time)
    (ws clientId : ClientId) (s : State) :
  sockets s !! ws ≫= clientType = Some extension ->
  let r := onClose now ws clientId s in
  r.2 = match OMap.delete (clients_extension s) clientId with
        | [] => announcements now false r.1
        | _ :: _ => []
        end
  /\ clients_xfetch r.1 = clients_xfetch s
  /\ forall c,
       isOpen r.1 c = if decide (c = ws) then false else isOpen s c.
Proof.
  intros Hrole. rewrite (onClose_role _ _ _ _ _ Hrole). cbv zeta.
  cbn [fst snd set_clients].
  split; [| split].
  - cbn [clients_extension set_pending set_extension set_sockets].
    destruct (OMap.delete (clients_extension s) clientId) as [| e l];
      cbn [length Nat.eqb]; [| reflexivity].
    rewrite notify_announcements. by apply announcements_ext.
  - reflexivity.
  - intros c. unfold isOpen, readyStateOf.
    cbn [sockets set_stats set_pending set_extension set_sockets].
    rewrite lookup_alter. case_decide as E.
    + subst c. rewrite decide_True by reflexivity.
      by destruct (sockets s !! ws).
    + by rewrite decide_False by congruence.
Qed.

(** ** Dispatch *)

Lemma sendToExtension_sent m s :
  (sendToExtension m s).1 = true ->
  exists e,
    bestExtension s = Some e /\ isOpen s e = true /\
    sendToExtension m s = (true, [(e, FMessage m)]) /\
    clients_extension s <> [].
Proof.
  unfold sendToExtension.
  destruct (clients_extension s) as [| x l] eqn:E; [discriminate |].
  cbn [length Nat.eqb].
  destruct (bestExtension s) as [e |]; [| discriminate].
  destruct (isOpen s e) eqn:Ho; [| discriminate].
  intros _. by exists e.
Qed.

Lemma scan_all_closed open entries : forall best bh,
  all_closed open entries -> scanExtensions open entries best bh = best.
Proof.
  induction entries as [| [k d] l IH]; intros best bh H; [reflexivity |].
  cbn [scanExtensions]. rewrite (H 0 k d eq_refl).
  apply IH. intros j k' d' Hj. exact (H (S j) k' d' Hj).
Qed.

Lemma response_out now ws m c s :
  pendingRequests s !! m_id m = None ->
  (handleExtensionResponse now ws m c s).2 = [].
Proof.
  intros H. unfold handleExtensionResponse. cbv zeta.
  cbn [pendingRequests set_extension]. by rewrite H.
Qed.

(** X8.  A request that comes in while an executor with an open socket is
    registered goes to the selected executor at once: nothing is queued and
    no timer is armed.  When the response of the executor arrives, the
    requester gets that response, if its socket is still open, and the
    in-flight table is as it was before the request. *)
Theorem request_response_round_trip (now now' : Time)
    (ws clientId ews eid : ClientId) (message response : Message)
    (s : State) :
  (sendToExtension message s).1 = true ->
  pendingRequests s !! m_id message = None ->
  m_id response = m_id message ->
  let r1 := handleXfetchRequest now ws message clientId s in
  let r2 := handleExtensionResponse now' ews response eid r1.1 in
  (exists e,
     bestExtension s = Some e /\ r1.2 = [(e, FMessage message)]) /\
  pendingRequestsQueue r1.1 = pendingRequestsQueue s /\
  timers r1.1 = timers s /\
  r2.2 = (if isOpen s ws then [(ws, FMessage response)] else []) /\
  pendingRequests r2.1 = pendingRequests s /\
  requestsProcessed (stats r2.1) = S (requestsProcessed (stats s)).
Proof.
  intros Hsent Hnew Hid. cbv zeta.
  destruct (sendToExtension_sent _ _ Hsent) as (e & He & Ho & Hs & Hne).
  assert (handleXfetchRequest now ws message clientId s
          = (set_pending
               (insert (m_id message)
                  {| pr_client := ws; pr_timestamp := now;
                     pr_id := m_id message; pr_url := m_url message;
                     pr_options := m_options message;
                     pr_clientId := clientId |})
               (set_xfetch
                  (fun m => OMap.alter (cd_touch now) m clientId) s),
             [(e, FMessage message)])) as ->.
  { unfold handleXfetchRequest, validateExtensionClients. cbv zeta.
    cbn [clients_extension set_pending set_xfetch].
    destruct (clients_extension s) as [| x l] eqn:E; [done |].
    cbn [length Nat.eqb Nat.ltb Nat.leb andb].
    change (sendToExtension message (set_pending _ (set_xfetch _ s)))
      with (sendToExtension message s).
    by rewrite Hs. }
  cbn [fst snd].
  split; [by exists e |]. split; [reflexivity |]. split; [reflexivity |].
  unfold handleExtensionResponse. cbv zeta.
  cbn [pendingRequests set_extension set_pending set_xfetch].
  rewrite Hid, lookup_insert_eq. cbn [fst snd pr_client].
  split; [| split].
  - unfold sendToXfetch.
    change (isOpen (set_extension _ (set_pending _ (set_xfetch _ s))) ws)
      with (isOpen s ws).
    by destruct (isOpen s ws).
  - cbn [pendingRequests set_pending set_xfetch set_extension set_stats].
    by rewrite delete_insert_id.
  - reflexivity.
Qed.

(** X9.  A request that comes in while executors are registered, none of
    them with an open socket, fails at once: the requester gets the error
    frame of a failed send if its socket is open, the request is in neither
    table afterwards, no retry is armed, and the request is counted as
    failed. *)
Theorem no_open_executor_fails_at_once (now : Time)
    (ws clientId : ClientId) (message : Message) (s : State) :
  clients_extension s <> [] ->
  all_closed (isOpen s) (clients_extension s) ->
  let r := handleXfetchRequest now ws message clientId s in
  r.2 = send s ws (FError (m_id message) send_failed_error) /\
  pendingRequests r.1 !! m_id message = None /\
  pendingRequestsQueue r.1 !! m_id message = None /\
  timers r.1 = timers s /\
  requestsFailed (stats r.1) = S (requestsFailed (stats s)) /\
  requestsProcessed (stats r.1) = S (requestsProcessed (stats s)).
Proof.
  intros Hne Hclosed. cbv zeta.
  assert (bestExtension s = None) as Hbest
    by apply scan_all_closed, Hclosed.
  unfold handleXfetchRequest, validateExtensionClients. cbv zeta.
  cbn [clients_extension set_pending set_xfetch].
  destruct (clients_extension s) as [| x l] eqn:E; [done |].
  cbn [length Nat.eqb Nat.ltb Nat.leb andb].
  assert (forall s', clients_extension s' = clients_extension s ->
            sockets s' = sockets s -> sendToExtension message s' = (false, []))
    as Hsend.
  { intros s' Hc Hs. unfold sendToExtension, bestExtension. rewrite Hc, E.
    cbn [length Nat.eqb].
    replace (scanExtensions (isOpen s') (x :: l) None (-1)%Z)
      with (bestExtension s); [by rewrite Hbest |].
    unfold bestExtension. rewrite E. f_equal.
    unfold isOpen, readyStateOf. by rewrite Hs. }
  rewrite Hsend by (try exact E; reflexivity).
  cbn [negb fst snd app].
  split; [reflexivity |].
  cbn [pendingRequests pendingRequestsQueue timers stats set_xfetch set_stats
         set_pending set_queue].
  split; [apply lookup_delete_eq |].
  split; [apply lookup_delete_eq |].
  by repeat split.
Qed.

(** ** The cleanup interval *)

(** X10.  A tick of the cleanup interval removes from the in-flight table
    the requests older than two minutes and keeps the others; it sends
    nothing, counts nothing, and leaves the queue and the timers alone.  A
    response that arrives for a removed request produces no frame. *)
Theorem cleanup_forgets_old_requests (now : Time) (s : State) :
  let s1 := cleanupTick now s in
  (forall id pr,
     pendingRequests s1 !! id = Some pr <->
     pendingRequests s !! id = Some pr /\
     (now - pr_timestamp pr <= CLEANUP_INTERVAL)%N) /\
  pendingRequestsQueue s1 = pendingRequestsQueue s /\
  timers s1 = timers s /\ stats s1 = stats s /\
  forall now' ews eid response pr,
    pendingRequests s !! m_id response = Some pr ->
    (CLEANUP_INTERVAL < now - pr_timestamp pr)%N ->
    (handleExtensionResponse now' ews response eid s1).2 = [].
Proof.
  cbv zeta. unfold cleanupTick.
  assert (forall id pr,
            pendingRequests
              (set_pending
                 (filter (fun kv : ReqId * PendingRequest =>
                            ~ (CLEANUP_INTERVAL < now - pr_timestamp kv.2)%N))
                 s) !! id = Some pr <->
            pendingRequests s !! id = Some pr /\
            (now - pr_timestamp pr <= CLEANUP_INTERVAL)%N) as Hp.
  { intros id pr. cbn [pendingRequests set_pending].
    rewrite map_lookup_filter_Some. cbn [snd]. split; intros [H1 H2].
    - split; [exact H1 | lia].
    - split; [exact H1 | lia]. }
  split; [exact Hp |]. split; [reflexivity |]. split; [reflexivity |].
  split; [reflexivity |].
  intros now' ews eid response pr Hin Hold.
  apply response_out.
  match goal with
  | |- ?m !! ?i = None => destruct (m !! i) as [pr' |] eqn:E
  end; [| reflexivity].
  apply Hp in E as [E1 E2].
  assert (pr' = pr) by congruence. subst. lia.
Qed.

(** ** The request counters *)

Lemma stats_ok_failed st : stats_ok st -> stats_ok (count_failed st).
Proof. unfold stats_ok. simpl. lia. Qed.

Lemma stats_ok_outcome ok st : stats_ok st -> stats_ok (count_outcome ok st).
Proof. unfold stats_ok. destruct ok; simpl; lia. Qed.

Lemma stats_ok_termination n st :
  stats_ok st -> stats_ok (count_termination n st).
Proof. unfold stats_ok. simpl. lia. Qed.

Lemma stats_set_clients role f s : stats (set_clients role f s) = stats s.
Proof. by destruct role. Qed.

Lemma validate_stats_ok now m ws cid count s :
  stats_ok (stats s) ->
  stats_ok (stats (validateExtensionClients now m ws cid count s).1).
Proof.
  intros H. unfold validateExtensionClients. cbv zeta.
  destruct ((length (clients_extension s) =? 0) && (count <? 3)).
  { by destruct (pendingRequestsQueue s !! m_id m). }
  destruct ((length (clients_extension s) =? 0) && (3 <=? count)).
  { by apply stats_ok_failed. }
  destruct (0 <? length (clients_extension s)).
  - destruct (sendToExtension m s) as [[|] out]; [exact H |].
    by apply stats_ok_failed.
  - by apply stats_ok_failed.
Qed.

Lemma pingClient_stats_ok role now acc k :
  stats_ok (stats acc.1) -> stats_ok (stats (pingClient role now acc k).1).
Proof.
  intros H. unfold pingClient.
  destruct (OMap.get (clients role acc.1) k) as [d |]; [| exact H].
  destruct (isOpen acc.1 (client d)); [| exact H].
  cbn [setTimeout fst snd stats set_stats]. rewrite stats_set_clients.
  exact H.
Qed.

Lemma sendHeartbeats_stats_ok role now s :
  stats_ok (stats s) -> stats_ok (stats (sendHeartbeats role now s).1).
Proof.
  unfold sendHeartbeats. intros H.
  assert (stats_ok (stats (s, @nil Out).1)) as Hacc by exact H.
  revert Hacc. generalize ((clients role s).*1) as ks.
  generalize (s, @nil Out) as acc. clear H.
  intros acc ks. revert acc.
  induction ks as [| k ks IH]; intros acc H; [exact H |].
  cbn [foldl]. by apply IH, pingClient_stats_ok.
Qed.

Lemma checkClient_stats_ok role s k :
  stats_ok (stats s) -> stats_ok (stats (checkClient role s k)).
Proof.
  intros H. unfold checkClient.
  destruct (OMap.get (clients role s) k) as [d |]; [| exact H].
  destruct (HEARTBEAT_maxMissed <=? missedHeartbeats d); [| exact H].
  cbv zeta. cbn [stats set_stats set_pending]. rewrite stats_set_clients.
  apply stats_ok_termination.
  destruct (pongTimeoutId d);
    match goal with
    | |- context [isOpen ?x ?c] => destruct (isOpen x c)
    end; exact H.
Qed.

Lemma checkClientHealth_stats_ok role s :
  stats_ok (stats s) -> stats_ok (stats (checkClientHealth role s)).
Proof.
  unfold checkClientHealth. generalize ((clients role s).*1) as ks.
  intros ks. revert s.
  induction ks as [| k ks IH]; intros s H; [exact H |].
  cbn [foldl]. by apply IH, checkClient_stats_ok.
Qed.

Lemma step_stats_ok now e s :
  stats_ok (stats s) -> stats_ok (stats (step now e s).1).
Proof.
  intros H. destruct e as [c | ws c frame | ws c | | tid]; cbn [step].
  - exact H.
  - destruct frame as [| | role | m]; cbn [onMessage fst].
    + unfold handlePongResponse.
      destruct (sockets s !! ws ≫= clientType) as [role |]; [| exact H].
      destruct (OMap.get (clients role s) c) as [d |]; [| exact H].
      cbn [stats set_stats]. rewrite stats_set_clients.
      by destruct (pongTimeoutId d).
    + exact H.
    + unfold handleClientIdentification. cbv zeta. cbn [fst].
      destruct (sockets s !! ws ≫= clientType);
        cbn [stats set_stats]; rewrite stats_set_clients; exact H.
    + destruct (sockets s !! ws ≫= clientType) as [[|] |]; [| | exact H].
      * destruct (Js.truthy (m_url m) && Js.truthy (m_options m));
          [| exact H].
        unfold handleXfetchRequest. cbv zeta.
        by apply validate_stats_ok.
      * unfold handleExtensionResponse. cbv zeta.
        cbn [pendingRequests set_extension].
        destruct (pendingRequests s !! m_id m); [| exact H].
        cbn [fst stats set_pending set_xfetch set_extension set_stats].
        by apply stats_ok_outcome.
  - unfold onClose. cbv zeta.
    destruct (_ ≫= clientType) as [role |]; [| exact H].
    cbn [fst stats set_stats set_pending]. rewrite stats_set_clients.
    exact H.
  - unfold heartbeatTick.
    pose proof (sendHeartbeats_stats_ok extension now s H) as H1.
    destruct (sendHeartbeats extension now s) as [s1 o1].
    pose proof (sendHeartbeats_stats_ok xfetch now s1 H1) as H2.
    destruct (sendHeartbeats xfetch now s1) as [s2 o2].
    cbn [fst]. by apply checkClientHealth_stats_ok, checkClientHealth_stats_ok.
  - unfold fireTimer.
    destruct (timers s !! tid) as [[delay body] |]; [| exact H].
    destruct body as [m ws c count | role c].
    + unfold retryFired. by apply validate_stats_ok.
    + cbn [fst]. unfold pongTimeoutFired.
      cbn [clients clearTimeout].
      match goal with
      | |- context [OMap.get ?m c] => destruct (OMap.get m c) as [d |]
      end; [| exact H].
      match goal with
      | |- context [if ?b then _ else _] => destruct b
      end; [| exact H].
      cbn [stats set_stats]. rewrite stats_set_clients. exact H.
Qed.

(** X11.  Whatever happens to the broker, its request counters stay
    consistent: no more requests are counted as succeeded than as processed,
    and no more as processed than as succeeded or failed. *)
Theorem request_counters_stay_consistent (es : list (Time * Event))
    (s : State) :
  stats_ok (stats s) -> stats_ok (stats (run es s).1).
Proof.
  revert s. induction es as [| [now e] es IH]; intros s H; [exact H |].
  cbn [run]. pose proof (step_stats_ok now e s H) as H1.
  destruct (step now e s) as [s1 o1]. specialize (IH s1 H1).
  by destruct (run es s1).
Qed.

(** ** The retry timers of the queue *)

Lemma Forall_alter {V} (P : nat * V -> Prop) (f : V -> V) m k :
  (forall k' v, P (k', v) -> P (k', f v)) ->
  Forall P m -> Forall P (OMap.alter f m k).
Proof.
  intros Hf. induction 1 as [| [k0 v0] m H0 Hm IH]; simpl; [constructor |].
  destruct (decide (k0 = k)); constructor; auto.
Qed.

Lemma Forall_set {V} (P : nat * V -> Prop) m k v :
  (forall k', P (k', v)) -> Forall P m -> Forall P (OMap.set m k v).
Proof.
  intros Hv. induction 1 as [| [k0 v0] m H0 Hm IH]; simpl.
  - constructor; [apply Hv | constructor].
  - destruct (decide (k0 = k)); constructor; auto.
Qed.

Lemma Forall_delete {V} (P : nat * V -> Prop) m k :
  Forall P m -> Forall P (OMap.delete m k).
Proof.
  induction 1 as [| [k0 v0] m H0 Hm IH]; simpl; [constructor |].
  destruct (decide (k0 = k)); [exact Hm | by constructor].
Qed.

Lemma Forall_get {V} (P : nat * V -> Prop) (m : list (nat * V)) k v :
  Forall P m -> OMap.get m k = Some v -> P (k, v).
Proof.
  induction 1 as [| [k0 v0] m H0 Hm IH]; simpl; [discriminate |].
  destruct (decide (k0 = k)) as [<- | Hne]; [by intros [= <-] | exact IH].
Qed.

Lemma pong_ok_same tm nt k (d d' : ClientData) :
  pongTimeoutId d' = pongTimeoutId d \/ pongTimeoutId d' = None ->
  pong_ok tm nt (k, d) -> pong_ok tm nt (k, d').
Proof.
  intros [H | H] Hd t; cbn [snd]; rewrite H; [apply Hd | discriminate].
Qed.

Lemma armed_clients tm nt q ce cx ce' cx' :
  armed tm nt q ce cx ->
  Forall (pong_ok tm nt) ce' -> Forall (pong_ok tm nt) cx' ->
  armed tm nt q ce' cx'.
Proof.
  intros (H1 & H2 & _ & _) He Hx.
  split; [exact H1 |]. split; [exact H2 |]. by split.
Qed.

Lemma armed_queue_delete tm nt q ce cx id :
  armed tm nt q ce cx -> armed tm nt (delete id q) ce cx.
Proof.
  intros (H1 & H2 & H3 & H4).
  split; [exact H1 |]. split; [| by split].
  intros id' item Hq. apply lookup_delete_Some in Hq as [_ Hq].
  by apply H2.
Qed.

Lemma Forall_pong_ok_weaken tm tm' nt nt' l :
  nt <= nt' ->
  (forall t x, t < nt -> tm' !! t = Some x -> tm !! t = Some x) ->
  Forall (pong_ok tm nt) l -> Forall (pong_ok tm' nt') l.
Proof.
  intros Hnt Htm Hl. eapply Forall_impl; [exact Hl |].
  intros e He t Ht.
  destruct (He t Ht) as [Hlt Hx]. split; [lia |].
  intros x Hx'. apply Hx. by apply Htm.
Qed.

Lemma armed_clear tm nt q ce cx t :
  armed tm nt q ce cx ->
  (forall x, tm !! t = Some x -> is_pong_timeout x) ->
  armed (delete t tm) nt q ce cx.
Proof.
  intros (H1 & H2 & H3 & H4) Ht. split; [| split; [| split]].
  - intros t' x Hl. apply lookup_delete_Some in Hl as [_ Hl]. by eapply H1.
  - intros id item Hq. destruct (H2 id item Hq) as [Hid [count Hc]].
    split; [exact Hid |]. exists count.
    rewrite lookup_delete_ne; [exact Hc |].
    intros Heq. rewrite <- Heq in Hc. apply Ht in Hc. exact Hc.
  - eapply Forall_pong_ok_weaken; [| | exact H3]; [lia |].
    intros t' x _ Hl. by apply lookup_delete_Some in Hl as [_ Hl].
  - eapply Forall_pong_ok_weaken; [| | exact H4]; [lia |].
    intros t' x _ Hl. by apply lookup_delete_Some in Hl as [_ Hl].
Qed.

Lemma armed_fire tm nt q ce cx t delay m ws c n :
  armed tm nt q ce cx ->
  tm !! t = Some (delay, RetryValidate m ws c n) ->
  armed (delete t tm) nt (delete (m_id m) q) ce cx.
Proof.
  intros (H1 & H2 & H3 & H4) Ht. split; [| split; [| split]].
  - intros t' x Hl. apply lookup_delete_Some in Hl as [_ Hl]. by eapply H1.
  - intros id item Hq. apply lookup_delete_Some in Hq as [Hne Hq].
    destruct (H2 id item Hq) as [Hid [count Hc]].
    split; [exact Hid |]. exists count.
    rewrite lookup_delete_ne; [exact Hc |].
    intros Heq. rewrite <- Heq, Ht in Hc. unfold retry_of in Hc.
    injection Hc as _ Hm _ _ _. congruence.
  - eapply Forall_pong_ok_weaken; [| | exact H3]; [lia |].
    intros t' x _ Hl. by apply lookup_delete_Some in Hl as [_ Hl].
  - eapply Forall_pong_ok_weaken; [| | exact H4]; [lia |].
    intros t' x _ Hl. by apply lookup_delete_Some in Hl as [_ Hl].
Qed.

Lemma armed_arm_pong tm nt q ce cx delay role k :
  armed tm nt q ce cx ->
  armed (<[nt := (delay, PongTimeout role k)]> tm) (S nt) q ce cx.
Proof.
  intros (H1 & H2 & H3 & H4). split; [| split; [| split]].
  - intros t x Hl. apply lookup_insert_Some in Hl as [[<- _] | [_ Hl]];
      [lia |]. apply H1 in Hl. lia.
  - intros id item Hq. destruct (H2 id item Hq) as [Hid [count Hc]].
    split; [exact Hid |]. exists count.
    rewrite lookup_insert_ne; [exact Hc |]. apply H1 in Hc. lia.
  - eapply Forall_pong_ok_weaken; [| | exact H3]; [lia |].
    intros t x Hlt Hl. rewrite lookup_insert_ne in Hl by lia. exact Hl.
  - eapply Forall_pong_ok_weaken; [| | exact H4]; [lia |].
    intros t x Hlt Hl. rewrite lookup_insert_ne in Hl by lia. exact Hl.
Qed.

Lemma armed_arm_retry tm nt q ce cx m ws c n now :
  armed tm nt q ce cx -> q !! m_id m = None ->
  armed (<[nt := (2000%N, RetryValidate m ws c n)]> tm) (S nt)
    (<[m_id m := {| q_client := ws; q_timestamp := now; q_id := m_id m;
                    q_url := m_url m; q_clientId := c;
                    q_originalMessage := m; q_timeoutId := nt |}]> q)
    ce cx.
Proof.
  intros (H1 & H2 & H3 & H4) Hnew. split; [| split; [| split]].
  - intros t x Hl. apply lookup_insert_Some in Hl as [[<- _] | [_ Hl]];
      [lia |]. apply H1 in Hl. lia.
  - intros id item Hq.
    apply lookup_insert_Some in Hq as [[<- <-] | [Hne Hq]].
    + split; [reflexivity |]. exists n. cbn [q_timeoutId].
      by rewrite lookup_insert_eq.
    + destruct (H2 id item Hq) as [Hid [count Hc]].
      split; [exact Hid |]. exists count.
      rewrite lookup_insert_ne; [exact Hc |]. apply H1 in Hc. lia.
  - eapply Forall_pong_ok_weaken; [| | exact H3]; [lia |].
    intros t x Hlt Hl. rewrite lookup_insert_ne in Hl by lia. exact Hl.
  - eapply Forall_pong_ok_weaken; [| | exact H4]; [lia |].
    intros t x Hlt Hl. rewrite lookup_insert_ne in Hl by lia. exact Hl.
Qed.

Lemma validate_queue_inv now m ws c n s :
  queue_inv s -> queue_inv (validateExtensionClients now m ws c n s).1.
Proof.
  intros H. unfold validateExtensionClients. cbv zeta.
  destruct ((length (clients_extension s) =? 0) && (n <? 3)).
  { unfold queue_inv.
    destruct (pendingRequestsQueue s !! m_id m) as [item |] eqn:E;
      cbn [fst setTimeout clearTimeout timers nextTimer pendingRequestsQueue
             clients_extension clients_xfetch set_queue].
    - destruct H as (H1 & H2 & H3 & H4).
      destruct (H2 _ _ E) as [Hid [count Hc]].
      rewrite <- (insert_delete_eq (pendingRequestsQueue s)).
      apply armed_arm_retry; [| apply lookup_delete_eq].
      pose proof (armed_fire _ _ _ _ _ _ _ _ _ _ _
                    (conj H1 (conj H2 (conj H3 H4))) Hc) as Hf.
      by rewrite Hid in Hf.
    - by apply armed_arm_retry. }
  assert (queue_inv
            (set_stats count_failed
               (set_pending (delete (m_id m))
                  (set_queue (delete (m_id m)) s)))) as Hfail
    by (by apply armed_queue_delete).
  destruct ((length (clients_extension s) =? 0) && (3 <=? n));
    [exact Hfail |].
  destruct (0 <? length (clients_extension s)); [| exact Hfail].
  destruct (sendToExtension m s) as [[|] out]; [exact H |].
  cbn [negb fst]. unfold queue_inv in *.
  cbn [timers nextTimer pendingRequestsQueue clients_extension clients_xfetch
         set_xfetch set_stats set_pending set_queue].
  apply armed_queue_delete.
  eapply armed_clients; [exact H | apply H |].
  apply Forall_alter; [| apply H].
  intros k d. apply pong_ok_same. by left.
Qed.

Lemma pingClient_queue_inv role now acc k :
  queue_inv acc.1 -> queue_inv (pingClient role now acc k).1.
Proof.
  intros H. unfold pingClient.
  destruct (OMap.get (clients role acc.1) k) as [d |]; [| exact H].
  destruct (isOpen acc.1 (client d)); [| exact H].
  unfold queue_inv in *.
  pose proof (armed_arm_pong _ _ _ _ _ HEARTBEAT_timeout role k H)
    as (A1 & A2 & A3 & A4).
  assert (forall k' d', pong_ok
            (<[nextTimer acc.1 := (HEARTBEAT_timeout, PongTimeout role k)]>
               (timers acc.1)) (S (nextTimer acc.1))
            (k', cd_ping now (nextTimer acc.1) d')) as Hping.
  { intros k' d' t [= <-]. split; [lia |].
    intros x. rewrite lookup_insert_eq. by intros [= <-]. }
  destruct role; cbn [fst setTimeout timers nextTimer pendingRequestsQueue
                        clients_extension clients_xfetch set_clients
                        set_extension set_xfetch set_stats];
    (split; [exact A1 |]); (split; [exact A2 |]); split;
    first [ exact A3 | exact A4
          | apply Forall_alter;
            [intros; apply Hping | first [exact A3 | exact A4]] ].
Qed.

Lemma sendHeartbeats_queue_inv role now s :
  queue_inv s -> queue_inv (sendHeartbeats role now s).1.
Proof.
  unfold sendHeartbeats. intros H.
  assert (queue_inv (s, @nil Out).1) as Hacc by exact H.
  revert Hacc. generalize ((clients role s).*1) as ks.
  generalize (s, @nil Out) as acc. clear H.
  intros acc ks. revert acc.
  induction ks as [| k ks IH]; intros acc H; [exact H |].
  cbn [foldl]. by apply IH, pingClient_queue_inv.
Qed.

Lemma entry_pong_ok role s k d t :
  queue_inv s -> OMap.get (clients role s) k = Some d ->
  pongTimeoutId d = Some t ->
  forall x, timers s !! t = Some x -> is_pong_timeout x.
Proof.
  intros (_ & _ & H3 & H4) Hg Ht.
  assert (pong_ok (timers s) (nextTimer s) (k, d)) as Hd.
  { destruct role; cbn [clients] in Hg;
      first [exact (Forall_get _ _ _ _ H4 Hg) | exact (Forall_get _ _ _ _ H3 Hg)]. }
  by destruct (Hd t Ht).
Qed.

Lemma checkClient_queue_inv role s k :
  queue_inv s -> queue_inv (checkClient role s k).
Proof.
  intros H. unfold checkClient.
  destruct (OMap.get (clients role s) k) as [d |] eqn:Hg; [| exact H].
  destruct (HEARTBEAT_maxMissed <=? missedHeartbeats d); [| exact H].
  cbv zeta.
  assert (queue_inv match pongTimeoutId d with
                    | Some t => clearTimeout t s
                    | None => s
                    end) as H1.
  { destruct (pongTimeoutId d) as [t |] eqn:Et; [| exact H].
    apply armed_clear; [exact H |]. by eapply entry_pong_ok. }
  set (s1 := match pongTimeoutId d with
             | Some t => clearTimeout t s
             | None => s
             end) in *.
  assert (queue_inv (if isOpen s1 (client d) then terminate (client d) s1
                     else s1)) as H2
    by (by destruct (isOpen s1 (client d))).
  set (s2 := if isOpen s1 (client d) then terminate (client d) s1 else s1)
    in *.
  unfold queue_inv in *.
  destruct role;
    cbn [timers nextTimer pendingRequestsQueue clients_extension
           clients_xfetch set_clients set_extension set_xfetch set_stats
           set_pending];
    (eapply armed_clients; [exact H2 | |]);
    try apply Forall_delete; apply H2.
Qed.

Lemma checkClientHealth_queue_inv role s :
  queue_inv s -> queue_inv (checkClientHealth role s).
Proof.
  unfold checkClientHealth. generalize ((clients role s).*1) as ks.
  intros ks. revert s.
  induction ks as [| k ks IH]; intros s H; [exact H |].
  cbn [foldl]. by apply IH, checkClient_queue_inv.
Qed.

Lemma step_queue_inv now e s : queue_inv s -> queue_inv (step now e s).1.
Proof.
  intros H. destruct e as [c | ws c frame | ws c | | tid]; cbn [step].
  - exact H.
  - destruct frame as [| | role | m]; cbn [onMessage fst].
    + unfold handlePongResponse.
      destruct (sockets s !! ws ≫= clientType) as [role |]; [| exact H].
      destruct (OMap.get (clients role s) c) as [d |] eqn:Hg; [| exact H].
      assert (queue_inv match pongTimeoutId d with
                        | Some t => clearTimeout t s
                        | None => s
                        end) as H1.
      { destruct (pongTimeoutId d) as [t |] eqn:Et; [| exact H].
        apply armed_clear; [exact H |]. by eapply entry_pong_ok. }
      set (s1 := match pongTimeoutId d with
                 | Some t => clearTimeout t s
                 | None => s
                 end) in *.
      unfold queue_inv in *.
      destruct role;
        cbn [timers nextTimer pendingRequestsQueue clients_extension
               clients_xfetch set_clients set_extension set_xfetch set_stats];
        (eapply armed_clients; [exact H1 | |]);
        try (apply Forall_alter;
             [intros k' d'; apply pong_ok_same; by right |]);
        apply H1.
    + exact H.
    + unfold handleClientIdentification. cbv zeta. cbn [fst].
      unfold queue_inv in *.
      destruct (sockets s !! ws ≫= clientType); destruct role;
        cbn [timers nextTimer pendingRequestsQueue clients_extension
               clients_xfetch set_clients set_extension set_xfetch set_stats
               set_sockets];
        (eapply armed_clients; [exact H | |]);
        try (apply Forall_set; [intros k' t; discriminate |]);
        apply H.
    + destruct (sockets s !! ws ≫= clientType) as [[|] |]; [| | exact H].
      * destruct (Js.truthy (m_url m) && Js.truthy (m_options m));
          [| exact H].
        unfold handleXfetchRequest. cbv zeta.
        apply validate_queue_inv. unfold queue_inv in *.
        cbn [timers nextTimer pendingRequestsQueue clients_extension
               clients_xfetch set_xfetch set_pending].
        eapply armed_clients; [exact H | apply H |].
        apply Forall_alter; [| apply H].
        intros k d. apply pong_ok_same. by left.
      * unfold handleExtensionResponse. cbv zeta.
        cbn [pendingRequests set_extension].
        unfold queue_inv in *.
        destruct (pendingRequests s !! m_id m);
          cbn [fst timers nextTimer pendingRequestsQueue clients_extension
                 clients_xfetch set_xfetch set_pending set_extension
                 set_stats];
          (eapply armed_clients; [exact H | |]);
          repeat (apply Forall_alter;
                  [intros k d; apply pong_ok_same; by left |]);
          apply H.
  - unfold onClose. cbv zeta.
    destruct (_ ≫= clientType) as [role |]; [| exact H].
    unfold queue_inv in *.
    destruct role;
      cbn [fst timers nextTimer pendingRequestsQueue clients_extension
             clients_xfetch set_clients set_extension set_xfetch set_stats
             set_pending set_sockets];
      (eapply armed_clients; [exact H | |]);
      try apply Forall_delete; apply H.
  - unfold heartbeatTick.
    pose proof (sendHeartbeats_queue_inv extension now s H) as H1.
    destruct (sendHeartbeats extension now s) as [s1 o1].
    pose proof (sendHeartbeats_queue_inv xfetch now s1 H1) as H2.
    destruct (sendHeartbeats xfetch now s1) as [s2 o2].
    cbn [fst]. by apply checkClientHealth_queue_inv, checkClientHealth_queue_inv.
  - unfold fireTimer.
    destruct (timers s !! tid) as [[delay body] |] eqn:Et; [| exact H].
    destruct body as [m ws c count | role c].
    + unfold retryFired. apply validate_queue_inv.
      eapply armed_fire; [exact H | exact Et].
    + cbn [fst]. unfold pongTimeoutFired.
      assert (queue_inv (clearTimeout tid s)) as H1.
      { apply armed_clear; [exact H |]. intros x. rewrite Et.
        by intros [= <-]. }
      set (s1 := clearTimeout tid s) in *.
      destruct (OMap.get (clients role s1) c) as [d |]; [| exact H1].
      destruct (awaitingPong d && isOpen s1 (client d)); [| exact H1].
      unfold queue_inv in *.
      destruct role;
        cbn [timers nextTimer pendingRequestsQueue clients_extension
               clients_xfetch set_clients set_extension set_xfetch set_stats];
        (eapply armed_clients; [exact H1 | |]);
        try (apply Forall_alter;
             [intros k' d'; apply pong_ok_same; by left |]);
        apply H1.
Qed.

(** X26.  Whatever happens to the broker, every request in the retry queue
    has its retry armed: the queue entry is filed under the id of its
    request, and the timer whose handle it holds is armed at two seconds
    and retries the dispatch of this very request for the requester of the
    entry. *)
Theorem queued_request_has_its_retry_armed (es : list (Time * Event))
    (s : State) (id : ReqId) (item : QueueItem) :
  queue_inv s ->
  pendingRequestsQueue (run es s).1 !! id = Some item ->
  m_id (q_originalMessage item) = id /\
  exists count,
    timers (run es s).1 !! q_timeoutId item
    = Some (2000%N,
            RetryValidate (q_originalMessage item) (q_client item)
              (q_clientId item) count).
Proof.
  intros H Hq.
  assert (queue_inv (run es s).1) as (_ & H2 & _).
  { clear Hq. revert s H.
    induction es as [| [now e] es IH]; intros s H; [exact H |].
    cbn [run]. pose proof (step_queue_inv now e s H) as H1.
    destruct (step now e s) as [s1 o1]. specialize (IH s1 H1).
    by destruct (run es s1). }
  exact (H2 id item Hq).
Qed.

(** ** Instances *)

Lemma unique_keys_decide (m : list (ClientId * ClientData)) :
  bool_decide (NoDup m.*1) = true -> unique_keys m.
Proof. intros H. by apply bool_decide_eq_true in H. Qed.

Lemma checkClientHealth_keeps_the_responsive_witness :
  clients xfetch (checkClientHealth xfetch BrokerMoreScenario.unresponsive)
  = filter below_ceiling (clients xfetch BrokerMoreScenario.unresponsive) /\
  clients extension (checkClientHealth xfetch BrokerMoreScenario.unresponsive)
  = clients extension BrokerMoreScenario.unresponsive.
Proof.
  apply (checkClientHealth_keeps_the_responsive xfetch
           BrokerMoreScenario.unresponsive).
  apply unique_keys_decide. vm_compute. reflexivity.
Defined.

Lemma checkClientHealth_purges_the_terminated_witness :
  pendingRequests (checkClientHealth xfetch BrokerMoreScenario.unresponsive)
    !! "r1" = Some BrokerMoreScenario.r1_pending <->
  pendingRequests BrokerMoreScenario.unresponsive !! "r1"
  = Some BrokerMoreScenario.r1_pending /\
  Forall (fun e => below_ceiling e \/
                   pr_client BrokerMoreScenario.r1_pending <> client e.2)
    (clients xfetch BrokerMoreScenario.unresponsive).
Proof.
  apply (checkClientHealth_purges_the_terminated xfetch
           BrokerMoreScenario.unresponsive "r1"
           BrokerMoreScenario.r1_pending).
  apply unique_keys_decide. vm_compute. reflexivity.
Defined.

Lemma sendHeartbeats_pings_the_open_clients_witness :
  (sendHeartbeats xfetch 3000%N BrokerScenario.bothConnected).2
  = pings 3000%N BrokerScenario.bothConnected
      (clients xfetch BrokerScenario.bothConnected).
Proof.
  apply (sendHeartbeats_pings_the_open_clients xfetch 3000%N
           BrokerScenario.bothConnected).
  apply unique_keys_decide. vm_compute. reflexivity.
Defined.


Lemma closed_requester_loses_its_requests_witness :
  pendingRequestsQueue (onClose 1000%N 1 1 BrokerScenario.inFlight).1
  = pendingRequestsQueue BrokerScenario.inFlight.
Proof.
  apply (closed_requester_loses_its_requests 1000%N 1 1 xfetch
           BrokerScenario.inFlight).
  vm_compute. reflexivity.
Defined.

Lemma first_executor_is_announced_witness :
  (handleClientIdentification 20%N 2 extension 2
     BrokerMoreScenario.executorArrives).2
  = send BrokerMoreScenario.executorArrives 2 FIdentified
    ++ match clients_extension BrokerMoreScenario.executorArrives with
       | [] => announcements 20%N true BrokerMoreScenario.executorArrives
       | _ :: _ => []
       end.
Proof.
  apply (first_executor_is_announced 20%N 2 2
           BrokerMoreScenario.executorArrives).
  vm_compute. reflexivity.
Defined.

Lemma requester_is_told_unavailable_with_two_executors_witness :
  (handleClientIdentification 60%N 4 xfetch 4
     BrokerMoreScenario.twoExecutors).2
  = [(4, FIdentified); (4, FExtension false None)].
Proof.
  apply (requester_is_told_unavailable_with_two_executors 60%N 4 4
           BrokerMoreScenario.twoExecutors).
  - vm_compute. lia.
  - vm_compute. reflexivity.
Defined.

Lemma last_executor_gone_is_announced_witness :
  clients_xfetch (onClose 1000%N 2 2 BrokerScenario.bothConnected).1
  = clients_xfetch BrokerScenario.bothConnected.
Proof.
  apply (last_executor_gone_is_announced 1000%N 2 2
           BrokerScenario.bothConnected).
  vm_compute. reflexivity.
Defined.

Lemma request_response_round_trip_witness :
  pendingRequestsQueue
    (handleXfetchRequest 30%N 1 BrokerScenario.r1 1
       BrokerScenario.bothConnected).1
  = pendingRequestsQueue BrokerScenario.bothConnected.
Proof.
  apply (request_response_round_trip 30%N 40%N 1 1 2 2 BrokerScenario.r1
           BrokerScenario.r1_response BrokerScenario.bothConnected);
    vm_compute; reflexivity.
Defined.

Lemma no_open_executor_fails_at_once_witness :
  (handleXfetchRequest 30%N 1 BrokerScenario.r1 1
     BrokerMoreScenario.executorClosing).2
  = send BrokerMoreScenario.executorClosing 1
      (FError (m_id BrokerScenario.r1) send_failed_error).
Proof.
  apply (no_open_executor_fails_at_once 30%N 1 1 BrokerScenario.r1
           BrokerMoreScenario.executorClosing).
  - vm_compute. discriminate.
  - intros j k d Hj. destruct j as [| j]; vm_compute in Hj; [| discriminate].
    injection Hj as <- <-. vm_compute. reflexivity.
Defined.

Lemma queue_inv_start s :
  timers s = ∅ -> pendingRequestsQueue s = ∅ ->
  Forall (fun e : ClientId * ClientData => pongTimeoutId e.2 = None)
    (clients_extension s ++ clients_xfetch s) ->
  queue_inv s.
Proof.
  intros Ht Hq Hc. apply Forall_app in Hc as [He Hx]. unfold queue_inv.
  rewrite Ht, Hq. split; [| split; [| split]].
  - intros t x H. by rewrite lookup_empty in H.
  - intros id item H. by rewrite lookup_empty in H.
  - eapply Forall_impl; [exact He |]. intros e H t Ht'. congruence.
  - eapply Forall_impl; [exact Hx |]. intros e H t Ht'. congruence.
Qed.

Lemma queued_request_has_its_retry_armed_witness :
  m_id (q_originalMessage BrokerMoreScenario.r1_queued) = "r1" /\
  exists count,
    timers
      (run [(30%N, Received 1 1 (IOther BrokerScenario.r1))]
         BrokerScenario.requesterConnected).1
    !! q_timeoutId BrokerMoreScenario.r1_queued
    = Some (2000%N,
            RetryValidate (q_originalMessage BrokerMoreScenario.r1_queued)
              (q_client BrokerMoreScenario.r1_queued)
              (q_clientId BrokerMoreScenario.r1_queued) count).
Proof.
  apply (queued_request_has_its_retry_armed
           [(30%N, Received 1 1 (IOther BrokerScenario.r1))]
           BrokerScenario.requesterConnected "r1"
           BrokerMoreScenario.r1_queued).
  - apply queue_inv_start.
    + vm_compute. reflexivity.
    + vm_compute. reflexivity.
    + vm_compute. repeat constructor.
  - vm_compute. reflexivity.
Defined.

Lemma request_counters_stay_consistent_witness :
  stats_ok
    (stats (run BrokerScenario.requesterLeaves
              BrokerScenario.requesterConnected).1).
Proof.
  apply (request_counters_stay_consistent BrokerScenario.requesterLeaves
           BrokerScenario.requesterConnected).
  vm_compute. split; lia.
Defined.

End BrokerMoreSpec.

(** * Further properties of the client *)

Module XfetchMoreSpec.
Import Xfetch XfetchMore OMapFacts.

(** ** A closed connection *)

Lemma rejectPending_head s e l :
  pendingRequests s = e :: l ->
  let s' := rejectPending s e in
  pendingRequests s' = l /\
  settled s' = settled s ++ [(p_promise e.2, Rejected connection_closed)] /\
  requestQueue s' = requestQueue s /\ nextTimer s' = nextTimer s /\
  isConnected s' = isConnected s /\
  extensionAvailable s' = extensionAvailable s /\
  forall t,
    timers s' !! t
    = if decide (p_timeoutId e.2 = Some t) then None else timers s !! t.
Proof.
  intros H. destruct e as [k p]. cbv zeta. unfold rejectPending.
  cbn [fst snd].
  destruct (p_timeoutId p) as [t0 |];
    cbn [pendingRequests settled requestQueue nextTimer isConnected
           extensionAvailable timers set_pendingRequests reject set_settled
           clearTimeout set_timers];
    rewrite H, delete_head; repeat split.
  intros t. rewrite lookup_delete.
  destruct (decide (t0 = t)) as [-> | Hne].
  - by rewrite decide_True.
  - by rewrite decide_False by congruence.
Qed.

Lemma rejectPending_all l : forall s,
  pendingRequests s = l ->
  let s' := foldl rejectPending s l in
  pendingRequests s' = [] /\
  settled s'
  = settled s
    ++ ((fun e : ReqId * Pending =>
           (p_promise e.2, Rejected connection_closed)) <$> l) /\
  requestQueue s' = requestQueue s /\ nextTimer s' = nextTimer s /\
  isConnected s' = isConnected s /\
  extensionAvailable s' = extensionAvailable s /\
  forall t,
    timers s' !! t
    = if decide (t ∈ attempt_timers l) then None else timers s !! t.
Proof.
  induction l as [| e l IH]; intros s H; cbv zeta.
  - cbn [foldl]. rewrite app_nil_r. by repeat split.
  - cbn [foldl].
    destruct (rejectPending_head s e l H) as (R1 & R2 & R3 & R4 & R5 & R6 & R7).
    destruct (IH _ R1) as (I1 & I2 & I3 & I4 & I5 & I6 & I7).
    split; [exact I1 |].
    split; [by rewrite I2, R2, fmap_cons, <- app_assoc |].
    split; [congruence |]. split; [congruence |]. split; [congruence |].
    split; [congruence |].
    intros t. rewrite I7, R7. unfold attempt_timers. cbn [omap list_omap].
    fold (omap (fun e : ReqId * Pending => p_timeoutId e.2) l).
    destruct (p_timeoutId e.2) as [t0 |] eqn:E.
    + destruct (decide (t ∈ omap (fun e : ReqId * Pending => p_timeoutId e.2) l))
        as [Hin | Hnin].
      * rewrite decide_True; [done | by right].
      * destruct (decide (Some t0 = Some t)) as [[= ->] | Hne].
        -- rewrite decide_True; [done | left].
        -- rewrite decide_False; [done |].
           intros Hin. apply elem_of_cons in Hin as [Heq | Hin];
             [congruence | done].
    + rewrite (decide_False (P := None = Some t)) by discriminate.
      by destruct (decide (t ∈ _)).
Qed.

(** X13.  When the connection closes, every call that waits for a response
    is rejected with "WebSocket connection closed", once and in the order in
    which the calls were sent; no call stays pending and the timeouts of
    their attempts are cleared.  The calls in the queue stay there. *)
Theorem onclose_rejects_every_pending_call (s : State) :
  let s' := onclose s in
  pendingRequests s' = [] /\
  settled s'
  = settled s
    ++ ((fun e : ReqId * Pending =>
           (p_promise e.2, Rejected connection_closed))
          <$> pendingRequests s) /\
  requestQueue s' = requestQueue s /\
  isConnected s' = false /\ extensionAvailable s' = false /\
  forall t,
    t <> nextTimer s ->
    timers s' !! t
    = if decide (t ∈ attempt_timers (pendingRequests s)) then None
      else timers s !! t.
Proof.
  cbv zeta. unfold onclose. cbv zeta.
  match goal with
  | |- context [foldl rejectPending ?s1 ?l] =>
      destruct (rejectPending_all l s1 eq_refl)
        as (H1 & H2 & H3 & H4 & H5 & H6 & H7);
      set (s2 := foldl rejectPending s1 l) in *
  end.
  cbn [pendingRequests settled requestQueue nextTimer isConnected
         extensionAvailable timers set_extensionAvailable set_isConnected]
    in H1, H2, H3, H4, H5, H6, H7.
  destruct (reconnectAttempts s2 <? maxReconnectAttempts s2).
  - unfold setTimeout.
    cbn [snd pendingRequests settled requestQueue nextTimer isConnected
           extensionAvailable timers set_nextTimer set_timers
           set_reconnectAttempts].
    repeat split; try assumption.
    intros t Hne. rewrite lookup_insert_ne by congruence. apply H7.
  - repeat split; try assumption. intros t _. apply H7.
Qed.

(** ** Calls that wait in the queue *)

Lemma findIndex_last url promise queue entry :
  Forall (fun e => q_promise e <> promise) queue ->
  q_url entry = url -> q_promise entry = promise ->
  findIndex url promise (queue ++ [entry]) = Some (length queue).
Proof.
  intros Hq Hu Hp. induction Hq as [| e q He Hq IH]; cbn [app findIndex].
  - by rewrite !bool_decide_eq_true_2.
  - rewrite (bool_decide_eq_false_2 (q_promise e = promise)) by exact He.
    rewrite andb_false_r, IH. reflexivity.
Qed.

Lemma delete_last {A} (l : list A) (x : A) : delete (length l) (l ++ [x]) = l.
Proof. induction l as [| y l IH]; [reflexivity |]. simpl. by rewrite IH. Qed.

Lemma fetch_queues hostname url options s :
  canSend s = false ->
  let r := fetch hostname url options s in
  let t := if isIdentified s then nextTimer s else S (nextTimer s) in
  r.1 = nextPromise s /\
  requestQueue r.2
  = requestQueue s
    ++ [{| q_url := url; q_options := options; q_promise := nextPromise s;
           q_retryCount := 0 |}] /\
  settled r.2 = settled s /\ sent r.2 = sent s /\
  config r.2 = config s /\ isConnected r.2 = isConnected s /\
  extensionAvailable r.2 = extensionAvailable s /\
  pendingRequests r.2 = pendingRequests s /\
  _giveUpTimers r.2 = _giveUpTimers s ++ [t] /\
  timers r.2 !! t
  = Some {| t_delay := timeout (config s); t_repeats := false;
            t_body := GiveUp url (nextPromise s) |}.
Proof.
  intros Hc. cbv zeta. unfold fetch. cbn [fst snd].
  change (canSend (set_nextPromise S s)) with (canSend s). rewrite Hc.
  cbv zeta.
  cbn [isConnected set_requestQueue set_nextPromise ws].
  destruct (negb (isConnected s)
            && negb (bool_decide (readyState (ws s) = CONNECTING)));
    unfold reconnect; cbn [ws set_requestQueue set_nextPromise];
    destruct (close_raises (ws s));
    cbn [isIdentified set_ws set_requestQueue set_nextPromise];
    destruct (isIdentified s); cbn [negb];
    unfold setInterval, setTimeout; cbn;
    repeat split; apply lookup_insert_eq.
Qed.

(** X14.  A call made while the client cannot send is put last in the queue
    and a give-up timer is armed for it, with the configured timeout.  When
    that timer fires while the call is still queued, the call leaves the
    queue, which is then as it was before the call, and its promise is
    rejected with the message that tells why the call could not be sent. *)
Theorem queued_call_gives_up_after_the_timeout
    (hostname : string -> option string) (url : string) (options : Ref)
    (s : State) :
  canSend s = false -> queue_ok s ->
  let r := fetch hostname url options s in
  exists t,
    requestQueue r.2
    = requestQueue s
      ++ [{| q_url := url; q_options := options; q_promise := r.1;
             q_retryCount := 0 |}] /\
    settled r.2 = settled s /\
    _giveUpTimers r.2 = _giveUpTimers s ++ [t] /\
    timers r.2 !! t
    = Some {| t_delay := timeout (config s); t_repeats := false;
              t_body := GiveUp url r.1 |} /\
    let s' := (fireTimer hostname t r.2).1 in
    requestQueue s' = requestQueue s /\
    settled s' = settled s ++ [(r.1, Rejected (give_up_message s))] /\
    timers s' !! t = None.
Proof.
  intros Hc Hq. cbv zeta.
  destruct (fetch_queues hostname url options s Hc)
    as (F1 & F2 & F3 & F4 & F5 & F6 & F7 & F8 & F9 & F10).
  cbv zeta in F9, F10.
  set (r := fetch hostname url options s) in *.
  exists (if isIdentified s then nextTimer s else S (nextTimer s)).
  rewrite F1. split; [exact F2 |]. split; [exact F3 |]. split; [exact F9 |].
  split; [exact F10 |].
  unfold fireTimer. rewrite F10. cbn [t_repeats t_body fst].
  unfold giveUpFired.
  cbn [requestQueue clearTimeout set_timers]. rewrite F2.
  rewrite findIndex_last; [| | reflexivity | reflexivity].
  - cbn [requestQueue settled timers reject set_settled set_requestQueue
           clearTimeout set_timers].
    rewrite F2, delete_last, F3. split; [reflexivity |].
    split; [| apply lookup_delete_eq].
    do 3 f_equal. unfold give_up_message.
    cbn [isConnected extensionAvailable config set_requestQueue set_timers
           clearTimeout].
    by rewrite F5, F6, F7.
  - eapply Forall_impl; [exact Hq |]. intros e He. cbn beta in He. lia.
Qed.

Lemma clearAll_fields ts : forall s,
  let s' := clearAll ts s in
  (forall t,
     timers s' !! t = if decide (t ∈ ts) then None else timers s !! t) /\
  requestQueue s' = requestQueue s /\ sent s' = sent s /\
  settled s' = settled s /\ ws s' = ws s /\
  isConnected s' = isConnected s /\
  extensionAvailable s' = extensionAvailable s /\
  isIdentifiedTimer s' = isIdentifiedTimer s /\
  pendingRequests s' = pendingRequests s /\
  reconnectAttempts s' = reconnectAttempts s /\
  nextTimer s' = nextTimer s /\ nextUuid s' = nextUuid s /\
  heap s' = heap s /\ config s' = config s /\
  _giveUpTimers s' = _giveUpTimers s.
Proof.
  unfold clearAll.
  induction ts as [| t0 ts IH]; intros s; cbv zeta; cbn [foldl].
  - by repeat split.
  - destruct (IH (clearTimeout t0 s))
      as (I1 & I2 & I3 & I4 & I5 & I6 & I7 & I8 & I9 & I10 & I11 & I12
          & I13 & I14 & I15).
    cbv zeta in I1.
    split; [| by repeat split].
    intros t. rewrite I1. cbn [timers clearTimeout set_timers].
    rewrite lookup_delete.
    destruct (decide (t ∈ ts)) as [Hin | Hnin].
    + rewrite decide_True; [done | by right].
    + destruct (decide (t0 = t)) as [-> | Hne].
      * rewrite decide_True; [done | left].
      * rewrite decide_False; [done |].
        intros Hin. apply elem_of_cons in Hin as [Heq | Hin];
          [congruence | done].
Qed.

(** X15.  When the socket opens while the broker has announced no
    executor, the client identifies itself and every give-up timer is
    cleared, but the calls in the queue stay there: from then on no timer
    rejects them. *)
Theorem onopen_clears_the_give_up_timers
    (hostname : string -> option string) (s : State) :
  send_error (ws s) = None -> extensionAvailable s = false ->
  let r := onopen hostname s in
  r.2 = Normal /\
  requestQueue r.1 = requestQueue s /\
  settled r.1 = settled s /\
  sent r.1 = sent s ++ [FIdentify] /\
  _giveUpTimers r.1 = [] /\
  isConnected r.1 = true /\ reconnectAttempts r.1 = 0 /\
  forall t,
    timers r.1 !! t
    = if decide (t ∈ _giveUpTimers s) then None else timers s !! t.
Proof.
  intros Hsend Hext. cbv zeta. unfold onopen. cbv zeta.
  cbn [_giveUpTimers set_reconnectAttempts set_isConnected].
  match goal with
  | |- context [clearAll ?ts ?s0] =>
      destruct (clearAll_fields ts s0)
        as (C1 & C2 & C3 & C4 & C5 & C6 & C7 & C8 & C9 & C10 & C11 & C12
            & C13 & C14 & C15);
      set (s3 := clearAll ts s0) in *
  end.
  cbv zeta in C1.
  cbn [timers requestQueue sent settled ws isConnected extensionAvailable
         set_reconnectAttempts set_isConnected] in C1, C2, C3, C4, C5, C6, C7.
  unfold sendClientIdentification, ws_send.
  cbn [ws set_giveUpTimers]. rewrite C5, Hsend.
  unfold processQueue.
  cbn [requestQueue extensionAvailable set_sent set_giveUpTimers].
  rewrite C7, Hext, andb_false_r.
  destruct (length (requestQueue s3) =? 0);
    cbn [fst snd requestQueue settled sent _giveUpTimers isConnected
           reconnectAttempts timers set_sent set_giveUpTimers];
    rewrite C2, C3, C4, C6; by repeat split.
Qed.

(** ** Reconnection *)

Lemma reconnect_closed s :
  readyState (ws s) = CLOSED -> close_raises (ws s) = false ->
  reconnect s = s.
Proof.
  intros Hr Hc. unfold reconnect. rewrite Hc.
  destruct s as [c ck w ic ea ii pr rq gt ra mra rd iit h tm nt nu np se st].
  cbn [Xfetch.ws] in *. destruct w as [r se' cr]. cbn in *. by subst.
Qed.

(** X28.  Once its socket is closed, the client does not get a new one
    unless [close] raises: the reconnect timer armed by the close event
    fires without making a socket, and so does a call of [fetch], which is
    queued with a give-up timer; the client stays disconnected. *)
Theorem closed_client_gets_no_new_socket
    (hostname : string -> option string) (url : string) (options : Ref)
    (s : State) :
  readyState (ws s) = CLOSED -> close_raises (ws s) = false ->
  reconnectAttempts s < maxReconnectAttempts s ->
  let s1 := onclose s in
  let s2 := (fireTimer hostname (nextTimer s) s1).1 in
  let s3 := (fetch hostname url options s2).2 in
  timers s1 !! nextTimer s
  = Some {| t_delay :=
              reconnectBackoff (reconnectDelay s) (S (reconnectAttempts s));
            t_repeats := false; t_body := Reconnect |} /\
  ws s2 = ws s /\ isConnected s2 = false /\ settled s2 = settled s1 /\
  ws s3 = ws s /\ isConnected s3 = false /\
  requestQueue s3
  = requestQueue s
    ++ [{| q_url := url; q_options := options; q_promise := nextPromise s;
           q_retryCount := 0 |}].
Proof.
  intros Hr Hc Ha. cbv zeta.
  destruct (rejectPending_all (pendingRequests s)
              (set_extensionAvailable (fun _ => false)
                 (set_isConnected (fun _ => false) s)) eq_refl)
    as (_ & _ & R3 & _ & R5 & _).
  cbv zeta in R3, R5.
  assert (requestQueue (onclose s) = requestQueue s /\
          isConnected (onclose s) = false) as [Q1 C1].
  { unfold onclose. cbv zeta.
    cbn [pendingRequests set_extensionAvailable set_isConnected].
    match goal with
    | |- context [if ?b then _ else _] => destruct b
    end; unfold setTimeout;
      cbn [snd requestQueue isConnected set_nextTimer set_timers
             set_reconnectAttempts];
      by rewrite R3, R5. }
  assert (timers (onclose s) !! nextTimer s
          = Some {| t_delay :=
                      reconnectBackoff (reconnectDelay s)
                        (S (reconnectAttempts s));
                    t_repeats := false; t_body := Reconnect |} /\
          ws (onclose s) = ws s /\ nextPromise (onclose s) = nextPromise s)
    as (T1 & W1 & P1).
  { unfold onclose. cbv zeta.
    match goal with
    | |- context [foldl rejectPending ?s0 ?l] =>
        assert (forall l0 s', ws (foldl rejectPending s' l0) = ws s' /\
                  nextPromise (foldl rejectPending s' l0) = nextPromise s' /\
                  reconnectAttempts (foldl rejectPending s' l0)
                  = reconnectAttempts s' /\
                  maxReconnectAttempts (foldl rejectPending s' l0)
                  = maxReconnectAttempts s' /\
                  reconnectDelay (foldl rejectPending s' l0)
                  = reconnectDelay s' /\
                  nextTimer (foldl rejectPending s' l0) = nextTimer s')
          as Hfold
    end.
    { induction l0 as [| e l0 IH]; intros s'; [by repeat split |].
      cbn [foldl]. destruct (IH (rejectPending s' e))
        as (I1 & I2 & I3 & I4 & I5 & I6).
      rewrite I1, I2, I3, I4, I5, I6. unfold rejectPending.
      by destruct (p_timeoutId e.2). }
    match goal with
    | |- context [foldl rejectPending ?s0 ?l] =>
        destruct (Hfold l s0) as (F1 & F2 & F3 & F4 & F5 & F6);
        set (sf := foldl rejectPending s0 l) in *
    end.
    cbn [ws nextPromise reconnectAttempts maxReconnectAttempts reconnectDelay
           nextTimer set_extensionAvailable set_isConnected]
      in F1, F2, F3, F4, F5, F6.
    rewrite F3, F4.
    assert ((reconnectAttempts s <? maxReconnectAttempts s) = true) as ->
      by (by apply Nat.ltb_lt).
    unfold setTimeout.
    cbn [snd timers ws nextPromise nextTimer reconnectDelay reconnectAttempts
           set_nextTimer set_timers set_reconnectAttempts].
    rewrite F1, F2, F3, F5, F6. split; [apply lookup_insert_eq | by split]. }
  split; [exact T1 |].
  assert ((fireTimer hostname (nextTimer s) (onclose s)).1
          = clearTimeout (nextTimer s) (onclose s)) as E2.
  { unfold fireTimer. rewrite T1. cbn [t_repeats t_body fst].
    apply reconnect_closed; cbn [ws clearTimeout set_timers];
      by rewrite W1. }
  rewrite E2.
  cbn [ws isConnected settled clearTimeout set_timers].
  split; [exact W1 |]. split; [exact C1 |]. split; [reflexivity |].
  set (s2 := clearTimeout (nextTimer s) (onclose s)).
  assert (canSend s2 = false) as Hcs.
  { unfold canSend. cbn [isConnected s2 clearTimeout set_timers].
    by rewrite C1. }
  destruct (fetch_queues hostname url options s2 Hcs)
    as (_ & F2 & _ & _ & _ & F6 & _).
  cbv zeta in F2, F6.
  split; [| split; [by rewrite F6 |]].
  - unfold fetch. cbn [snd].
    change (canSend (set_nextPromise S s2)) with (canSend s2).
    rewrite Hcs. cbv zeta.
    match goal with
    | |- context [reconnect ?x] =>
        rewrite (reconnect_closed x)
          by (cbn [ws set_requestQueue set_nextPromise]; unfold s2;
              cbn [ws clearTimeout set_timers]; by rewrite W1)
    end.
    match goal with
    | |- context [if ?b then ?x else ?x] =>
        replace (if b then x else x) with x by (by destruct b)
    end.
    unfold setInterval, setTimeout.
    destruct (negb (isIdentified _)); cbn; exact W1.
  - rewrite F2. cbn [requestQueue nextPromise s2 clearTimeout set_timers].
    by rewrite Q1, P1.
Qed.

(** ** The queue is sent *)

Lemma get_set_other o k v :
  k <> "cookiejar" -> Js.get (Js.set o k v) "cookiejar" = Js.get o "cookiejar".
Proof.
  intros Hne. unfold Js.get. induction o as [| [k0 v0] o IH]; simpl.
  - by rewrite decide_False.
  - destruct (decide (k0 = k)) as [-> | Hne0]; simpl.
    + by rewrite !decide_False.
    + destruct (decide (k0 = "cookiejar")); [reflexivity | exact IH].
Qed.

Lemma sendRequest_normal hostname url options promise n s :
  sends_normally hostname url options s ->
  let r := _sendRequest hostname url options promise n s in
  r.2 = Normal /\
  requests (sent r.1) = requests (sent s) ++ [(url, nextUuid s)] /\
  pendingRequests r.1
  = OMap.alter
      (fun p => {| p_promise := p_promise p;
                   p_timeoutId := Some (nextTimer s) |})
      (OMap.set (pendingRequests s) (nextUuid s)
         {| p_promise := promise; p_timeoutId := None |}) (nextUuid s) /\
  timers r.1
  = <[nextTimer s :=
        {| t_delay := timeout (config s); t_repeats := false;
           t_body := AttemptTimeout url options promise n (nextUuid s) |}]>
      (timers s) /\
  nextTimer r.1 = S (nextTimer s) /\ nextUuid r.1 = S (nextUuid s) /\
  settled r.1 = settled s /\ config r.1 = config s /\
  requestQueue r.1 = requestQueue s /\
  _giveUpTimers r.1 = _giveUpTimers s /\
  forall url' options',
    sends_normally hostname url' options' s ->
    sends_normally hostname url' options' r.1.
Proof.
  intros [Hsend Hurl].
  unfold _sendRequest, injectCookies, getCookies, ws_send, setTimeout.
  cbn beta iota zeta.
  change (object_of (set_pendingRequests _ _) options)
    with (object_of s options).
  destruct (Js.is_true (Js.get (object_of s options) "cookiejar")) eqn:Hjar.
  - destruct (Hurl eq_refl) as [domain Hd]. rewrite Hd. cbn.
    rewrite Hsend. cbn.
    unfold requests. rewrite omap_app. cbn.
    do 10 (split; [reflexivity |]).
    intros url' options' [Hs' Hu']. split; [exact Hs' |].
    intros Hjar'. apply Hu'. revert Hjar'. unfold object_of. cbn.
    destruct (decide (options = options')) as [<- | Hne].
    + rewrite lookup_insert_eq. cbn [default]. unfold id.
      by rewrite get_set_other by discriminate.
    + by rewrite lookup_insert_ne by exact Hne.
  - cbn. rewrite Hsend. cbn.
    unfold requests. rewrite omap_app. cbn.
    do 10 (split; [reflexivity |]).
    intros url' options' [Hs' Hu']. by split.
Qed.

Lemma sendAll_normal hostname queue : forall s,
  Forall (fun e => sends_normally hostname (q_url e) (q_options e) s) queue ->
  let r := sendAll hostname queue s in
  r.2 = Normal /\
  requests (sent r.1)
  = requests (sent s)
    ++ zip (q_url <$> queue) (seq (nextUuid s) (length queue)) /\
  settled r.1 = settled s /\ config r.1 = config s /\
  requestQueue r.1 = requestQueue s /\
  _giveUpTimers r.1 = _giveUpTimers s /\
  nextTimer s <= nextTimer r.1 /\ nextUuid s <= nextUuid r.1 /\
  (forall k, k < nextUuid s ->
     OMap.get (pendingRequests r.1) k = OMap.get (pendingRequests s) k) /\
  (forall t, t < nextTimer s -> timers r.1 !! t = timers s !! t) /\
  forall i e, queue !! i = Some e -> under_way r.1 e (nextUuid s + i).
Proof.
  induction queue as [| e queue IH]; intros s Hq; cbv zeta.
  - cbn [sendAll fst snd]. rewrite app_nil_r. repeat split; try lia.
    intros i e H. discriminate.
  - apply Forall_cons in Hq as [He Hq].
    destruct (sendRequest_normal hostname (q_url e) (q_options e)
                (q_promise e) (q_retryCount e) s He)
      as (S1 & S2 & S3 & S4 & S5 & S6 & S7 & S8 & S9 & S10 & S11).
    cbv zeta in S1, S2, S3, S4, S5, S6, S7, S8, S9, S10, S11.
    cbn [sendAll].
    destruct (_sendRequest hostname (q_url e) (q_options e) (q_promise e)
                (q_retryCount e) s) as [s1 c].
    cbn [fst snd] in *. subst c.
    assert (Forall (fun e0 => sends_normally hostname (q_url e0)
                                (q_options e0) s1) queue) as Hq1.
    { eapply Forall_impl; [exact Hq |]. intros e0. apply S11. }
    destruct (IH s1 Hq1)
      as (I1 & I2 & I3 & I4 & I5 & I6 & I7 & I8 & I9 & I10 & I11).
    cbv zeta in I9, I10, I11.
    split; [exact I1 |].
    split.
    { rewrite I2, S2, S6, <- app_assoc. reflexivity. }
    split; [congruence |]. split; [congruence |]. split; [congruence |].
    split; [congruence |]. split; [lia |]. split; [lia |].
    split.
    { intros k Hk. rewrite I9 by lia. rewrite S3, get_alter, get_set.
      by rewrite !decide_False by lia. }
    split.
    { intros t Ht. rewrite I10 by lia. rewrite S4.
      by rewrite lookup_insert_ne by lia. }
    intros i e0 Hi. destruct i as [| i].
    + injection Hi as <-. rewrite Nat.add_0_r.
      exists (nextTimer s). split.
      * rewrite I9 by lia. rewrite S3, get_alter, get_set.
        by rewrite !decide_True.
      * rewrite I10 by lia. rewrite S4, I4, S8. apply lookup_insert_eq.
    + replace (nextUuid s + S i) with (nextUuid s1 + i) by lia.
      by apply I11.
Qed.

(** X16.  When the client is connected and an executor is available, the
    queue is emptied and its calls are sent in the order in which they were
    made, each under a new identifier, with the retry count it had and a
    timeout of its own; the give-up timers are forgotten and no promise is
    settled. *)
Theorem processQueue_sends_the_queue_in_order
    (hostname : string -> option string) (s : State) :
  isConnected s = true -> readyState (ws s) = OPEN ->
  extensionAvailable s = true -> requestQueue s <> [] ->
  Forall (fun e => sends_normally hostname (q_url e) (q_options e) s)
    (requestQueue s) ->
  let r := processQueue hostname s in
  r.2 = Normal /\ requestQueue r.1 = [] /\ _giveUpTimers r.1 = [] /\
  settled r.1 = settled s /\
  requests (sent r.1)
  = requests (sent s)
    ++ zip (q_url <$> requestQueue s)
         (seq (nextUuid s) (length (requestQueue s))) /\
  forall i e, requestQueue s !! i = Some e -> under_way r.1 e (nextUuid s + i).
Proof.
  intros Hc Ho Ha Hne Hq. cbv zeta. unfold processQueue.
  destruct (requestQueue s) as [| e0 q0] eqn:E; [done |].
  rewrite <- E in *. clear Hne.
  assert ((length (requestQueue s) =? 0) = false) as ->
    by (rewrite E; reflexivity).
  assert ((0 <? length (requestQueue s)) = true) as ->
    by (rewrite E; reflexivity).
  rewrite Hc, Ho, Ha, bool_decide_eq_true_2 by reflexivity.
  cbn [andb]. cbv zeta.
  set (s2 := if 0 <? length (_giveUpTimers (set_requestQueue _ s)) then _
             else _).
  assert (requestQueue s2 = [] /\ _giveUpTimers s2 = [] /\
          settled s2 = settled s /\ sent s2 = sent s /\
          nextUuid s2 = nextUuid s /\ ws s2 = ws s /\ heap s2 = heap s)
    as (Q1 & Q2 & Q3 & Q4 & Q5 & Q6 & Q7).
  { unfold s2. cbn [_giveUpTimers set_requestQueue].
    destruct (_giveUpTimers s) as [| t ts] eqn:Eg.
    - change (0 <? length (@nil TimerId)) with false. cbv iota.
      cbn [requestQueue _giveUpTimers settled sent nextUuid ws heap
             set_requestQueue].
      by rewrite Eg.
    - change (0 <? length (t :: ts)) with true. cbv iota.
      destruct (clearAll_fields (t :: ts) (set_requestQueue (fun _ => []) s))
        as (_ & C2 & C3 & C4 & C5 & _ & _ & _ & _ & _ & _ & C12 & C13 & _).
      cbn [requestQueue _giveUpTimers settled sent nextUuid ws heap
             set_giveUpTimers].
      by rewrite C2, C3, C4, C5, C12, C13. }
  assert (Forall (fun e => sends_normally hostname (q_url e) (q_options e) s2)
            (requestQueue s)) as Hq2.
  { eapply Forall_impl; [exact Hq |]. intros e [H1 H2].
    unfold sends_normally, object_of. rewrite Q6, Q7. by split. }
  destruct (sendAll_normal hostname (requestQueue s) s2 Hq2)
    as (I1 & I2 & I3 & I4 & I5 & I6 & _ & _ & _ & _ & I11).
  cbv zeta in I11. rewrite Q5 in *.
  split; [exact I1 |]. split; [congruence |]. split; [congruence |].
  split; [congruence |]. split; [by rewrite I2, Q4 |]. exact I11.
Qed.

(** ** Frames from the broker *)

Section Inbound.
Variable URL_hostname : Js.value -> option string.

Lemma onResponse_found id response error s p :
  OMap.get (pendingRequests s) id = Some p ->
  let s1 :=
    match p_timeoutId p with
    | Some t => clearTimeout t s
    | None => s
    end in
  let s2 :=
    match is_error error with
    | Some e => reject (p_promise p) e s1
    | None => resolve (p_promise p) response s1
    end in
  onmessage URL_hostname (IData (Some id) response error) s
  = match storeCookies URL_hostname response s2 with
    | Some s3 => set_pendingRequests (fun m => OMap.delete m id) s3
    | None => s2
    end.
Proof. intros H. cbn [onmessage]. unfold onResponse. by rewrite H. Qed.

(** X17.  A response without cookies and without error for a pending call
    resolves the promise of the call with that response, clears the timeout
    of the attempt and forgets the call; the cookie store is not touched,
    and the same frame arriving again changes nothing. *)
Theorem response_resolves_the_pending_call (id : ReqId)
    (response c : Js.value) (error : option string) (p : Pending)
    (s : State) :
  NoDup (pendingRequests s).*1 ->
  OMap.get (pendingRequests s) id = Some p ->
  is_error error = None ->
  read response "cookies" = Some c -> Js.truthy c = false ->
  let frame := IData (Some id) response error in
  let s' := onmessage URL_hostname frame s in
  settled s' = settled s ++ [(p_promise p, Resolved response)] /\
  OMap.get (pendingRequests s') id = None /\
  (forall k, k <> id ->
     OMap.get (pendingRequests s') k = OMap.get (pendingRequests s) k) /\
  (forall t, p_timeoutId p = Some t -> timers s' !! t = None) /\
  cookies s' = cookies s /\
  onmessage URL_hostname frame s' = s'.
Proof.
  intros Hn Hg He Hc Ht. cbv zeta.
  rewrite (onResponse_found _ _ _ _ _ Hg). cbv zeta.
  unfold storeCookies. rewrite He, Hc, Ht.
  assert (OMap.get (OMap.delete (pendingRequests s) id) id = None) as Hgone
    by (by apply get_delete_eq).
  destruct (p_timeoutId p) as [t0 |];
    cbn [settled pendingRequests timers cookies set_pendingRequests resolve
           set_settled clearTimeout set_timers];
    (split; [reflexivity |]); (split; [exact Hgone |]);
    (split; [intros k Hk; by apply get_delete_ne |]);
    (split; [intros t [= <-] + intros t [=]; try apply lookup_delete_eq |]);
    (split; [reflexivity |]);
    cbn [onmessage]; unfold onResponse;
    cbn [pendingRequests set_pendingRequests resolve set_settled
           clearTimeout set_timers];
    by rewrite Hgone.
Qed.

(** X18.  An error frame for a pending call, which has no [response],
    rejects the promise of the call with the error and clears the timeout
    of the attempt, but the call stays in the table of pending calls: the
    same frame arriving again rejects it again. *)
Theorem error_frame_leaves_the_call_pending (id : ReqId)
    (response : Js.value) (e : string) (p : Pending) (s : State) :
  OMap.get (pendingRequests s) id = Some p ->
  e <> "" -> read response "cookies" = None ->
  let frame := IData (Some id) response (Some e) in
  let s' := onmessage URL_hostname frame s in
  settled s' = settled s ++ [(p_promise p, Rejected e)] /\
  pendingRequests s' = pendingRequests s /\
  (forall t, p_timeoutId p = Some t -> timers s' !! t = None) /\
  settled (onmessage URL_hostname frame s')
  = settled s ++ [(p_promise p, Rejected e); (p_promise p, Rejected e)].
Proof.
  intros Hg He Hr. cbv zeta.
  assert (is_error (Some e) = Some e) as Herr.
  { unfold is_error. by rewrite bool_decide_eq_false_2. }
  assert (forall s0, OMap.get (pendingRequests s0) id = Some p ->
            onmessage URL_hostname (IData (Some id) response (Some e)) s0
            = reject (p_promise p) e
                match p_timeoutId p with
                | Some t => clearTimeout t s0
                | None => s0
                end) as Hstep.
  { intros s0 H0. rewrite (onResponse_found _ _ _ _ _ H0). cbv zeta.
    unfold storeCookies. by rewrite Herr, Hr. }
  rewrite (Hstep s Hg).
  assert (pendingRequests
            (reject (p_promise p) e
               match p_timeoutId p with
               | Some t => clearTimeout t s
               | None => s
               end) = pendingRequests s) as Hsame
    by (by destruct (p_timeoutId p)).
  rewrite Hstep by (by rewrite Hsame).
  destruct (p_timeoutId p) as [t0 |];
    cbn [settled pendingRequests timers reject set_settled clearTimeout
           set_timers];
    rewrite <- ?app_assoc; repeat split;
    intros t [= <-]; apply lookup_delete_eq.
Qed.

Lemma sendRequest_pending hostname url options promise n s :
  pendingRequests (_sendRequest hostname url options promise n s).1
  = OMap.alter
      (fun p => {| p_promise := p_promise p;
                   p_timeoutId := Some (nextTimer s) |})
      (OMap.set (pendingRequests s) (nextUuid s)
         {| p_promise := promise; p_timeoutId := None |}) (nextUuid s).
Proof.
  unfold _sendRequest, injectCookies, getCookies, ws_send, setTimeout.
  cbn beta iota zeta.
  change (object_of (set_pendingRequests _ _) options)
    with (object_of s options).
  destruct (Js.is_true (Js.get (object_of s options) "cookiejar"));
    [destruct (hostname url) |]; cbn; try reflexivity;
    destruct (send_error (ws s)); cbn; try reflexivity;
    match goal with
    | |- context [if ?b then _ else _] => destruct b
    end; reflexivity.
Qed.

(** X19.  A response that arrives after the timeout of its attempt has
    fired is ignored, whether the call is retried or given up: the client
    is exactly as it was without the frame. *)
Theorem response_after_the_timeout_is_ignored (url : string)
    (options : Ref) (promise : PromiseId) (n : nat) (id : ReqId)
    (t : TimerId) (timer : Timer) (response : Js.value)
    (error : option string) (s : State) :
  NoDup (pendingRequests s).*1 -> id < nextUuid s ->
  timers s !! t = Some timer ->
  t_body timer = AttemptTimeout url options promise n id ->
  let s1 := (fireTimer (hostname URL_hostname) t s).1 in
  onmessage URL_hostname (IData (Some id) response error) s1 = s1.
Proof.
  intros Hn Hid Ht Hb. cbv zeta.
  assert (OMap.get
            (pendingRequests (fireTimer (hostname URL_hostname) t s).1) id
          = None) as Hgone.
  { unfold fireTimer. rewrite Ht, Hb. unfold attemptTimeoutFired.
    set (s0 := if t_repeats timer then s else clearTimeout t s).
    assert (pendingRequests s0 = pendingRequests s /\
            nextUuid s0 = nextUuid s) as [P0 U0]
      by (unfold s0; by destruct (t_repeats timer)).
    set (s1 := if OMap.has (pendingRequests s0) id then _ else s0).
    assert (OMap.get (pendingRequests s1) id = None /\
            nextUuid s1 = nextUuid s) as [P1 U1].
    { unfold s1, OMap.has.
      destruct (OMap.get (pendingRequests s0) id) eqn:E.
      - cbn [pendingRequests nextUuid set_pendingRequests].
        rewrite P0. split; [by apply get_delete_eq | exact U0].
      - by split. }
    destruct (n <? maxRetries (config s1)).
    - rewrite sendRequest_pending, get_alter, get_set, U1.
      by rewrite !decide_False by lia.
    - exact P1. }
  cbn [onmessage]. unfold onResponse. by rewrite Hgone.
Qed.

End Inbound.

Section Cookies.
Variable URL_hostname : Js.value -> option string.

Lemma mapCookies_objects os :
  mapCookies (Js.VObj <$> os) = Some (name_and_value <$> os).
Proof.
  induction os as [| o os IH]; [reflexivity |].
  rewrite !fmap_cons. cbn [mapCookies read]. by rewrite IH.
Qed.

(** X20.  A response that carries an array of cookies resolves the call
    like any other, and the cookies replace whatever the store held for the
    host of the URL of the response; of each cookie only the name and the
    value are kept; the cookies of the other hosts stay. *)
Theorem response_cookies_replace_the_stored (id : ReqId)
    (o : Js.Object) (os : list Js.Object) (domain : string)
    (error : option string) (p : Pending) (s : State) :
  NoDup (pendingRequests s).*1 ->
  OMap.get (pendingRequests s) id = Some p ->
  is_error error = None ->
  Js.get o "cookies" = Js.VArr (Js.VObj <$> os) ->
  URL_hostname (Js.get o "url") = Some domain ->
  let s' := onmessage URL_hostname (IData (Some id) (Js.VObj o) error) s in
  cookies s' !! domain = Some (Js.spread_array (name_and_value <$> os)) /\
  (forall d, d <> domain -> cookies s' !! d = cookies s !! d) /\
  settled s' = settled s ++ [(p_promise p, Resolved (Js.VObj o))] /\
  OMap.get (pendingRequests s') id = None.
Proof.
  intros Hn Hg He Hc Hu. cbv zeta.
  rewrite (onResponse_found _ _ _ _ _ _ Hg). cbv zeta.
  unfold storeCookies. cbn [read]. rewrite He, Hc. cbn [Js.truthy].
  rewrite mapCookies_objects, Hu.
  destruct (p_timeoutId p);
    cbn [cookies settled pendingRequests set_pendingRequests set_cookies
           resolve set_settled clearTimeout set_timers];
    (split; [apply lookup_insert_eq |]);
    (split; [intros d Hd; by apply lookup_insert_ne |]);
    (split; [reflexivity |]); by apply get_delete_eq.
Qed.

End Cookies.

(** ** Instances *)

Lemma queued_call_gives_up_after_the_timeout_witness :
  exists t,
    _giveUpTimers
      (fetch XfetchScenario.hostname "https://a.test/" 1
         XfetchMoreScenario.waiting).2
    = _giveUpTimers XfetchMoreScenario.waiting ++ [t].
Proof.
  destruct (queued_call_gives_up_after_the_timeout XfetchScenario.hostname
              "https://a.test/" 1 XfetchMoreScenario.waiting)
    as (t & _ & _ & H & _).
  - vm_compute. reflexivity.
  - vm_compute. constructor.
  - exists t. exact H.
Defined.

Lemma closed_client_gets_no_new_socket_witness :
  ws (fireTimer XfetchScenario.hostname
        (nextTimer XfetchMoreScenario.dropped)
        (onclose XfetchMoreScenario.dropped)).1
  = ws XfetchMoreScenario.dropped.
Proof.
  apply (closed_client_gets_no_new_socket XfetchScenario.hostname
           "https://a.test/" 1 XfetchMoreScenario.dropped).
  - reflexivity.
  - reflexivity.
  - vm_compute. lia.
Defined.

Lemma onopen_clears_the_give_up_timers_witness :
  requestQueue (onopen XfetchScenario.hostname XfetchMoreScenario.queuedTwice).1
  = requestQueue XfetchMoreScenario.queuedTwice.
Proof.
  apply (onopen_clears_the_give_up_timers XfetchScenario.hostname
           XfetchMoreScenario.queuedTwice); vm_compute; reflexivity.
Defined.

Lemma processQueue_sends_the_queue_in_order_witness :
  requestQueue
    (processQueue XfetchScenario.hostname XfetchMoreScenario.announced).1
  = [].
Proof.
  apply (processQueue_sends_the_queue_in_order XfetchScenario.hostname
           XfetchMoreScenario.announced).
  - vm_compute. reflexivity.
  - vm_compute. reflexivity.
  - vm_compute. reflexivity.
  - vm_compute. discriminate.
  - assert (requestQueue XfetchMoreScenario.announced
            = [{| q_url := "https://a.test/"; q_options := 1;
                  q_promise := 0; q_retryCount := 0 |};
               {| q_url := "https://b.test/"; q_options := 1;
                  q_promise := 1; q_retryCount := 0 |}]) as ->
      by (vm_compute; reflexivity).
    constructor; [| constructor; [| constructor]];
      (split; [vm_compute; reflexivity |]);
      intros H; vm_compute in H; discriminate.
Defined.

Lemma response_resolves_the_pending_call_witness :
  settled
    (onmessage XfetchMoreScenario.URL_hostname
       (IData (Some 0) XfetchMoreScenario.ok_response None)
       XfetchMoreScenario.requested)
  = settled XfetchMoreScenario.requested
    ++ [(p_promise XfetchMoreScenario.request0,
         Resolved XfetchMoreScenario.ok_response)].
Proof.
  apply (response_resolves_the_pending_call XfetchMoreScenario.URL_hostname
           0 XfetchMoreScenario.ok_response Js.VUndefined None
           XfetchMoreScenario.request0 XfetchMoreScenario.requested).
  - vm_compute. apply NoDup_singleton.
  - vm_compute. reflexivity.
  - reflexivity.
  - vm_compute. reflexivity.
  - reflexivity.
Defined.

Lemma error_frame_leaves_the_call_pending_witness :
  pendingRequests
    (onmessage XfetchMoreScenario.URL_hostname
       (IData (Some 0) Js.VUndefined (Some "Unexpected server condition"))
       XfetchMoreScenario.requested)
  = pendingRequests XfetchMoreScenario.requested.
Proof.
  apply (error_frame_leaves_the_call_pending XfetchMoreScenario.URL_hostname
           0 Js.VUndefined "Unexpected server condition"
           XfetchMoreScenario.request0 XfetchMoreScenario.requested).
  - vm_compute. reflexivity.
  - discriminate.
  - reflexivity.
Defined.

Lemma response_after_the_timeout_is_ignored_witness :
  let s1 :=
    (fireTimer (hostname XfetchMoreScenario.URL_hostname) 2
       XfetchMoreScenario.requested).1 in
  onmessage XfetchMoreScenario.URL_hostname
    (IData (Some 0) XfetchMoreScenario.ok_response None) s1 = s1.
Proof.
  apply (response_after_the_timeout_is_ignored
           XfetchMoreScenario.URL_hostname "https://a.test/" 1 0 0 0 2
           XfetchMoreScenario.timeout0 XfetchMoreScenario.ok_response None
           XfetchMoreScenario.requested).
  - vm_compute. apply NoDup_singleton.
  - vm_compute. lia.
  - vm_compute. reflexivity.
  - reflexivity.
Defined.

Lemma response_cookies_replace_the_stored_witness :
  cookies
    (onmessage XfetchMoreScenario.URL_hostname
       (IData (Some 0) (Js.VObj XfetchMoreScenario.with_cookies) None)
       XfetchMoreScenario.requested) !! "a.test"
  = Some (Js.spread_array
            (name_and_value
               <$> [[("name", Js.VStr "sid"); ("value", Js.VStr "1");
                     ("domain", Js.VStr "a.test")]])).
Proof.
  apply (response_cookies_replace_the_stored XfetchMoreScenario.URL_hostname
           0 XfetchMoreScenario.with_cookies
           [[("name", Js.VStr "sid"); ("value", Js.VStr "1");
             ("domain", Js.VStr "a.test")]]
           "a.test" None XfetchMoreScenario.request0
           XfetchMoreScenario.requested).
  - vm_compute. apply NoDup_singleton.
  - vm_compute. reflexivity.
  - reflexivity.
  - vm_compute. reflexivity.
  - vm_compute. reflexivity.
Defined.

End XfetchMoreSpec.

(** * Properties of the connection of the extension page *)

Module WorkerSpec.
Import Worker.

(** ** The delay of a reconnection *)

Lemma backoff_values :
  backoff 1 = 5000%N /\ backoff 2 = 7500%N /\ backoff 3 = 11250%N /\
  backoff 4 = 16875%N /\ backoff 5 = 25312%N /\ backoff 6 = 30000%N.
Proof. by vm_compute. Qed.

Lemma backoff_late n : 6 <= n -> backoff n = 30000%N.
Proof.
  intros H. unfold backoff, exponentialBackoff.
  assert (exists k, Nat.min (n - 1) 10 = 5 + k /\ k <= 5) as (k & -> & Hk)
    by (exists (Nat.min (n - 1) 10 - 5); lia).
  do 6 (destruct k as [| k]; [by vm_compute |]). lia.
Qed.

(** X21.  The delay of a reconnection grows with the number of the attempt:
    it is 5 seconds at the first attempt, then 7.5, 11.25, 16.875 and
    25.312 seconds, and 30 seconds from the sixth attempt on; it grows
    strictly up to the sixth attempt and is never above 30 seconds. *)
Theorem reconnection_delay_grows_to_thirty_seconds (n m : nat) :
  1 <= n -> n <= m ->
  (backoff 1 = 5000%N /\ backoff 2 = 7500%N /\ backoff 3 = 11250%N /\
   backoff 4 = 16875%N /\ backoff 5 = 25312%N) /\
  (5000 <= backoff n)%N /\ (backoff n <= backoff m)%N /\
  (n < m -> m <= 6 -> (backoff n < backoff m)%N) /\
  (backoff m <= 30000)%N /\ (6 <= n -> backoff n = 30000%N).
Proof.
  intros Hn Hm.
  destruct backoff_values as (V1 & V2 & V3 & V4 & V5 & V6).
  split; [by repeat split |].
  assert (forall i, 1 <= i -> (5000 <= backoff i <= 30000)%N) as Hb.
  { intros i Hi. destruct (decide (6 <= i)) as [H6 | H6].
    - rewrite backoff_late by exact H6. lia.
    - do 6 (destruct i as [| i]; [try lia; rewrite ?V1, ?V2, ?V3, ?V4, ?V5; lia |]).
      lia. }
  split; [apply Hb, Hn |].
  split; [| split; [| split; [apply Hb; lia | apply backoff_late]]].
  - destruct (decide (6 <= m)) as [H6 | H6].
    + rewrite (backoff_late m) by exact H6. apply Hb, Hn.
    + do 6 (destruct m as [| m]; [try lia;
        do 6 (destruct n as [| n]; [try lia; rewrite ?V1, ?V2, ?V3, ?V4, ?V5; lia |]);
        lia |]).
      lia.
  - intros Hlt H6.
    do 7 (destruct m as [| m]; [try lia;
      do 6 (destruct n as [| n];
            [try lia; rewrite ?V1, ?V2, ?V3, ?V4, ?V5, ?V6; lia |]);
      lia |]).
    lia.
Qed.

(** ** Scheduling *)

Lemma updateConnectionStatus_fields st s :
  let s' := updateConnectionStatus st s in
  timers s' = timers s /\ reconnectTimer s' = reconnectTimer s /\
  reconnectAttempts s' = reconnectAttempts s /\ nextTimer s' = nextTimer s /\
  isConnected s' = isConnected s /\ ws s' = ws s /\
  sockets s' = sockets s /\ missedHeartbeats s' = missedHeartbeats s /\
  lastPingReceived s' = lastPingReceived s /\
  connectionStatus s' = st.
Proof.
  cbv zeta. unfold updateConnectionStatus.
  case_bool_decide as E; [by repeat split |].
  repeat split. first [exact E | by apply dec_stable in E].
Qed.

Lemma scheduleReconnect_fields s :
  one_timer s ->
  let s' := scheduleReconnect s in
  reconnectAttempts s' = S (reconnectAttempts s) /\
  isConnected s' = isConnected s /\ ws s' = ws s /\
  sockets s' = sockets s /\
  if S (reconnectAttempts s) <=? maxReconnectAttempts then
    timers s' = {[nextTimer s := backoff (S (reconnectAttempts s))]} /\
    reconnectTimer s' = Some (nextTimer s) /\
    nextTimer s' = S (nextTimer s) /\
    connectionStatus s' = connectionStatus s
  else
    timers s' = ∅ /\ reconnectTimer s' = None /\
    nextTimer s' = nextTimer s /\ connectionStatus s' = failed.
Proof.
  intros Hone. cbv zeta. unfold scheduleReconnect. cbv zeta.
  set (s1 := match reconnectTimer s with
             | Some t => _
             | None => s
             end).
  assert (timers s1 = ∅ /\ reconnectAttempts s1 = reconnectAttempts s /\
          nextTimer s1 = nextTimer s /\ isConnected s1 = isConnected s /\
          ws s1 = ws s /\ sockets s1 = sockets s /\
          connectionStatus s1 = connectionStatus s)
    as (T1 & A1 & N1 & C1 & W1 & K1 & St1).
  { unfold s1. destruct (reconnectTimer s) as [t |] eqn:E.
    - cbn [timers reconnectAttempts nextTimer isConnected ws sockets
             connectionStatus set_reconnectTimer clearTimeout set_timers].
      repeat split. apply map_eq. intros t'. rewrite lookup_empty.
      rewrite lookup_delete. case_decide; [reflexivity |].
      destruct (timers s !! t') as [d |] eqn:Et; [| reflexivity].
      specialize (Hone t' d Et). congruence.
    - repeat split. apply map_eq. intros t'. rewrite lookup_empty.
      destruct (timers s !! t') as [d |] eqn:Et; [| reflexivity].
      specialize (Hone t' d Et). congruence. }
  cbn [reconnectAttempts set_reconnectAttempts]. rewrite A1.
  change (maxReconnectAttempts =? 0) with false. cbn [orb].
  destruct (S (reconnectAttempts s) <=? maxReconnectAttempts).
  - unfold setTimeout.
    cbn [reconnectAttempts isConnected ws sockets timers reconnectTimer
           nextTimer connectionStatus set_reconnectTimer set_nextTimer
           set_timers set_reconnectAttempts].
    rewrite T1, A1, N1, C1, W1, K1, St1. by repeat split.
  - destruct (updateConnectionStatus_fields failed
                (set_reconnectAttempts S s1))
      as (U1 & U2 & U3 & U4 & U5 & U6 & U7 & _ & _ & U10).
    cbv zeta in U1, U2, U3, U4, U5, U6, U7, U10.
    rewrite U1, U2, U3, U4, U5, U6, U7, U10.
    cbn [reconnectAttempts isConnected ws sockets timers reconnectTimer
           nextTimer set_reconnectAttempts].
    rewrite T1, A1, N1, C1, W1, K1. repeat split.
    clear. subst s1. destruct (reconnectTimer s) as [t |] eqn:E;
      [reflexivity | exact E].
Qed.

Lemma scheduleReconnect_one s : one_timer s -> one_timer (scheduleReconnect s).
Proof.
  intros Hone. destruct (scheduleReconnect_fields s Hone) as (_ & _ & _ & _ & H).
  destruct (S (reconnectAttempts s) <=? maxReconnectAttempts).
  - destruct H as (Ht & Hr & _). intros t d. rewrite Ht, Hr.
    intros Hl. apply lookup_singleton_Some in Hl as [<- _]. reflexivity.
  - destruct H as (Ht & _). intros t d. rewrite Ht. by rewrite lookup_empty.
Qed.

Lemma initWebSocket_one s : one_timer s -> one_timer (initWebSocket s).
Proof.
  intros Hone t d. unfold initWebSocket. cbv zeta.
  destruct (reconnectTimer s) as [t0 |] eqn:E.
  - cbn [ws set_reconnectTimer clearTimeout set_timers].
    destruct (ws s);
      cbn [timers close set_ws set_nextSock set_sockets set_reconnectTimer
             clearTimeout set_timers];
      rewrite lookup_delete; case_decide; try discriminate;
      intros Hl; specialize (Hone t d Hl); congruence.
  - destruct (ws s);
      cbn [timers reconnectTimer close set_ws set_nextSock set_sockets];
      intros Hl; specialize (Hone t d Hl); congruence.
Qed.

Lemma one_timer_ext s s' :
  timers s' = timers s -> reconnectTimer s' = reconnectTimer s ->
  one_timer s -> one_timer s'.
Proof. intros Ht Hr H t d. rewrite Ht, Hr. apply H. Qed.

Lemma sendPong_fields now ts s s' :
  sendPong now ts s = Some s' ->
  timers s' = timers s /\ reconnectTimer s' = reconnectTimer s /\
  reconnectAttempts s' = reconnectAttempts s /\
  connectionStatus s' = connectionStatus s /\
  missedHeartbeats s' = missedHeartbeats s /\
  lastPingReceived s' = lastPingReceived s /\
  isConnected s' = isConnected s.
Proof.
  unfold sendPong. destruct (openSocket s) as [[k |] |]; [| | discriminate];
    intros [= <-]; by repeat split.
Qed.

Lemma handleHeartbeat_fields now ts s :
  let s' := handleHeartbeat now ts s in
  timers s' = timers s /\ reconnectTimer s' = reconnectTimer s /\
  reconnectAttempts s' = reconnectAttempts s /\
  missedHeartbeats s' = 0 /\ lastPingReceived s' = Some now /\
  isConnected s' = isConnected s.
Proof.
  cbv zeta. unfold handleHeartbeat. cbv zeta.
  match goal with
  | |- context [sendPong now ts ?x] =>
      assert (timers x = timers s /\ reconnectTimer x = reconnectTimer s /\
              reconnectAttempts x = reconnectAttempts s /\
              missedHeartbeats x = 0 /\ lastPingReceived x = Some now /\
              isConnected x = isConnected s) as (X1 & X2 & X3 & X4 & X5 & X6)
        by (destruct ts as [t |]; [destruct (t =? 0)%N |]; by repeat split);
      destruct (sendPong now ts x) as [s4 |] eqn:E; [| by repeat split];
      destruct (sendPong_fields _ _ _ _ E) as (P1 & P2 & P3 & P4 & P5 & P6 & P7)
  end.
  case_bool_decide.
  - destruct (updateConnectionStatus_fields connected s4)
      as (U1 & U2 & U3 & _ & U5 & _ & _ & U8 & U9 & _).
    cbv zeta in U1, U2, U3, U5, U8, U9.
    rewrite U1, U2, U3, U5, U8, U9. repeat split; congruence.
  - repeat split; congruence.
Qed.

Lemma handleWebSocketMessage_timers now m s :
  timers (handleWebSocketMessage now m s) = timers s /\
  reconnectTimer (handleWebSocketMessage now m s) = reconnectTimer s /\
  reconnectAttempts (handleWebSocketMessage now m s) = reconnectAttempts s.
Proof.
  destruct m as [| ts | [id |] url options |]; cbn [handleWebSocketMessage].
  - unfold sendClientIdentification.
    by destruct (openSocket s) as [[k |] |].
  - destruct (handleHeartbeat_fields now ts s) as (H1 & H2 & H3 & _).
    by repeat split.
  - destruct (Js.truthy url && Js.truthy options); [| done].
    unfold processFetchRequest.
    match goal with
    | |- context [openSocket ?x] => by destruct (openSocket x) as [[k |] |]
    end.
  - done.
  - done.
Qed.

Lemma monitorTick_one now s : one_timer s -> one_timer (monitorTick now s).
Proof.
  intros Hone. unfold monitorTick.
  destruct (lastPingReceived s) as [last |]; [| exact Hone].
  destruct (isConnected s && negb (last =? 0)%N); [| exact Hone].
  destruct (reconnectDelay <? now - last)%N.
  - cbv zeta. cbn [missedHeartbeats set_missedHeartbeats ws].
    destruct (maxMissedHeartbeats <=? S (missedHeartbeats s)).
    + destruct (ws s) as [k |]; [| exact Hone].
      apply scheduleReconnect_one. exact Hone.
    + match goal with
      | |- one_timer (updateConnectionStatus ?st ?x) =>
          destruct (updateConnectionStatus_fields st x) as (U1 & U2 & _)
      end.
      eapply one_timer_ext; [exact U1 | exact U2 | exact Hone].
  - destruct (0 <? missedHeartbeats s); [| exact Hone].
    cbv zeta. case_bool_decide; [| exact Hone].
    match goal with
    | |- one_timer (updateConnectionStatus ?st ?x) =>
        destruct (updateConnectionStatus_fields st x) as (U1 & U2 & _)
    end.
    eapply one_timer_ext; [exact U1 | exact U2 | exact Hone].
Qed.

Lemma handleWebSocketClose_one s :
  one_timer s -> one_timer (handleWebSocketClose s).
Proof.
  intros Hone. unfold handleWebSocketClose. cbv zeta.
  apply scheduleReconnect_one.
  match goal with
  | |- context [updateConnectionStatus ?st ?x] =>
      destruct (updateConnectionStatus_fields st x) as (U1 & U2 & _)
  end.
  eapply one_timer_ext; [| | exact Hone].
  - cbn [timers sendMessage set_out set_connectionMetrics]. exact U1.
  - cbn [reconnectTimer sendMessage set_out set_connectionMetrics]. exact U2.
Qed.

Lemma step_one now e s : one_timer s -> one_timer (step now e s).
Proof.
  intros Hone. destruct e as [k | m | k | | | t | id p err | id err];
    cbn [step].
  - unfold handleWebSocketOpen. cbv zeta.
    match goal with
    | |- one_timer (updateConnectionStatus ?st ?x) =>
        destruct (updateConnectionStatus_fields st x) as (U1 & U2 & _)
    end.
    eapply one_timer_ext; [exact U1 | exact U2 | exact Hone].
  - destruct (handleWebSocketMessage_timers now m s) as (H1 & H2 & _).
    eapply one_timer_ext; [exact H1 | exact H2 | exact Hone].
  - by apply handleWebSocketClose_one.
  - destruct (updateConnectionStatus_fields degraded s) as (U1 & U2 & _).
    eapply one_timer_ext; [exact U1 | exact U2 | exact Hone].
  - by apply monitorTick_one.
  - destruct (timers s !! t) as [d |] eqn:E; [| exact Hone].
    unfold reconnectFired. apply initWebSocket_one.
    intros t' d'. cbn [timers reconnectTimer clearTimeout set_timers
                         set_connectionMetrics].
    rewrite lookup_delete. case_decide; [discriminate | apply Hone].
  - unfold onFetchResponse. by destruct (openSocket s) as [[k |] |].
  - unfold forwardFailed. by destruct (openSocket s) as [[k |] |].
Qed.

(** X22.  Whatever happens to the page after the script is loaded, at most
    one reconnection is scheduled at any time, and [reconnectTimer] holds
    its handle: a new schedule replaces the one before. *)
Theorem one_reconnection_at_a_time (clientId : nat)
    (es : list (Time * Event)) (t t' : TimerId) (d d' : Time) :
  let s := run es (loaded clientId) in
  timers s !! t = Some d -> timers s !! t' = Some d' ->
  t = t' /\ reconnectTimer s = Some t.
Proof.
  cbv zeta.
  assert (one_timer (run es (loaded clientId))) as Hone.
  { unfold run.
    assert (one_timer (loaded clientId)) as H0 by (intros x y; done).
    revert H0. generalize (loaded clientId) as s.
    induction es as [| [now e] es IH]; intros s H0; [exact H0 |].
    cbn [foldl]. apply IH. by apply step_one. }
  intros H1 H2. pose proof (Hone t d H1) as E1.
  pose proof (Hone t' d' H2) as E2. split; [congruence | exact E1].
Qed.

(** ** Giving up *)

Lemma monitorTick_fields now s :
  timers s = ∅ -> reconnectTimer s = None ->
  maxReconnectAttempts <= reconnectAttempts s ->
  let s' := monitorTick now s in
  timers s' = ∅ /\ reconnectTimer s' = None /\
  reconnectAttempts s <= reconnectAttempts s'.
Proof.
  intros Ht Hr Ha. cbv zeta. unfold monitorTick.
  destruct (lastPingReceived s) as [last |]; [| by repeat split].
  destruct (isConnected s && negb (last =? 0)%N); [| by repeat split].
  destruct (reconnectDelay <? now - last)%N.
  - cbv zeta. cbn [missedHeartbeats set_missedHeartbeats ws].
    destruct (maxMissedHeartbeats <=? S (missedHeartbeats s)).
    + destruct (ws s) as [k |]; [| by repeat split].
      match goal with
      | |- context [scheduleReconnect ?x] =>
          assert (one_timer x) as Hone
            by (intros t d; cbn; rewrite Ht; by rewrite lookup_empty);
          destruct (scheduleReconnect_fields x Hone) as (S1 & _ & _ & _ & S5);
          cbv zeta in S1, S5;
          change (reconnectAttempts x) with (reconnectAttempts s) in S1, S5;
          rewrite S1
      end.
      assert ((S (reconnectAttempts s) <=? maxReconnectAttempts) = false)
        as E by (apply Nat.leb_gt; lia).
      rewrite E in S5. destruct S5 as (S5 & S6 & _).
      split; [exact S5 |]. split; [exact S6 | lia].
    + match goal with
      | |- context [updateConnectionStatus ?st ?x] =>
          destruct (updateConnectionStatus_fields st x)
            as (U1 & U2 & U3 & _);
          cbv zeta in U1, U2, U3; rewrite U1, U2, U3
      end.
      by repeat split.
  - destruct (0 <? missedHeartbeats s); [| by repeat split].
    cbv zeta. case_bool_decide; [| by repeat split].
    match goal with
    | |- context [updateConnectionStatus ?st ?x] =>
        destruct (updateConnectionStatus_fields st x) as (U1 & U2 & U3 & _);
        cbv zeta in U1, U2, U3; rewrite U1, U2, U3
    end.
    by repeat split.
Qed.

Lemma handleWebSocketClose_fields s :
  one_timer s ->
  let s' := handleWebSocketClose s in
  reconnectAttempts s' = S (reconnectAttempts s) /\
  isConnected s' = false /\
  if S (reconnectAttempts s) <=? maxReconnectAttempts then
    timers s' = {[nextTimer s := backoff (S (reconnectAttempts s))]} /\
    reconnectTimer s' = Some (nextTimer s)
  else
    timers s' = ∅ /\ reconnectTimer s' = None /\
    connectionStatus s' = failed.
Proof.
  intros Hone. cbv zeta. unfold handleWebSocketClose. cbv zeta.
  match goal with
  | |- context [scheduleReconnect ?x] => set (s3 := x)
  end.
  assert (timers s3 = timers s /\ reconnectTimer s3 = reconnectTimer s /\
          reconnectAttempts s3 = reconnectAttempts s /\
          nextTimer s3 = nextTimer s /\ isConnected s3 = false)
    as (T3 & R3 & A3 & N3 & C3).
  { unfold s3.
    match goal with
    | |- context [updateConnectionStatus ?st ?x] =>
        destruct (updateConnectionStatus_fields st x)
          as (U1 & U2 & U3 & U4 & U5 & _)
    end.
    cbn [timers reconnectTimer reconnectAttempts nextTimer isConnected
           sendMessage set_out set_connectionMetrics].
    by rewrite U1, U2, U3, U4, U5. }
  assert (one_timer s3) as Hone3
    by (eapply one_timer_ext; [exact T3 | exact R3 | exact Hone]).
  destruct (scheduleReconnect_fields s3 Hone3) as (S1 & S2 & _ & _ & S5).
  cbv zeta in S1, S2, S5. rewrite A3, N3 in *.
  split; [exact S1 |]. split; [congruence |].
  destruct (S (reconnectAttempts s) <=? maxReconnectAttempts).
  - by destruct S5 as (? & ? & _).
  - by destruct S5 as (? & ? & _ & ?).
Qed.

Lemma empty_one_timer s : timers s = ∅ -> one_timer s.
Proof. intros H t d. rewrite H. by rewrite lookup_empty. Qed.

Lemma step_gave_up now e s :
  match e with Opened _ => False | _ => True end ->
  timers s = ∅ /\ reconnectTimer s = None /\
  maxReconnectAttempts <= reconnectAttempts s ->
  timers (step now e s) = ∅ /\ reconnectTimer (step now e s) = None /\
  maxReconnectAttempts <= reconnectAttempts (step now e s).
Proof.
  intros He (Ht & Hr & Ha).
  destruct e as [k | m | k | | | t | id p err | id err]; cbn [step];
    [done | | | | | | |].
  - destruct (handleWebSocketMessage_timers now m s) as (H1 & H2 & H3).
    rewrite H1, H2, H3. by repeat split.
  - match goal with
    | |- context [handleWebSocketClose ?x] =>
        destruct (handleWebSocketClose_fields x (empty_one_timer x Ht))
          as (C1 & _ & C3);
        cbv zeta in C1, C3;
        change (reconnectAttempts x) with (reconnectAttempts s) in C1, C3;
        rewrite C1
    end.
    assert ((S (reconnectAttempts s) <=? maxReconnectAttempts) = false)
      as E by (apply Nat.leb_gt; lia).
    rewrite E in C3. destruct C3 as (C3 & C4 & _).
    split; [exact C3 |]. split; [exact C4 | lia].
  - destruct (updateConnectionStatus_fields degraded s) as (U1 & U2 & U3 & _).
    cbv zeta in U1, U2, U3. unfold handleWebSocketError.
    rewrite U1, U2, U3. by repeat split.
  - destruct (monitorTick_fields now s Ht Hr Ha) as (M1 & M2 & M3).
    split; [exact M1 |]. split; [exact M2 | lia].
  - rewrite Ht, lookup_empty. by repeat split.
  - unfold onFetchResponse. by destruct (openSocket s) as [[k |] |].
  - unfold forwardFailed. by destruct (openSocket s) as [[k |] |].
Qed.

(** X23.  When a socket closes after ten reconnection attempts without an
    opening in between, the page gives up: the status becomes failed and no
    reconnection is scheduled; whatever happens afterwards, none is scheduled
    as long as no socket opens. *)
Theorem page_gives_up_after_ten_attempts (now : Time) (k : SockId)
    (es : list (Time * Event)) (s : State) :
  maxReconnectAttempts <= reconnectAttempts s -> one_timer s ->
  no_opening es ->
  connectionStatus (step now (Closed k) s) = failed /\
  let s' := run es (step now (Closed k) s) in
  timers s' = ∅ /\ reconnectTimer s' = None /\
  maxReconnectAttempts < reconnectAttempts s'.
Proof.
  intros Ha Hone Hes.
  assert (one_timer (set_sockets (insert k CLOSED) s)) as Hone'
    by (eapply one_timer_ext; [| | exact Hone]; reflexivity).
  destruct (handleWebSocketClose_fields _ Hone') as (C1 & _ & C3).
  cbv zeta in C1, C3.
  change (reconnectAttempts (set_sockets (insert k CLOSED) s))
    with (reconnectAttempts s) in C1, C3.
  assert ((S (reconnectAttempts s) <=? maxReconnectAttempts) = false)
    as E by (apply Nat.leb_gt; lia).
  rewrite E in C3. destruct C3 as (C3 & C4 & C5).
  split; [exact C5 |]. cbv zeta.
  assert (timers (step now (Closed k) s) = ∅ /\
          reconnectTimer (step now (Closed k) s) = None /\
          maxReconnectAttempts < reconnectAttempts (step now (Closed k) s))
    as H0.
  { cbn [step]. rewrite C1. split; [exact C3 |]. split; [exact C4 | lia]. }
  revert H0. generalize (step now (Closed k) s) as s0. clear -Hes.
  unfold run.
  induction Hes as [| [now e] es He Hes IH]; intros s0 H0; [exact H0 |].
  cbn [foldl fst snd]. apply IH. cbn [snd] in He.
  destruct H0 as (H1 & H2 & H3).
  assert (maxReconnectAttempts <= reconnectAttempts s0) as H3' by lia.
  pose proof (step_gave_up now e s0 He (conj H1 (conj H2 H3')))
    as (G1 & G2 & G3).
  split; [exact G1 |]. split; [exact G2 |].
  destruct e as [k' | m | k' | | | t | id p err | id err]; [done | | | | | | |];
    cbn [step fst] in *.
  - destruct (handleWebSocketMessage_timers now m s0) as (_ & _ & M3).
    rewrite M3. exact H3.
  - destruct (handleWebSocketClose_fields (set_sockets (insert k' CLOSED) s0)
                (empty_one_timer _ H1)) as (D1 & _).
    cbv zeta in D1. rewrite D1. cbn [reconnectAttempts set_sockets]. lia.
  - destruct (updateConnectionStatus_fields degraded s0) as (_ & _ & U3 & _).
    cbv zeta in U3. unfold handleWebSocketError. rewrite U3. exact H3.
  - destruct (monitorTick_fields now s0 H1 H2 H3') as (_ & _ & M3).
    cbv zeta in M3. lia.
  - rewrite H1, lookup_empty. exact H3.
  - unfold onFetchResponse. by destruct (openSocket s0) as [[k0 |] |].
  - unfold forwardFailed. by destruct (openSocket s0) as [[k0 |] |].
Qed.

(** ** The watch on the pings *)

(** X24.  When the watch counts the third miss, it closes the socket and
    schedules a reconnection, and the page still counts as connected; the
    close event of that socket then schedules again: the first schedule is
    replaced, and one dead connection has cost two attempts. *)
Theorem dead_connection_costs_two_attempts (now now' : Time) (k : SockId)
    (last : Time) (s : State) :
  isConnected s = true -> lastPingReceived s = Some last -> last <> 0%N ->
  (reconnectDelay < now - last)%N ->
  maxMissedHeartbeats <= S (missedHeartbeats s) ->
  ws s = Some k -> one_timer s ->
  S (S (reconnectAttempts s)) <= maxReconnectAttempts ->
  let s1 := monitorTick now s in
  let s2 := step now' (Closed k) s1 in
  isConnected s1 = true /\
  reconnectAttempts s1 = S (reconnectAttempts s) /\
  timers s1 = {[nextTimer s := backoff (S (reconnectAttempts s))]} /\
  isConnected s2 = false /\
  reconnectAttempts s2 = S (S (reconnectAttempts s)) /\
  timers s2 = {[S (nextTimer s) := backoff (S (S (reconnectAttempts s)))]}.
Proof.
  intros Hc Hl Hz Hlate Hm Hw Hone Ha. cbv zeta.
  assert (monitorTick now s
          = scheduleReconnect (close k (set_missedHeartbeats S s))) as ->.
  { unfold monitorTick. rewrite Hl, Hc.
    assert ((last =? 0)%N = false) as -> by (by apply N.eqb_neq).
    assert ((reconnectDelay <? now - last)%N = true) as ->
      by (by apply N.ltb_lt).
    cbn [andb negb]. cbv zeta. cbn [missedHeartbeats set_missedHeartbeats ws].
    assert ((maxMissedHeartbeats <=? S (missedHeartbeats s)) = true) as ->
      by (by apply Nat.leb_le).
    by rewrite Hw. }
  set (s0 := close k (set_missedHeartbeats S s)).
  assert (one_timer s0) as Hone0
    by (eapply one_timer_ext; [| | exact Hone]; reflexivity).
  destruct (scheduleReconnect_fields s0 Hone0) as (S1 & S2 & _ & _ & S5).
  cbv zeta in S1, S2, S5.
  change (reconnectAttempts s0) with (reconnectAttempts s) in S1, S5.
  change (nextTimer s0) with (nextTimer s) in S5.
  change (isConnected s0) with (isConnected s) in S2.
  assert ((S (reconnectAttempts s) <=? maxReconnectAttempts) = true) as E1
    by (apply Nat.leb_le; lia).
  rewrite E1 in S5. destruct S5 as (S5 & S6 & S7 & _).
  split; [congruence |]. split; [exact S1 |]. split; [exact S5 |].
  cbn [step].
  set (s1 := set_sockets (insert k CLOSED) (scheduleReconnect s0)).
  assert (one_timer s1) as Hone1.
  { eapply one_timer_ext; [| | apply (scheduleReconnect_one s0 Hone0)];
      reflexivity. }
  destruct (handleWebSocketClose_fields s1 Hone1) as (C1 & C2 & C3).
  cbv zeta in C1, C2, C3.
  change (reconnectAttempts s1)
    with (reconnectAttempts (scheduleReconnect s0)) in C1, C3.
  change (nextTimer s1) with (nextTimer (scheduleReconnect s0)) in C3.
  rewrite S1, S7 in *.
  assert ((S (S (reconnectAttempts s)) <=? maxReconnectAttempts) = true)
    as E2 by (apply Nat.leb_le; lia).
  rewrite E2 in C3. destruct C3 as (C3 & _).
  by repeat split.
Qed.

(** X25.  A ping from the broker sets the count of missed pings to zero,
    is answered by a pong when the socket is open, and takes the page out
    of the degraded status; a tick of the watch within five seconds of the
    ping changes nothing. *)
Theorem ping_in_time_keeps_the_connection (now now' : Time)
    (timestamp : option Time) (k : SockId) (s : State) :
  isConnected s = true -> ws s = Some k -> now <> 0%N ->
  (now' - now <= reconnectDelay)%N ->
  let s1 := handleHeartbeat now timestamp s in
  missedHeartbeats s1 = 0 /\
  connectionStatus s1
  = (if bool_decide (connectionStatus s = degraded) then connected
     else connectionStatus s) /\
  (sockets s !! k = Some OPEN ->
   out s1
   = out s
     ++ [ToSocket k
           (FPong (clientId s) timestamp now
              (requestsProcessed (connectionMetrics s))
              (Z.of_N now
               - Z.of_N (default 0%N
                           (lastConnectedAt (connectionMetrics s)))))]
     ++ (if bool_decide (connectionStatus s = degraded)
         then [ToRuntime (RStatus connected true)] else [])) /\
  monitorTick now' s1 = s1.
Proof.
  intros Hc Hw Hz Hin. cbv zeta.
  destruct (handleHeartbeat_fields now timestamp s)
    as (_ & _ & _ & F4 & F5 & F6).
  cbv zeta in F4, F5, F6.
  split; [exact F4 |].
  split; [| split].
  - unfold handleHeartbeat, sendPong, openSocket. cbv zeta.
    destruct timestamp as [t |]; [destruct (t =? 0)%N |];
      cbn [isConnected ws sockets set_missedHeartbeats set_lastPingReceived
             set_connectionMetrics];
      rewrite Hc, Hw;
      case_bool_decide;
      cbn [connectionStatus send set_out set_missedHeartbeats
             set_lastPingReceived set_connectionMetrics];
      case_bool_decide as Ed; try reflexivity;
      unfold updateConnectionStatus;
      cbn [connectionStatus send set_out set_missedHeartbeats
             set_lastPingReceived set_connectionMetrics];
      rewrite Ed; reflexivity.
  - intros Ho.
    unfold handleHeartbeat, sendPong, openSocket. cbv zeta.
    destruct timestamp as [t |]; [destruct (t =? 0)%N |];
      cbn [isConnected ws sockets set_missedHeartbeats set_lastPingReceived
             set_connectionMetrics];
      rewrite Hc, Hw, Ho, bool_decide_eq_true_2 by reflexivity;
      cbn [connectionStatus send set_out set_missedHeartbeats
             set_lastPingReceived set_connectionMetrics];
      (case_bool_decide as Ed;
       [unfold updateConnectionStatus;
        cbn [connectionStatus out sendMessage send set_out
               set_missedHeartbeats set_lastPingReceived
               set_connectionMetrics set_connectionStatus];
        rewrite Ed, (bool_decide_eq_true_2 (degraded <> connected))
          by discriminate;
        cbn; rewrite <- ?app_assoc; reflexivity
       | cbn; by rewrite ?app_nil_r]).
  - unfold monitorTick. rewrite F5, F6, Hc, F4.
    assert ((now =? 0)%N = false) as -> by (by apply N.eqb_neq).
    assert ((reconnectDelay <? now' - now)%N = false) as ->
      by (apply N.ltb_ge; exact Hin).
    reflexivity.
Qed.

(** ** Instances *)

Lemma reconnection_delay_grows_to_thirty_seconds_witness :
  (backoff 2 <= backoff 5)%N.
Proof.
  apply (reconnection_delay_grows_to_thirty_seconds 2 5); lia.
Defined.

Lemma one_reconnection_at_a_time_witness :
  2 = 2 /\
  reconnectTimer (run [(9000%N, Closed 0)] (loaded 7)) = Some 2.
Proof.
  apply (one_reconnection_at_a_time 7 [(9000%N, Closed 0)] 2 2
           5000%N 5000%N); vm_compute; reflexivity.
Defined.

Lemma page_gives_up_after_ten_attempts_witness :
  connectionStatus
    (step 0%N (Closed 10) (run (WorkerScenario.unreachable 10) (loaded 7)))
  = failed.
Proof.
  apply (page_gives_up_after_ten_attempts 0%N 10 []
           (run (WorkerScenario.unreachable 10) (loaded 7))).
  - vm_compute. lia.
  - intros t d H. vm_compute in H. discriminate.
  - constructor.
Defined.

Lemma dead_connection_costs_two_attempts_witness :
  reconnectAttempts
    (step 15100%N (Closed 0) (monitorTick 15000%N WorkerScenario.lastMiss))
  = S (S (reconnectAttempts WorkerScenario.lastMiss)).
Proof.
  apply (dead_connection_costs_two_attempts 15000%N 15100%N 0 4000%N
           WorkerScenario.lastMiss).
  - vm_compute. reflexivity.
  - vm_compute. reflexivity.
  - discriminate.
  - vm_compute. reflexivity.
  - vm_compute. lia.
  - vm_compute. reflexivity.
  - intros t d H. vm_compute in H. discriminate.
  - vm_compute. lia.
Defined.

Lemma ping_in_time_keeps_the_connection_witness :
  missedHeartbeats
    (handleHeartbeat 7000%N (Some 7000%N) WorkerScenario.online) = 0.
Proof.
  apply (ping_in_time_keeps_the_connection 7000%N 10000%N (Some 7000%N) 0
           WorkerScenario.online).
  - vm_compute. reflexivity.
  - vm_compute. reflexivity.
  - discriminate.
  - vm_compute. discriminate.
Defined.

End WorkerSpec.
